(** * vma/logger: Apache Common / Combined log lines for chi

    A shallow embedding of [logger.go] and of the parts of Go's standard
    library it calls, followed by the properties of the log-line formatter.

    Go strings and byte slices are [string]s (sequences of 8-bit [ascii]);
    [rune], [int] and [byte] values are [Z]; a panic or an exhausted
    iteration budget is [None]. *)

From Stdlib Require Import ZArith Lia Bool List Ascii String.
From Stdlib Require Import Floats.SpecFloat.
Import ListNotations.

Local Open Scope string_scope.
Local Open Scope Z_scope.

(** ** Bytes and strings *)

Definition byteVal (c : ascii) : Z := Z.of_N (N_of_ascii c).

(** Go's conversion [byte(x)]: keep the low eight bits. *)
Definition toByte (z : Z) : ascii := ascii_of_N (Z.to_N (z mod 256)).

(** Go's conversion to [int32]: wrap around modulo 2^32, signed. *)
Definition int32 (z : Z) : Z := (z + 2 ^ 31) mod 2 ^ 32 - 2 ^ 31.

Definition len (s : string) : Z := Z.of_nat (String.length s).

Definition str1 (c : ascii) : string := String c EmptyString.

Definition dquote : ascii := "034"%char.
Definition backslash : ascii := "092"%char.
Definition newline : ascii := "010"%char.

Fixpoint skipn (n : nat) (s : string) : string :=
  match n, s with
  | O, _ => s
  | S n', String _ t => skipn n' t
  | S _, EmptyString => EmptyString
  end.

(** The slice expression [s[w:]]; it panics when [w] is out of range. *)
Definition sliceFrom (w : Z) (s : string) : option string :=
  if (0 <=? w) && (w <=? len s) then Some (skipn (Z.to_nat w) s) else None.

Definition bind {A B : Type} (o : option A) (f : A -> option B) : option B :=
  match o with
  | Some a => f a
  | None => None
  end.

Notation "x <- e ;; k" := (bind e (fun x => k))
  (at level 61, e at next level, right associativity).

(** ** unicode/utf8 *)

Module utf8.

Definition RuneError : Z := 0xFFFD.
Definition RuneSelf : Z := 0x80.
Definition MaxRune : Z := 0x10FFFF.
Definition UTFMax : Z := 4.

Definition surrogateMin : Z := 0xD800.
Definition surrogateMax : Z := 0xDFFF.

Definition t1 : Z := 0x00.
Definition tx : Z := 0x80.
Definition t2 : Z := 0xC0.
Definition t3 : Z := 0xE0.
Definition t4 : Z := 0xF0.
Definition t5 : Z := 0xF8.

Definition maskx : Z := 0x3F.
Definition mask2 : Z := 0x1F.
Definition mask3 : Z := 0x0F.
Definition mask4 : Z := 0x07.

Definition rune1Max : Z := 2 ^ 7 - 1.
Definition rune2Max : Z := 2 ^ 11 - 1.
Definition rune3Max : Z := 2 ^ 16 - 1.

Definition locb : Z := 0x80.
Definition hicb : Z := 0xBF.

(** Entries of the [first] table: size in the low bits, index into
    [acceptRanges] in the high bits. *)
Definition xx : Z := 0xF1.
Definition as_ : Z := 0xF0.
Definition s1 : Z := 0x02.
Definition s2 : Z := 0x13.
Definition s3 : Z := 0x03.
Definition s4 : Z := 0x23.
Definition s5 : Z := 0x34.
Definition s6 : Z := 0x04.
Definition s7 : Z := 0x44.

(** The 256-entry table [first], written by ranges of the leading byte. *)
Definition first (b : Z) : Z :=
  if b <? 0x80 then as_
  else if b <? 0xC2 then xx
  else if b <? 0xE0 then s1
  else if b =? 0xE0 then s2
  else if b <? 0xED then s3
  else if b =? 0xED then s4
  else if b <? 0xF0 then s3
  else if b =? 0xF0 then s5
  else if b <? 0xF4 then s6
  else if b =? 0xF4 then s7
  else xx.

(** [acceptRanges], as pairs (lo, hi); the unused entries are zero. *)
Definition acceptRanges (i : Z) : Z * Z :=
  if i =? 0 then (locb, hicb)
  else if i =? 1 then (0xA0, hicb)
  else if i =? 2 then (locb, 0x9F)
  else if i =? 3 then (0x90, hicb)
  else if i =? 4 then (locb, 0x8F)
  else (0, 0).

(** [DecodeRuneInString]: the rune at the head of [s] and its width in
    bytes; [(RuneError, 1)] for an invalid encoding, [(RuneError, 0)] for
    the empty string.  The [EmptyString] branches after the test
    [n < sz] stand for index expressions that the test keeps in range. *)
Definition DecodeRuneInString (s : string) : Z * Z :=
  match s with
  | EmptyString => (RuneError, 0)
  | String c0 r0 =>
    let n := len s in
    let b0 := byteVal c0 in
    let x := first b0 in
    if as_ <=? x then
      let mask := Z.shiftr (int32 (Z.shiftl x 31)) 31 in
      (Z.lor (Z.land b0 (Z.lnot mask)) (Z.land RuneError mask), 1)
    else
      let sz := Z.land x 7 in
      let accept := acceptRanges (Z.shiftr x 4) in
      if n <? sz then (RuneError, 1) else
      match r0 with
      | EmptyString => (RuneError, 1)
      | String c1 r1 =>
        let b1 := byteVal c1 in
        if (b1 <? fst accept) || (snd accept <? b1) then (RuneError, 1) else
        if sz <=? 2 then
          (Z.lor (Z.shiftl (Z.land b0 mask2) 6) (Z.land b1 maskx), 2)
        else
        match r1 with
        | EmptyString => (RuneError, 1)
        | String c2 r2 =>
          let b2 := byteVal c2 in
          if (b2 <? locb) || (hicb <? b2) then (RuneError, 1) else
          if sz <=? 3 then
            (Z.lor (Z.lor (Z.shiftl (Z.land b0 mask3) 12)
                          (Z.shiftl (Z.land b1 maskx) 6))
                   (Z.land b2 maskx), 3)
          else
          match r2 with
          | EmptyString => (RuneError, 1)
          | String c3 _ =>
            let b3 := byteVal c3 in
            if (b3 <? locb) || (hicb <? b3) then (RuneError, 1) else
            (Z.lor (Z.lor (Z.lor (Z.shiftl (Z.land b0 mask4) 18)
                                 (Z.shiftl (Z.land b1 maskx) 12))
                          (Z.shiftl (Z.land b2 maskx) 6))
                   (Z.land b3 maskx), 4)
          end
        end
      end
  end.

Definition encode3 (r : Z) : string :=
  String (toByte (Z.lor t3 (byteVal (toByte (Z.shiftr r 12)))))
  (String (toByte (Z.lor tx (Z.land (byteVal (toByte (Z.shiftr r 6))) maskx)))
  (String (toByte (Z.lor tx (Z.land (byteVal (toByte r)) maskx)))
   EmptyString)).

(** [EncodeRune], returning the bytes written (the slice [p[:n]]). *)
Definition EncodeRune (r : Z) : string :=
  let i := r mod 2 ^ 32 in
  if i <=? rune1Max then str1 (toByte r)
  else if i <=? rune2Max then
    String (toByte (Z.lor t2 (byteVal (toByte (Z.shiftr r 6)))))
    (String (toByte (Z.lor tx (Z.land (byteVal (toByte r)) maskx)))
     EmptyString)
  else if (MaxRune <? i) || ((surrogateMin <=? i) && (i <=? surrogateMax))
  then encode3 RuneError
  else if i <=? rune3Max then encode3 r
  else
    String (toByte (Z.lor t4 (byteVal (toByte (Z.shiftr r 18)))))
    (String
       (toByte (Z.lor tx (Z.land (byteVal (toByte (Z.shiftr r 12))) maskx)))
    (String
       (toByte (Z.lor tx (Z.land (byteVal (toByte (Z.shiftr r 6))) maskx)))
    (String (toByte (Z.lor tx (Z.land (byteVal (toByte r)) maskx)))
     EmptyString))).

End utf8.

(** ** strconv *)

Module strconv.

(** [IsPrint].  The test for Latin-1 is the one the library makes first;
    above U+00FF the library searches tables generated from the Unicode
    database, which are taken here as the parameter [wide]. *)
Definition IsPrint (wide : Z -> bool) (r : Z) : bool :=
  if r <=? 0xFF then
    if (0x20 <=? r) && (r <=? 0x7E) then true
    else if (0xA1 <=? r) && (r <=? 0xFF) then negb (r =? 0xAD)
    else false
  else wide r.

End strconv.

(** ** The escaping primitive of logger.go *)

Definition lowerhex : string := "0123456789abcdef".

(** The index expression [lowerhex[i]]; every index the program uses is
    the result of [>>4] on a byte or of [&0xF], hence below 16. *)
Definition lowerhexAt (i : Z) : ascii :=
  match String.get (Z.to_nat i) lowerhex with
  | Some c => c
  | None => "000"%char
  end.

(** The loop [for s := hi; s >= 0; s -= 4] appending one hex digit of [r]
    per turn; [shifts] lists the values [s] takes. *)
Fixpoint appendHex (buf : string) (r : Z) (shifts : list Z) : string :=
  match shifts with
  | [] => buf
  | s :: rest =>
    appendHex (buf ++ str1 (lowerhexAt (Z.land (Z.shiftr r s) 0xF))) r rest
  end.

Section Escaping.

Variable wide : Z -> bool.

(** The body of the loop of [appendQuoted] once [r] and [width] are
    known: what is appended for the rune [r] whose first byte [s[0]] is
    [b0].  Each [continue] of the source is the end of a branch here. *)
Definition appendRune (buf : string) (r width : Z) (b0 : ascii) : string :=
  let hexByte :=
    (buf ++ String backslash "x")
      ++ str1 (lowerhexAt (Z.shiftr (byteVal b0) 4))
      ++ str1 (lowerhexAt (Z.land (byteVal b0) 0xF)) in
  if (width =? 1) && (r =? utf8.RuneError) then hexByte
  else if (r =? byteVal dquote) || (r =? byteVal backslash) then
    buf ++ str1 backslash ++ str1 (toByte r)
  else if strconv.IsPrint wide r then buf ++ utf8.EncodeRune r
  else if r =? 7 (* bell *) then buf ++ String backslash "a"
  else if r =? 8 (* backspace *) then buf ++ String backslash "b"
  else if r =? 12 (* form feed *) then buf ++ String backslash "f"
  else if r =? 10 (* newline *) then buf ++ String backslash "n"
  else if r =? 13 (* carriage return *) then buf ++ String backslash "r"
  else if r =? 9 (* tab *) then buf ++ String backslash "t"
  else if r =? 11 (* vertical tab *) then buf ++ String backslash "v"
  else if r <? 32 (* space *) then hexByte
  else if utf8.MaxRune <? r then
    appendHex (buf ++ String backslash "u") 0xFFFD [12; 8; 4; 0]
  else if r <? 0x10000 then
    appendHex (buf ++ String backslash "u") r [12; 8; 4; 0]
  else
    appendHex (buf ++ String backslash "U") r [28; 24; 20; 16; 12; 8; 4; 0].

(** The rune and width the loop computes at the head of a non-empty [s]. *)
Definition scanRune (s : string) (c0 : ascii) : Z * Z :=
  if utf8.RuneSelf <=? byteVal c0 then utf8.DecodeRuneInString s
  else (byteVal c0, 1).

(** The loop of [appendQuoted]; [fuel] bounds the number of iterations. *)
Fixpoint appendQuotedLoop (fuel : nat) (buf s : string) : option string :=
  match s with
  | EmptyString => Some buf
  | String c0 _ =>
    match fuel with
    | O => None
    | S fuel' =>
      let (r, width) := scanRune s c0 in
      s' <- sliceFrom width s ;;
      appendQuotedLoop fuel' (appendRune buf r width c0) s'
    end
  end.

Definition appendQuoted (buf s : string) : option string :=
  appendQuotedLoop (String.length s) buf s.

End Escaping.

(** ** strconv.Itoa and the padded integers of package time *)

Module itoa.

Definition digit (d : Z) : ascii := toByte (byteVal "0"%char + d).

(** The digits of [u], least significant first in the recursion, as the
    library's loop [for u >= 10 { ... u /= 10 }] produces them. *)
Fixpoint formatBits (fuel : nat) (u : Z) (acc : string) : string :=
  match fuel with
  | O => acc
  | S fuel' =>
    if u <? 10 then String (digit u) acc
    else formatBits fuel' (u / 10) (String (digit (u mod 10)) acc)
  end.

Definition formatUint (u : Z) : string :=
  formatBits (S (Z.to_nat (Z.log2 u))) u EmptyString.

Definition Itoa (i : Z) : string :=
  if i <? 0 then String "-" (formatUint (- i)) else formatUint i.

Fixpoint zeros (n : nat) : string :=
  match n with
  | O => EmptyString
  | S n' => String "0" (zeros n')
  end.

(** [appendInt] of package time: decimal, zero-padded on the left to
    [width] digits, with a leading minus sign for a negative value. *)
Definition appendInt (b : string) (x : Z) (width : nat) : string :=
  let u := Z.abs x in
  let ds := formatUint u in
  b ++ (if x <? 0 then "-" else EmptyString)
    ++ zeros (width - String.length ds) ++ ds.

End itoa.

(** ** net.SplitHostPort

    As in current releases of the library; the error is kept as its
    message. *)

Inductive result (A : Type) : Type :=
  | Ok (a : A)
  | Err (why : string).
Arguments Ok {A} a.
Arguments Err {A} why.

Module net.

Fixpoint indexFrom (s : string) (c : ascii) (i : Z) : Z :=
  match s with
  | EmptyString => -1
  | String a r => if Ascii.eqb a c then i else indexFrom r c (i + 1)
  end.

(** Index of the first [c] in [s], or -1. *)
Definition IndexByteString (s : string) (c : ascii) : Z := indexFrom s c 0.

Fixpoint lastFrom (s : string) (c : ascii) (i found : Z) : Z :=
  match s with
  | EmptyString => found
  | String a r => lastFrom r c (i + 1) (if Ascii.eqb a c then i else found)
  end.

(** Index of the last [c] in [s], or -1. *)
Definition last (s : string) (c : ascii) : Z := lastFrom s c 0 (-1).

(** The slice [s[i:j]] for indices in range. *)
Definition slice (s : string) (i j : Z) : string :=
  substring (Z.to_nat i) (Z.to_nat (j - i)) s.

(** The test [s[i] == c]. *)
Definition isByteAt (s : string) (i : Z) (c : ascii) : bool :=
  match String.get (Z.to_nat i) s with
  | Some a => Ascii.eqb a c
  | None => false
  end.

Definition missingPort : string := "missing port in address".
Definition tooManyColons : string := "too many colons in address".

Definition SplitHostPort (hostport : string) : result (string * string) :=
  let i := last hostport ":" in
  if i <? 0 then Err missingPort else
  let n := len hostport in
  let bracket :=
    if isByteAt hostport 0 "[" then
      let e := IndexByteString hostport "]" in
      if e <? 0 then Err "missing ']' in address"
      else if e + 1 =? n then Err missingPort
      else if e + 1 =? i then Ok (slice hostport 1 e, 1, e + 1)
      else if isByteAt hostport (e + 1) ":" then Err tooManyColons
      else Err missingPort
    else
      let host := slice hostport 0 i in
      if 0 <=? IndexByteString host ":" then Err tooManyColons
      else Ok (host, 0, 0) in
  match bracket with
  | Err why => Err why
  | Ok (host, j, k) =>
    if 0 <=? IndexByteString (slice hostport j n) "[" then
      Err "unexpected '[' in address"
    else if 0 <=? IndexByteString (slice hostport k n) "]" then
      Err "unexpected ']' in address"
    else Ok (host, slice hostport (i + 1) n)
  end.

End net.

(** ** net/url and net/http: what the logger reads of a request *)

Module url.

Record Userinfo : Type := {
  username : string;
  password : string;
  passwordSet : bool
}.

(** [escapedPath] holds the value of the method [EscapedPath()], which
    the library computes from the fields [Path] and [RawPath]. *)
Record URL : Type := {
  Scheme : string;
  Opaque : string;
  User : option Userinfo;
  escapedPath : string;
  ForceQuery : bool;
  RawQuery : string
}.

(** [Username] on a possibly nil [*Userinfo]. *)
Definition Username (u : option Userinfo) : string :=
  match u with
  | Some ui => username ui
  | None => EmptyString
  end.

Definition RequestURI (u : URL) : string :=
  let result :=
    if String.eqb (Opaque u) EmptyString then
      if String.eqb (escapedPath u) EmptyString then "/" else escapedPath u
    else if String.prefix "//" (Opaque u) then Scheme u ++ ":" ++ Opaque u
    else Opaque u in
  if ForceQuery u || negb (String.eqb (RawQuery u) EmptyString)
  then result ++ "?" ++ RawQuery u
  else result.

End url.

Module http.

(** A header: canonical key to list of values. *)
Definition Header : Type := list (string * list string).

Fixpoint values (h : Header) (key : string) : list string :=
  match h with
  | [] => []
  | (k, vs) :: rest => if String.eqb k key then vs else values rest key
  end.

(** [Header.Get]: the first value under [key], or the empty string. *)
Definition Get (h : Header) (key : string) : string :=
  match values h key with
  | v :: _ => v
  | [] => EmptyString
  end.

Record Request : Type := {
  Method : string;
  URL : url.URL;
  Proto : string;
  ProtoMajor : Z;
  Header_ : Header;
  Host : string;
  RemoteAddr : string;
  RequestURI : string
}.

Definition Referer (r : Request) : string := Get (Header_ r) "Referer".
Definition UserAgent (r : Request) : string := Get (Header_ r) "User-Agent".

End http.

(** ** time *)

Module time.

(** An instant as seconds since the Unix epoch, with the offset of its
    location in seconds east of UTC. *)
Record Time : Type := {
  unixSec : Z;
  zoneOffset : Z
}.

(** Nanoseconds, a signed 64-bit count. *)
Definition Duration : Type := Z.

Definition Nanoseconds (d : Duration) : Z := d.

(** Year, month and day of the proleptic Gregorian date that lies [days]
    days after 1970-01-01. *)
Definition civil (days : Z) : Z * Z * Z :=
  let z := days + 719468 in
  let era := z / 146097 in
  let doe := z - era * 146097 in
  let yoe := (doe - doe / 1460 + doe / 36524 - doe / 146096) / 365 in
  let doy := doe - (365 * yoe + yoe / 4 - yoe / 100) in
  let mp := (5 * doy + 2) / 153 in
  let d := doy - (153 * mp + 2) / 5 + 1 in
  let m := if mp <? 10 then mp + 3 else mp - 9 in
  let y := yoe + era * 400 + (if m <=? 2 then 1 else 0) in
  (y, m, d).

Definition shortMonthNames : list string :=
  ["Jan"; "Feb"; "Mar"; "Apr"; "May"; "Jun";
   "Jul"; "Aug"; "Sep"; "Oct"; "Nov"; "Dec"].

(** [t.Format("02/Jan/2006:15:04:05 -0700")], the one layout the logger
    uses: zero-padded day, month abbreviation, four-digit year, 24-hour
    clock, and the zone offset as sign, hours and minutes. *)
Definition FormatCLF (t : Time) : string :=
  let abs := unixSec t + zoneOffset t in
  let '(year, month, day) := civil (abs / 86400) in
  let sec := abs mod 86400 in
  let zone := Z.quot (zoneOffset t) 60 in
  let b := itoa.appendInt EmptyString day 2 in
  let b := b ++ "/" in
  let b := b ++ nth (Z.to_nat (month - 1)) shortMonthNames EmptyString in
  let b := b ++ "/" in
  let b := itoa.appendInt b year 4 in
  let b := b ++ ":" in
  let b := itoa.appendInt b (sec / 3600) 2 in
  let b := b ++ ":" in
  let b := itoa.appendInt b (sec mod 3600 / 60) 2 in
  let b := b ++ ":" in
  let b := itoa.appendInt b (sec mod 60) 2 in
  let b := b ++ " " in
  let b := b ++ (if zone <? 0 then "-" else "+") in
  let b := itoa.appendInt b (Z.abs zone / 60) 2 in
  itoa.appendInt b (Z.abs zone mod 60) 2.

End time.

(** ** float64 and the verb %.3f *)

Module float64.

Definition prec : Z := 53.
Definition emax : Z := 1024.

(** The conversion [float64(n)] of an integer: round to nearest, ties to
    even. *)
Definition ofInt (n : Z) : spec_float := binary_normalize prec emax n 0 false.

Definition div (x y : spec_float) : spec_float := SFdiv prec emax x y.

(** The value [m * 2^e] times 1000, rounded to the nearest integer, ties
    to even: the decimal rounding of [strconv.FormatFloat] for three
    digits after the point. *)
Definition roundMilli (m : positive) (e : Z) : Z :=
  let num := Zpos m * 1000 in
  if 0 <=? e then num * 2 ^ e
  else
    let den := 2 ^ (- e) in
    let q := num / den in
    let r := num mod den in
    match 2 * r ?= den with
    | Lt => q
    | Gt => q + 1
    | Eq => if Z.even q then q else q + 1
    end.

Definition fixed3 (neg : bool) (k : Z) : string :=
  (if neg then "-" else EmptyString)
    ++ itoa.formatUint (k / 1000) ++ "."
    ++ itoa.appendInt EmptyString (k mod 1000) 3.

(** [fmt.Sprintf("%.3f", f)]. *)
Definition format3 (f : spec_float) : string :=
  match f with
  | S754_nan => "NaN"
  | S754_infinity s => if s then "-Inf" else "+Inf"
  | S754_zero s => fixed3 s 0
  | S754_finite s m e => fixed3 s (roundMilli m e)
  end.

End float64.

(** ** logger.go: the formatter *)

(** [prettyDuration] pretty-prints the page rendering delay in ms. *)
Definition prettyDuration (dur : time.Duration) : string :=
  let ms := float64.div (float64.ofInt (time.Nanoseconds dur))
                        (float64.ofInt 1000000) in
  float64.format3 ms ++ "ms".

(** An [io.Writer]: the payloads of the calls to [Write], oldest first. *)
Definition Writer : Type := list string.

Definition Write (w : Writer) (buf : string) : Writer := List.app w [buf].

Section Logger.

Variable wide : Z -> bool.

(** The target written in the request line: the variable [uri] of
    [buildCommonLogLine] after its two tests. *)
Definition requestTarget (req : http.Request) : string :=
  let uri := http.RequestURI req in
  let uri :=
    if (http.ProtoMajor req =? 2) && String.eqb (http.Method req) "CONNECT"
    then http.Host req else uri in
  if String.eqb uri EmptyString then url.RequestURI (http.URL req) else uri.

(** The variable [host] of [buildCommonLogLine]. *)
Definition remoteHost (req : http.Request) : string :=
  match net.SplitHostPort (http.RemoteAddr req) with
  | Ok (host, _) => host
  | Err _ => http.RemoteAddr req
  end.

(** The variable [username] of [buildCommonLogLine]. *)
Definition userName (req : http.Request) : string :=
  let username := "-" in
  match url.User (http.URL req) with
  | Some _ =>
    let name := url.Username (url.User (http.URL req)) in
    if negb (String.eqb name EmptyString) then name else username
  | None => username
  end.

(** [buildCommonLogLine] builds a log entry for [req] in Apache Common
    Log Format. *)
Definition buildCommonLogLine (req : http.Request) (ts : time.Time)
    (status size : Z) (delay : time.Duration) : option string :=
  let username := userName req in
  let host := remoteHost req in
  let uri := requestTarget req in
  let buf := EmptyString in
  let buf := buf ++ host in
  let buf := buf ++ " - " in
  let buf := buf ++ username in
  let buf := buf ++ " [" in
  let buf := buf ++ time.FormatCLF ts in
  let buf := buf ++ "] " ++ str1 dquote in
  let buf := buf ++ http.Method req in
  let buf := buf ++ " " in
  buf <- appendQuoted wide buf uri ;;
  let buf := buf ++ " " in
  let buf := buf ++ http.Proto req in
  let buf := buf ++ str1 dquote ++ " " in
  let buf := buf ++ itoa.Itoa status in
  let buf := buf ++ " " in
  let buf := buf ++ itoa.Itoa size in
  let buf := buf ++ " " in
  let buf := buf ++ prettyDuration delay in
  Some buf.

(** [writeCommonLog] writes a log entry for [req] to [w] in Apache Common
    Log Format. *)
Definition writeCommonLog (w : Writer) (req : http.Request) (ts : time.Time)
    (status size : Z) (delay : time.Duration) : option Writer :=
  buf <- buildCommonLogLine req ts status size delay ;;
  let buf := buf ++ str1 newline in
  Some (Write w buf).

(** [writeCombinedLog] writes a log entry for [req] to [w] in Apache
    Combined Log Format. *)
Definition writeCombinedLog (w : Writer) (req : http.Request) (ts : time.Time)
    (status size : Z) (delay : time.Duration) : option Writer :=
  buf <- buildCommonLogLine req ts status size delay ;;
  let buf := buf ++ " " ++ str1 dquote in
  buf <- appendQuoted wide buf (http.Referer req) ;;
  let buf := buf ++ str1 dquote ++ " " ++ str1 dquote in
  buf <- appendQuoted wide buf (http.UserAgent req) ;;
  let buf := buf ++ str1 dquote ++ str1 newline in
  Some (Write w buf).

End Logger.


(** ** Vocabulary of the properties *)

(** [Decoded s r w]: the head of the non-empty string [s] reads as the
    rune [r] over [w] bytes.  One constructor per outcome of the scan: a
    byte below [RuneSelf], a byte from [RuneSelf] up reported as
    [RuneError] of width one, and the well-formed sequences of two, three
    and four bytes with their value. *)
Inductive Decoded : string -> Z -> Z -> Prop :=
  | DecSelf c t :
      byteVal c < 0x80 ->
      Decoded (String c t) (byteVal c) 1
  | DecError c t :
      0x80 <= byteVal c ->
      Decoded (String c t) utf8.RuneError 1
  | Dec2 c0 c1 t :
      0xC2 <= byteVal c0 <= 0xDF ->
      0x80 <= byteVal c1 <= 0xBF ->
      Decoded (String c0 (String c1 t))
        ((byteVal c0 - 0xC0) * 2 ^ 6 + (byteVal c1 - 0x80)) 2
  | Dec3 c0 c1 c2 t :
      0xE0 <= byteVal c0 <= 0xEF ->
      0x80 <= byteVal c1 <= 0xBF ->
      (byteVal c0 = 0xE0 -> 0xA0 <= byteVal c1) ->
      (byteVal c0 = 0xED -> byteVal c1 <= 0x9F) ->
      0x80 <= byteVal c2 <= 0xBF ->
      Decoded (String c0 (String c1 (String c2 t)))
        ((byteVal c0 - 0xE0) * 2 ^ 12 + (byteVal c1 - 0x80) * 2 ^ 6
         + (byteVal c2 - 0x80)) 3
  | Dec4 c0 c1 c2 c3 t :
      0xF0 <= byteVal c0 <= 0xF4 ->
      0x80 <= byteVal c1 <= 0xBF ->
      (byteVal c0 = 0xF0 -> 0x90 <= byteVal c1) ->
      (byteVal c0 = 0xF4 -> byteVal c1 <= 0x8F) ->
      0x80 <= byteVal c2 <= 0xBF ->
      0x80 <= byteVal c3 <= 0xBF ->
      Decoded (String c0 (String c1 (String c2 (String c3 t))))
        ((byteVal c0 - 0xF0) * 2 ^ 18 + (byteVal c1 - 0x80) * 2 ^ 12
         + (byteVal c2 - 0x80) * 2 ^ 6 + (byteVal c3 - 0x80)) 4.

(** The two bytes that are always backslashed. *)
Definition isSpecial (c : ascii) : bool :=
  Ascii.eqb c dquote || Ascii.eqb c backslash.

(** Number of double quotes and backslashes in an input. *)
Fixpoint specials (s : string) : nat :=
  match s with
  | EmptyString => 0%nat
  | String c t => ((if isSpecial c then 1 else 0) + specials t)%nat
  end.

(** Number of backslash-escaped double quotes and backslashes in an
    output, read from the left: a backslash takes the byte after it. *)
Fixpoint escapedPairs (out : string) : nat :=
  match out with
  | EmptyString => 0%nat
  | String a t =>
    if Ascii.eqb a backslash then
      match t with
      | EmptyString => 0%nat
      | String b rest =>
        ((if isSpecial b then 1 else 0) + escapedPairs rest)%nat
      end
    else escapedPairs t
  end.

(** Number of double quotes in an output that no backslash takes, read
    from the left like [escapedPairs]. *)
Fixpoint bareQuotes (out : string) : nat :=
  match out with
  | EmptyString => 0%nat
  | String a t =>
    if Ascii.eqb a backslash then
      match t with
      | EmptyString => 0%nat
      | String _ rest => bareQuotes rest
      end
    else ((if Ascii.eqb a dquote then 1 else 0) + bareQuotes t)%nat
  end.

(** Every byte of [p] is neither a double quote nor a backslash. *)
Fixpoint plainBytes (p : string) : bool :=
  match p with
  | EmptyString => true
  | String a t => negb (isSpecial a) && plainBytes t
  end.

(** What one turn of the loop appends: plain bytes, or a backslash, one
    byte, and plain bytes; [n] counts the escaped special byte. *)
Inductive Chunk : string -> nat -> Prop :=
  | ChunkPlain p :
      plainBytes p = true -> Chunk p 0
  | ChunkEscape b p :
      plainBytes p = true ->
      Chunk (String backslash (String b p)) (if isSpecial b then 1 else 0).

Section Text.

Variable wide : Z -> bool.

(** [s] is valid UTF-8 and each of its runes is printable and is neither
    a double quote nor a backslash; runes are read as a [range] loop
    reads them, [fuel] bounding their number. *)
Fixpoint plainPrintableLoop (fuel : nat) (s : string) : bool :=
  match s with
  | EmptyString => true
  | String _ _ =>
    match fuel with
    | O => false
    | S fuel' =>
      let (r, w) := utf8.DecodeRuneInString s in
      negb ((r =? utf8.RuneError) && (w =? 1))
      && strconv.IsPrint wide r
      && negb (r =? byteVal dquote) && negb (r =? byteVal backslash)
      && plainPrintableLoop fuel' (skipn (Z.to_nat w) s)
    end
  end.

Definition plainPrintable (s : string) : bool :=
  plainPrintableLoop (String.length s) s.

End Text.

(** The output has each double quote right after a backslash. *)
Definition quotesGuarded (out : string) : Prop :=
  forall i : nat, String.get i out = Some dquote ->
  exists j : nat, i = S j /\ String.get j out = Some backslash.

(** A table for the runes above U+00FF that marks none of them
    printable: enough to run the examples, which stay within Latin-1. *)
Definition latin1Only : Z -> bool := fun _ => false.

(** The first [n] bytes of [s]. *)
Fixpoint firstn (n : nat) (s : string) : string :=
  match n, s with
  | S n', String c t => String c (firstn n' t)
  | _, _ => EmptyString
  end.

(** The text [appendQuoted] appends for [s] to an empty buffer. *)
Definition quoted (wide : Z -> bool) (s : string) : string :=
  match appendQuoted wide EmptyString s with
  | Some out => out
  | None => EmptyString
  end.

(** The request line and the fields around it, for a target already
    escaped: the layout of a Common Log Format line. *)
Definition commonLine (host user stamp method target proto : string)
    (status size : Z) (elapsed : string) : string :=
  host ++ " - " ++ user ++ " [" ++ stamp ++ "] "
    ++ str1 dquote ++ method ++ " " ++ target ++ " " ++ proto ++ str1 dquote
    ++ " " ++ itoa.Itoa status ++ " " ++ itoa.Itoa size ++ " " ++ elapsed.

Definition isDigit (c : ascii) : bool :=
  (byteVal "0" <=? byteVal c) && (byteVal c <=? byteVal "9").

Fixpoint allDigits (s : string) : bool :=
  match s with
  | EmptyString => true
  | String c t => isDigit c && allDigits t
  end.

(** A float that is a number: a zero or a finite value. *)
Definition isNumber (f : spec_float) : bool :=
  match f with
  | S754_zero _ | S754_finite _ _ _ => true
  | S754_infinity _ | S754_nan => false
  end.

(** The number a string of decimal digits denotes. *)
Fixpoint decimalFrom (acc : Z) (s : string) : Z :=
  match s with
  | EmptyString => acc
  | String c t => decimalFrom (10 * acc + (byteVal c - byteVal "0")) t
  end.

Definition decimalValue (s : string) : Z := decimalFrom 0 s.

(** The thousandths that [%.3f] prints for a float that is a number. *)
Definition milli (f : spec_float) : Z :=
  match f with
  | S754_finite _ m e => float64.roundMilli m e
  | _ => 0
  end.

Definition signBit (f : spec_float) : bool :=
  match f with
  | S754_zero s | S754_infinity s | S754_finite s _ _ => s
  | S754_nan => false
  end.

(** Reading an escaped text back.  [hexValue] is the value of a hex
    digit, [hexNumber] of a run of them; [unquote] undoes, from the
    left, the escapes that [appendQuoted] writes. *)
Definition hexValue (c : ascii) : Z :=
  let b := byteVal c in
  if (byteVal "0" <=? b) && (b <=? byteVal "9") then b - byteVal "0"
  else if (byteVal "a" <=? b) && (b <=? byteVal "f") then b - byteVal "a" + 10
  else 0.

Fixpoint hexNumber (acc : Z) (ds : string) : Z :=
  match ds with
  | EmptyString => acc
  | String c t => hexNumber (16 * acc + hexValue c) t
  end.

Definition unescapeLetter (k : ascii) : ascii :=
  if Ascii.eqb k "a" then "007"
  else if Ascii.eqb k "b" then "008"
  else if Ascii.eqb k "f" then "012"
  else if Ascii.eqb k "n" then "010"
  else if Ascii.eqb k "r" then "013"
  else if Ascii.eqb k "t" then "009"
  else if Ascii.eqb k "v" then "011"
  else k.

Fixpoint unquote (out : string) : string :=
  match out with
  | EmptyString => EmptyString
  | String a t =>
    if negb (Ascii.eqb a backslash) then String a (unquote t)
    else
      match t with
      | EmptyString => EmptyString
      | String k u =>
        if Ascii.eqb k "x" then
          match u with
          | String h1 (String h2 rest) =>
            String (toByte (hexNumber 0 (String h1 (str1 h2)))) (unquote rest)
          | _ => EmptyString
          end
        else if Ascii.eqb k "u" then
          match u with
          | String h1 (String h2 (String h3 (String h4 rest))) =>
            utf8.EncodeRune
              (hexNumber 0 (String h1 (String h2 (String h3 (str1 h4)))))
            ++ unquote rest
          | _ => EmptyString
          end
        else if Ascii.eqb k "U" then
          match u with
          | String h1 (String h2 (String h3 (String h4
              (String h5 (String h6 (String h7 (String h8 rest))))))) =>
            utf8.EncodeRune
              (hexNumber 0
                 (String h1 (String h2 (String h3 (String h4
                   (String h5 (String h6 (String h7 (str1 h8)))))))))
            ++ unquote rest
          | _ => EmptyString
          end
        else String (unescapeLetter k) (unquote u)
      end
  end.

(** ** logger.go: the middleware

    [CombinedLogger(out)(next)] and [CommonLogger(out)(next)] as state
    passing.  The sink [out] and everything else outside the logger (the
    clock, the connection, the state of the downstream handler) make up
    the world; a handler takes a request and a world to what it leaves
    behind, or to [None] when it panics. *)

Module clock.

(** A reading of [time.Now]: the wall time that [Format] prints and the
    instant, in nanoseconds, that [Sub] compares. *)
Record Instant : Type := {
  wall : time.Time;
  nanos : Z
}.

Definition minDuration : Z := - 2 ^ 63.
Definition maxDuration : Z := 2 ^ 63 - 1.

(** [t.Sub(u)]: the difference, or the largest or smallest [Duration]
    when the difference does not fit. *)
Definition Sub (t u : Instant) : time.Duration :=
  let d := nanos t - nanos u in
  if maxDuration <? d then maxDuration
  else if d <? minDuration then minDuration
  else d.

End clock.

Section Middleware.

Variable wide : Z -> bool.

(** What lies outside the logger and its sink. *)
Variable Env : Type.

(** [time.Now]. *)
Variable now : Env -> clock.Instant * Env.

Record World : Type := {
  sink : Writer;
  env : Env
}.

(** What a handler leaves behind: the status and the byte count that the
    wrapped response writer [w2] reports, the request (the handler holds
    a pointer to it) and the world. *)
Record Served : Type := {
  Status : Z;
  BytesWritten : Z;
  request : http.Request;
  world : World
}.

Definition Handler : Type := http.Request -> World -> option Served.

(** [CombinedLogger] returns a middleware that logs HTTP requests to the
    sink in combined log format. *)
Definition CombinedLogger (next : Handler) : Handler :=
  fun r w =>
    let (t1, e1) := now (env w) in
    served <- next r {| sink := sink w; env := e1 |} ;;
    let (t2, e2) := now (env (world served)) in
    out <- writeCombinedLog wide (sink (world served)) (request served)
             (clock.wall t1) (Status served) (BytesWritten served)
             (clock.Sub t2 t1) ;;
    Some {| Status := Status served; BytesWritten := BytesWritten served;
            request := request served;
            world := {| sink := out; env := e2 |} |}.

(** [CommonLogger] returns a middleware that logs HTTP requests to the
    sink in common log format. *)
Definition CommonLogger (next : Handler) : Handler :=
  fun r w =>
    let (t1, e1) := now (env w) in
    served <- next r {| sink := sink w; env := e1 |} ;;
    let (t2, e2) := now (env (world served)) in
    out <- writeCommonLog wide (sink (world served)) (request served)
             (clock.wall t1) (Status served) (BytesWritten served)
             (clock.Sub t2 t1) ;;
    Some {| Status := Status served; BytesWritten := BytesWritten served;
            request := request served;
            world := {| sink := out; env := e2 |} |}.

End Middleware.

Arguments sink {Env} _.
Arguments env {Env} _.
Arguments Build_World {Env} _ _.
Arguments Status {Env} _.
Arguments BytesWritten {Env} _.
Arguments request {Env} _.
Arguments world {Env} _.
Arguments Build_Served {Env} _ _ _ _.
Arguments CombinedLogger wide {Env} now next _ _.
Arguments CommonLogger wide {Env} now next _ _.

(** A clock, a handler and a request to run the middleware on: the clock
    counts in its environment and advances by half a millisecond at each
    reading; the handler answers 404 with no body and writes nothing. *)
Definition tickClock (e : Z) : clock.Instant * Z :=
  ({| clock.wall := {| time.unixSec := 0; time.zoneOffset := 0 |};
      clock.nanos := e |}, e + 500000).

Definition notFound : Handler Z :=
  fun r w =>
    Some {| Status := 404; BytesWritten := 0; request := r; world := w |}.

Definition rootRequest : http.Request :=
  {| http.Method := "GET";
     http.URL := {| url.Scheme := EmptyString; url.Opaque := EmptyString;
                    url.User := None; url.escapedPath := "/";
                    url.ForceQuery := false;
                    url.RawQuery := EmptyString |};
     http.Proto := "HTTP/1.1"; http.ProtoMajor := 1;
     http.Header_ := [("Accept", ["*/*"])];
     http.Host := "localhost:3000"; http.RemoteAddr := "10.0.0.7:4711";
     http.RequestURI := "/" |}.

(** ** Further vocabulary: control bytes, valid text, sizes *)

(** The letter that stands for a control byte in the switch of
    [appendQuoted], if it has one. *)
Definition mnemonic (c : ascii) : option ascii :=
  let b := byteVal c in
  if b =? 7 then Some "a"%char
  else if b =? 8 then Some "b"%char
  else if b =? 12 then Some "f"%char
  else if b =? 10 then Some "n"%char
  else if b =? 13 then Some "r"%char
  else if b =? 9 then Some "t"%char
  else if b =? 11 then Some "v"%char
  else None.

(** A byte that is no ASCII control character: not below space and not
    DEL. *)
Definition isGraphic (c : ascii) : bool :=
  (0x20 <=? byteVal c) && negb (byteVal c =? 0x7F).

Fixpoint noControl (s : string) : bool :=
  match s with
  | EmptyString => true
  | String c t => isGraphic c && noControl t
  end.

(** Number of newline bytes. *)
Fixpoint newlines (s : string) : nat :=
  match s with
  | EmptyString => 0%nat
  | String c t => ((if Ascii.eqb c newline then 1 else 0) + newlines t)%nat
  end.

(** [utf8.ValidString]: every rune of [s] decodes without error; [fuel]
    bounds the number of runes. *)
Fixpoint validLoop (fuel : nat) (s : string) : bool :=
  match s with
  | EmptyString => true
  | String _ _ =>
    match fuel with
    | O => false
    | S fuel' =>
      let (r, w) := utf8.DecodeRuneInString s in
      negb ((r =? utf8.RuneError) && (w =? 1))
      && validLoop fuel' (skipn (Z.to_nat w) s)
    end
  end.

Definition ValidString (s : string) : bool :=
  validLoop (String.length s) s.

(** A rune that has an encoding of its own: a code point that is not a
    surrogate. *)
Definition ValidRune (r : Z) : bool :=
  ((0 <=? r) && (r <? utf8.surrogateMin))
  || ((utf8.surrogateMax <? r) && (r <=? utf8.MaxRune)).

(** Reading a decimal integer with an optional minus sign. *)
Definition atoi (s : string) : Z :=
  match s with
  | String c t => if Ascii.eqb c "-" then - decimalValue t else decimalValue s
  | EmptyString => 0
  end.

(** Every byte of [s] is a graphic ASCII byte, from space to tilde. *)
Fixpoint asciiGraphic (s : string) : bool :=
  match s with
  | EmptyString => true
  | String c t =>
    (0x20 <=? byteVal c) && (byteVal c <=? 0x7E) && asciiGraphic t
  end.

(** [s] holds the byte [c]. *)
Fixpoint hasByte (c : ascii) (s : string) : bool :=
  match s with
  | EmptyString => false
  | String a t => Ascii.eqb a c || hasByte c t
  end.


(** [f] holds at each of the [n] integers from [i] on. *)
Fixpoint holdsFrom (f : Z -> bool) (i : Z) (n : nat) : bool :=
  match n with
  | O => true
  | S n' => f i && holdsFrom f (i + 1) n'
  end.

(** A field of exactly [n] decimal digits. *)
Definition digitField (n : nat) (s : string) : bool :=
  Nat.eqb (String.length s) n && allDigits s.

(** The text [time.appendInt] adds for [x] at the given width. *)
Definition padded (width : nat) (x : Z) : string :=
  itoa.appendInt EmptyString x width.

(** What holds of the date of day [doe] of a 400-year era that starts on
    1 March: a month from 1 to 12 with a three-letter name, a day from 1
    to 31, and a year of the era from 0 to 400, where 400 is reached in
    the last sixty days, the January and February that end the era. *)
Definition civilOk (doe : Z) : bool :=
  let '(y, m, d) := time.civil (doe - 719468) in
  (1 <=? m) && (m <=? 12) && (1 <=? d) && (d <=? 31)
  && (0 <=? y) && (y <=? 400) && Bool.eqb (y =? 400) (146037 <=? doe)
  && Nat.eqb (String.length
                (nth (Z.to_nat (m - 1)) time.shortMonthNames EmptyString)) 3.
(** * Properties *)

(** ** The library models on known values *)

Example decode_two_bytes :
  utf8.DecodeRuneInString (String "195" (String "169" "x")) = (0xE9, 2).
Proof. reflexivity. Qed.

Example decode_four_bytes :
  utf8.DecodeRuneInString
    (String "240" (String "159" (String "152" (String "128" EmptyString))))
  = (0x1F600, 4).
Proof. reflexivity. Qed.

Example decode_surrogate :
  utf8.DecodeRuneInString (String "237" (String "160" (String "128" "x")))
  = (utf8.RuneError, 1).
Proof. reflexivity. Qed.

Example decode_overlong :
  utf8.DecodeRuneInString (String "192" (String "175" EmptyString))
  = (utf8.RuneError, 1).
Proof. reflexivity. Qed.

Example decode_above_max :
  utf8.DecodeRuneInString
    (String "244" (String "144" (String "128" (String "128" EmptyString))))
  = (utf8.RuneError, 1).
Proof. reflexivity. Qed.

Example encode_replacement :
  utf8.EncodeRune 0xD800
  = String "239" (String "191" (String "189" EmptyString)).
Proof. reflexivity. Qed.

Example split_bracketed : net.SplitHostPort "[::1]:54321" = Ok ("::1", "54321").
Proof. reflexivity. Qed.

Example split_plain : net.SplitHostPort "10.0.0.7:80" = Ok ("10.0.0.7", "80").
Proof. reflexivity. Qed.

Example split_no_port :
  net.SplitHostPort "10.0.0.7" = Err net.missingPort.
Proof. reflexivity. Qed.

Example split_bare_ipv6 : net.SplitHostPort "::1" = Err net.tooManyColons.
Proof. reflexivity. Qed.

Example format_leap_day :
  time.FormatCLF {| time.unixSec := 951782400; time.zoneOffset := 0 |}
  = "29/Feb/2000:00:00:00 +0000".
Proof. reflexivity. Qed.

Example format_west_of_utc :
  time.FormatCLF {| time.unixSec := 0; time.zoneOffset := -12600 |}
  = "31/Dec/1969:20:30:00 -0330".
Proof. reflexivity. Qed.

Example itoa_values :
  (itoa.Itoa 0, itoa.Itoa 200, itoa.Itoa (-13)) = ("0", "200", "-13").
Proof. reflexivity. Qed.

Example format3_tie_to_even :
  prettyDuration 62500 = "0.062ms" /\ prettyDuration 187500 = "0.188ms".
Proof. split; vm_compute; reflexivity. Qed.

Example format3_negative : prettyDuration (-1) = "-0.000ms".
Proof. vm_compute; reflexivity. Qed.

Example quote_mixed :
  appendQuoted latin1Only ">"
    (String dquote (String "009" (String "001" (String "255" "\ok"))))
  = Some (">" ++ String backslash (String dquote EmptyString)
              ++ String backslash "t" ++ String backslash "x01"
              ++ String backslash "xff" ++ String backslash "\ok").
Proof. vm_compute; reflexivity. Qed.

(** ** Bytes, strings and bit operations *)

Lemma byteVal_range (c : ascii) : 0 <= byteVal c < 256.
Proof.
  unfold byteVal. pose proof (N_ascii_bounded c). lia.
Qed.

Lemma toByte_byteVal (c : ascii) : toByte (byteVal c) = c.
Proof.
  unfold toByte. pose proof (byteVal_range c).
  rewrite Z.mod_small by lia. unfold byteVal.
  rewrite N2Z.id. apply ascii_N_embedding.
Qed.

Lemma byteVal_toByte (z : Z) : byteVal (toByte z) = z mod 256.
Proof.
  unfold byteVal, toByte.
  pose proof (Z.mod_pos_bound z 256 ltac:(lia)).
  rewrite N_ascii_embedding by lia. lia.
Qed.

Lemma byteVal_inj (a b : ascii) : byteVal a = byteVal b -> a = b.
Proof.
  intros H. rewrite <- (toByte_byteVal a), <- (toByte_byteVal b).
  now rewrite H.
Qed.

Lemma append_assoc (a b c : string) : (a ++ b) ++ c = a ++ (b ++ c).
Proof.
  induction a as [|x a IH]; simpl; [reflexivity | now rewrite IH].
Qed.

Lemma append_nil_r (a : string) : a ++ EmptyString = a.
Proof.
  induction a as [|x a IH]; simpl; [reflexivity | now rewrite IH].
Qed.

Lemma length_append (a b : string) :
  String.length (a ++ b) = (String.length a + String.length b)%nat.
Proof.
  induction a as [|x a IH]; simpl; [reflexivity | now rewrite IH].
Qed.

Lemma append_inv_head (a b c : string) : a ++ b = a ++ c -> b = c.
Proof.
  induction a as [|x a IH]; simpl; intros H; [exact H|].
  injection H as H. auto.
Qed.

Lemma land_mask (b k : Z) : 0 <= k -> Z.land b (2 ^ k - 1) = b mod 2 ^ k.
Proof.
  intros Hk. rewrite <- Z.land_ones by assumption.
  now rewrite Z.ones_equiv, Z.sub_1_r.
Qed.

Lemma lor_add (a b k : Z) :
  0 <= k -> 0 <= b < 2 ^ k -> Z.lor (a * 2 ^ k) b = a * 2 ^ k + b.
Proof.
  intros Hk Hb.
  assert (D : Z.land (a * 2 ^ k) b = 0).
  { apply Z.bits_inj'. intros n Hn.
    rewrite Z.land_spec, Z.bits_0.
    destruct (Z.lt_ge_cases n k) as [L|G].
    - rewrite Z.mul_pow2_bits_low by assumption. reflexivity.
    - rewrite <- (Z.mod_small b (2 ^ k)) by assumption.
      rewrite Z.mod_pow2_bits_high by lia. apply andb_false_r. }
  rewrite <- (Z.lxor_lor _ _ D). symmetry. now apply Z.add_nocarry_lxor.
Qed.

Lemma first_cases (b : Z) :
  0 <= b < 256 ->
  (b < 0x80 /\ utf8.first b = utf8.as_) \/
  ((0x80 <= b < 0xC2 \/ 0xF5 <= b) /\ utf8.first b = utf8.xx) \/
  (0xC2 <= b <= 0xDF /\ utf8.first b = utf8.s1) \/
  (b = 0xE0 /\ utf8.first b = utf8.s2) \/
  ((0xE1 <= b <= 0xEC \/ 0xEE <= b <= 0xEF) /\ utf8.first b = utf8.s3) \/
  (b = 0xED /\ utf8.first b = utf8.s4) \/
  (b = 0xF0 /\ utf8.first b = utf8.s5) \/
  (0xF1 <= b <= 0xF3 /\ utf8.first b = utf8.s6) \/
  (b = 0xF4 /\ utf8.first b = utf8.s7).
Proof.
  intros Hb. unfold utf8.first.
  repeat match goal with
  | |- context [if ?c then _ else _] => destruct c eqn:?
  end; lia.
Qed.

Lemma len_cons (c : ascii) (t : string) : len (String c t) = 1 + len t.
Proof. unfold len. simpl String.length. lia. Qed.

Lemma len_nonneg (s : string) : 0 <= len s.
Proof. unfold len. lia. Qed.

Lemma lor_disjoint (h b k : Z) :
  0 <= k -> h mod 2 ^ k = 0 -> 0 <= b < 2 ^ k -> Z.lor h b = h + b.
Proof.
  intros Hk Hh Hb.
  assert (P : 0 < 2 ^ k) by (apply Z.pow_pos_nonneg; lia).
  rewrite (Z.div_mod h (2 ^ k)) by lia.
  rewrite Hh, Z.add_0_r, (Z.mul_comm (2 ^ k)).
  now apply lor_add.
Qed.

(** Evaluate what [DecodeRuneInString] derives from the table entry [x]. *)
Ltac eval_entry x :=
  let a := eval vm_compute in (utf8.as_ <=? x) in
  change (utf8.as_ <=? x) with a;
  let s := eval vm_compute in (Z.land x 7) in
  change (Z.land x 7) with s;
  let r := eval vm_compute in (utf8.acceptRanges (Z.shiftr x 4)) in
  change (utf8.acceptRanges (Z.shiftr x 4)) with r;
  let m := eval vm_compute in (Z.shiftr (int32 (Z.shiftl x 31)) 31) in
  change (Z.shiftr (int32 (Z.shiftl x 31)) 31) with m;
  try change (2 <=? 2) with true;
  try change (3 <=? 2) with false;
  try change (3 <=? 3) with true;
  try change (4 <=? 2) with false;
  try change (4 <=? 3) with false;
  cbv iota; cbn [fst snd].

Ltac norm_pow :=
  change (2 ^ 3) with 8 in *; change (2 ^ 4) with 16 in *;
  change (2 ^ 5) with 32 in *; change (2 ^ 6) with 64 in *;
  change (2 ^ 12) with 4096 in *; change (2 ^ 18) with 262144 in *.

Ltac zlia := norm_pow; Z.to_euclidean_division_equations; lia.

Ltac dec_error := cbn [fst snd]; apply DecError; lia.

(** Turn the bit operations of a decoded value into arithmetic. *)
Ltac bits_to_arith :=
  change utf8.maskx with (2 ^ 6 - 1);
  change utf8.mask2 with (2 ^ 5 - 1);
  change utf8.mask3 with (2 ^ 4 - 1);
  change utf8.mask4 with (2 ^ 3 - 1);
  rewrite ?land_mask by lia;
  rewrite ?Z.shiftl_mul_pow2 by lia;
  rewrite ?Z.shiftr_div_pow2 by lia.

Ltac split_if :=
  match goal with
  | |- context [if ?b then _ else _] =>
    let E := fresh "E" in
    destruct b eqn:E;
    [ try apply orb_true_iff in E
    | try (apply orb_false_iff in E; destruct E) ]
  end.

Ltac three_bytes c t :=
  split_if; [dec_error|];
  destruct t as [|?c1 [|?c2 ?t2]]; try dec_error;
  [ split_if; dec_error | ];
  match goal with
  | |- context [String c (String ?c1 (String ?c2 _))] =>
    pose proof (byteVal_range c1); pose proof (byteVal_range c2);
    split_if; [dec_error|];
    unfold utf8.locb, utf8.hicb;
    split_if; [dec_error|];
    cbn [fst snd];
    replace (Z.lor _ _)
      with ((byteVal c - 0xE0) * 2 ^ 12 + (byteVal c1 - 0x80) * 2 ^ 6
            + (byteVal c2 - 0x80));
    [ apply Dec3; lia
    | bits_to_arith;
      rewrite (lor_disjoint _ (byteVal c1 mod 2 ^ 6 * 2 ^ 6) 12) by (zlia);
      rewrite lor_disjoint with (k := 6); zlia ]
  end.

Ltac four_bytes c t :=
  split_if; [dec_error|];
  destruct t as [|?c1 [|?c2 [|?c3 ?t3]]]; try dec_error;
  [ split_if; dec_error
  | split_if; [dec_error|]; unfold utf8.locb, utf8.hicb; split_if; dec_error
  | ];
  match goal with
  | |- context [String c (String ?c1 (String ?c2 (String ?c3 _)))] =>
    pose proof (byteVal_range c1); pose proof (byteVal_range c2);
    pose proof (byteVal_range c3);
    split_if; [dec_error|];
    unfold utf8.locb, utf8.hicb;
    split_if; [dec_error|];
    split_if; [dec_error|];
    cbn [fst snd];
    replace (Z.lor _ _)
      with ((byteVal c - 0xF0) * 2 ^ 18 + (byteVal c1 - 0x80) * 2 ^ 12
            + (byteVal c2 - 0x80) * 2 ^ 6 + (byteVal c3 - 0x80));
    [ apply Dec4; lia
    | bits_to_arith;
      rewrite (lor_disjoint _ (byteVal c1 mod 2 ^ 6 * 2 ^ 12) 18) by (zlia);
      rewrite (lor_disjoint _ (byteVal c2 mod 2 ^ 6 * 2 ^ 6) 12) by (zlia);
      rewrite lor_disjoint with (k := 6); zlia ]
  end.

Lemma DecodeRuneInString_Decoded (c : ascii) (t : string) :
  Decoded (String c t)
    (fst (utf8.DecodeRuneInString (String c t)))
    (snd (utf8.DecodeRuneInString (String c t))).
Proof.
  pose proof (byteVal_range c) as Hc.
  unfold utf8.DecodeRuneInString. cbv zeta.
  destruct (first_cases _ Hc) as
    [[R E]|[[R E]|[[R E]|[[R E]|[[R E]|[[R E]|[[R E]|[[R E]|[R E]]]]]]]]];
    rewrite E; clear E;
    match goal with |- context [utf8.as_ <=? ?x] => eval_entry x end.
  - change (Z.lnot 0) with (-1).
    rewrite Z.land_m1_r, Z.land_0_r, Z.lor_0_r. apply DecSelf. lia.
  - change (Z.lnot (-1)) with 0.
    rewrite Z.land_m1_r, Z.land_0_r, Z.lor_0_l. apply DecError. lia.
  - (* two bytes *)
    split_if; [dec_error|].
    destruct t as [|c1 t1]; [dec_error|].
    pose proof (byteVal_range c1).
    split_if; [dec_error|].
    cbn [fst snd].
    replace (Z.lor _ _)
      with ((byteVal c - 0xC0) * 2 ^ 6 + (byteVal c1 - 0x80)).
    + apply Dec2; lia.
    + bits_to_arith.
      rewrite lor_disjoint with (k := 6); zlia.
  - three_bytes c t.
  - three_bytes c t.
  - three_bytes c t.
  - four_bytes c t.
  - four_bytes c t.
  - four_bytes c t.
Qed.

Lemma toByte_eq (z : Z) (c : ascii) : z = byteVal c -> toByte z = c.
Proof. intros ->. apply toByte_byteVal. Qed.

Lemma Decoded_rune_range (s : string) (r w : Z) :
  Decoded s r w -> 0 <= r <= utf8.MaxRune.
Proof.
  unfold utf8.MaxRune.
  destruct 1; unfold utf8.RuneError;
    repeat match goal with
    | |- context [byteVal ?c] =>
      lazymatch goal with
      | _ : 0 <= byteVal c < 256 |- _ => fail
      | _ => pose proof (byteVal_range c)
      end
    end; lia.
Qed.

Lemma Decoded_width (s : string) (r w : Z) :
  Decoded s r w -> 1 <= w <= 4 /\ w <= len s.
Proof.
  destruct 1; rewrite ?len_cons;
    match goal with |- context [len ?t] => pose proof (len_nonneg t) end;
    lia.
Qed.

(** Resolve the tests of [EncodeRune] on a rune given in arithmetic form. *)
Ltac encode_tests :=
  unfold utf8.rune1Max, utf8.rune2Max, utf8.rune3Max, utf8.MaxRune,
    utf8.surrogateMin, utf8.surrogateMax;
  repeat match goal with
  | |- context [if ?b then _ else _] =>
    let E := fresh "E" in
    destruct b eqn:E;
    [ try (apply orb_true_iff in E; rewrite andb_true_iff in E)
    | try (apply orb_false_iff in E; rewrite andb_false_iff in E) ];
    try (exfalso; lia)
  end.

Ltac norm_skip :=
  change (Z.to_nat 1) with 1%nat; change (Z.to_nat 2) with 2%nat;
  change (Z.to_nat 3) with 3%nat; change (Z.to_nat 4) with 4%nat;
  cbn [append skipn].

Ltac encoded_byte n :=
  symmetry;
  apply toByte_eq; rewrite ?byteVal_toByte;
  unfold utf8.t2, utf8.t3, utf8.t4, utf8.tx;
  bits_to_arith; rewrite (lor_disjoint _ _ n); zlia.

(** Encoding the rune read from a well-formed sequence gives back the
    bytes it was read from. *)
Lemma EncodeRune_Decoded (s : string) (r w : Z) :
  Decoded s r w ->
  (w = 1 -> r <> utf8.RuneError) ->
  s = utf8.EncodeRune r ++ skipn (Z.to_nat w) s /\
  len (utf8.EncodeRune r) = w.
Proof.
  intros D NE. pose proof (Decoded_rune_range _ _ _ D) as Hr.
  unfold utf8.MaxRune in Hr.
  unfold utf8.EncodeRune. cbv zeta.
  rewrite (Z.mod_small r) by lia.
  destruct D.
  - encode_tests. unfold str1. norm_skip.
    rewrite toByte_byteVal. auto.
  - exfalso. now apply NE.
  - pose proof (byteVal_range c0). pose proof (byteVal_range c1).
    encode_tests. split; [|reflexivity].
    norm_skip.
    f_equal; [|f_equal]; [encoded_byte 5 | encoded_byte 6].
  - pose proof (byteVal_range c0). pose proof (byteVal_range c1).
    pose proof (byteVal_range c2).
    encode_tests. unfold utf8.encode3. split; [|reflexivity].
    norm_skip.
    f_equal; [|f_equal; [|f_equal]];
      [encoded_byte 4 | encoded_byte 6 | encoded_byte 6].
  - pose proof (byteVal_range c0). pose proof (byteVal_range c1).
    pose proof (byteVal_range c2). pose proof (byteVal_range c3).
    encode_tests. split; [|reflexivity].
    norm_skip.
    f_equal; [|f_equal; [|f_equal; [|f_equal]]];
      [encoded_byte 3 | encoded_byte 6 | encoded_byte 6 | encoded_byte 6].
Qed.

(** ** The scanning loop *)

Lemma length_skipn (n : nat) (s : string) :
  String.length (skipn n s) = (String.length s - n)%nat.
Proof.
  revert s. induction n as [|n IH]; intros [|c t]; simpl;
    auto using Nat.sub_0_r.
Qed.

Lemma scanRune_Decoded (c : ascii) (t : string) :
  Decoded (String c t)
    (fst (scanRune (String c t) c)) (snd (scanRune (String c t) c)).
Proof.
  unfold scanRune. destruct (utf8.RuneSelf <=? byteVal c) eqn:E.
  - apply DecodeRuneInString_Decoded.
  - apply DecSelf. unfold utf8.RuneSelf in E. lia.
Qed.

Lemma sliceFrom_Decoded (s : string) (r w : Z) :
  Decoded s r w -> sliceFrom w s = Some (skipn (Z.to_nat w) s).
Proof.
  intros D. destruct (Decoded_width _ _ _ D) as [W L].
  unfold sliceFrom.
  replace ((0 <=? w) && (w <=? len s)) with true; [reflexivity|].
  symmetry. apply andb_true_iff. lia.
Qed.

Section LoopFacts.

Variable wide : Z -> bool.

Lemma appendQuotedLoop_step (fuel : nat) (buf : string) (c : ascii)
    (t : string) :
  appendQuotedLoop wide (S fuel) buf (String c t) =
  appendQuotedLoop wide fuel
    (appendRune wide buf (fst (scanRune (String c t) c))
       (snd (scanRune (String c t) c)) c)
    (skipn (Z.to_nat (snd (scanRune (String c t) c))) (String c t)).
Proof.
  pose proof (scanRune_Decoded c t) as D.
  cbn [appendQuotedLoop].
  destruct (scanRune (String c t) c) as [r w]. cbn [fst snd] in *.
  now rewrite (sliceFrom_Decoded _ _ _ D).
Qed.

(** Within a budget of one iteration per byte the loop reaches the end
    of the string. *)
Lemma appendQuotedLoop_total (fuel : nat) :
  forall buf s, (String.length s <= fuel)%nat ->
  exists out, appendQuotedLoop wide fuel buf s = Some out.
Proof.
  induction fuel as [|fuel IH]; intros buf [|c t] L.
  - now exists buf.
  - simpl in L. lia.
  - now exists buf.
  - rewrite appendQuotedLoop_step. apply IH.
    pose proof (scanRune_Decoded c t) as D.
    apply Decoded_width in D. rewrite length_skipn.
    simpl String.length in *. lia.
Qed.

Lemma appendQuotedLoop_more (fuel : nat) :
  forall fuel' buf s out, (fuel <= fuel')%nat ->
  appendQuotedLoop wide fuel buf s = Some out ->
  appendQuotedLoop wide fuel' buf s = Some out.
Proof.
  induction fuel as [|fuel IH]; intros fuel' buf [|c t] out L H.
  - destruct fuel'; exact H.
  - discriminate H.
  - destruct fuel'; exact H.
  - destruct fuel' as [|fuel']; [lia|].
    rewrite appendQuotedLoop_step in *. apply IH; [lia | exact H].
Qed.

Lemma appendQuoted_nil (buf : string) :
  appendQuoted wide buf EmptyString = Some buf.
Proof. reflexivity. Qed.

(** One turn of the loop, at the level of [appendQuoted]. *)
Lemma appendQuoted_cons (buf : string) (c : ascii) (t : string) :
  appendQuoted wide buf (String c t) =
  appendQuoted wide
    (appendRune wide buf (fst (scanRune (String c t) c))
       (snd (scanRune (String c t) c)) c)
    (skipn (Z.to_nat (snd (scanRune (String c t) c))) (String c t)).
Proof.
  unfold appendQuoted at 1. cbn [String.length].
  rewrite appendQuotedLoop_step.
  set (buf' := appendRune _ _ _ _ _). set (s' := skipn _ _).
  destruct (appendQuotedLoop_total (String.length s') buf' s' (le_n _))
    as [out H].
  unfold appendQuoted. rewrite H.
  apply appendQuotedLoop_more with (fuel := String.length s'); [|exact H].
  subst s'. rewrite length_skipn.
  pose proof (scanRune_Decoded c t) as D. apply Decoded_width in D.
  simpl String.length. lia.
Qed.

Lemma appendQuoted_total (buf s : string) :
  exists out, appendQuoted wide buf s = Some out.
Proof. apply appendQuotedLoop_total. apply le_n. Qed.

End LoopFacts.

Lemma DecodeRuneInString_self (c : ascii) (t : string) :
  byteVal c < 0x80 ->
  utf8.DecodeRuneInString (String c t) = (byteVal c, 1).
Proof.
  intros L. pose proof (byteVal_range c) as Hc.
  unfold utf8.DecodeRuneInString. cbv zeta.
  destruct (first_cases _ Hc) as [[R E]|O].
  - rewrite E. eval_entry utf8.as_. change (Z.lnot 0) with (-1).
    now rewrite Z.land_m1_r, Z.land_0_r, Z.lor_0_r.
  - exfalso. intuition lia.
Qed.

Lemma scanRune_eq (c : ascii) (t : string) :
  scanRune (String c t) c = utf8.DecodeRuneInString (String c t).
Proof.
  unfold scanRune. destruct (utf8.RuneSelf <=? byteVal c) eqn:E; [reflexivity|].
  symmetry. apply DecodeRuneInString_self. unfold utf8.RuneSelf in E. lia.
Qed.

(** Induction along the scan: from the rest after one rune to the whole. *)
Lemma scan_ind (P : string -> Prop) :
  P EmptyString ->
  (forall c t,
     P (skipn (Z.to_nat (snd (scanRune (String c t) c))) (String c t)) ->
     P (String c t)) ->
  forall s, P s.
Proof.
  intros P0 PS s.
  remember (String.length s) as n eqn:L.
  revert s L. induction n as [n IH] using lt_wf_ind. intros [|c t] L.
  - exact P0.
  - apply PS. eapply IH; [|reflexivity].
    rewrite length_skipn.
    pose proof (scanRune_Decoded c t) as D. apply Decoded_width in D.
    subst n. simpl String.length. lia.
Qed.

(** ** What one turn appends *)

Ltac norm_first :=
  change (Z.to_nat 1) with 1%nat; change (Z.to_nat 2) with 2%nat;
  change (Z.to_nat 3) with 3%nat; change (Z.to_nat 4) with 4%nat;
  cbn [firstn plainBytes].

Lemma appendHex_app (r : Z) (shifts : list Z) :
  forall buf, appendHex buf r shifts = buf ++ appendHex EmptyString r shifts.
Proof.
  induction shifts as [|s l IH]; intros buf; cbn [appendHex].
  - now rewrite append_nil_r.
  - rewrite IH. rewrite (IH (EmptyString ++ _)). now rewrite !append_assoc.
Qed.

Lemma appendRune_app (wide : Z -> bool) (buf : string) (r w : Z) (c : ascii) :
  appendRune wide buf r w c = buf ++ appendRune wide EmptyString r w c.
Proof.
  unfold appendRune. cbv zeta.
  repeat match goal with
  | |- context [if ?b then _ else _] => destruct b
  end;
  rewrite ?(appendHex_app _ _ (buf ++ _)),
    ?(appendHex_app _ _ (EmptyString ++ _));
  rewrite ?append_assoc; reflexivity.
Qed.

Lemma lowerhexAt_plain (i : Z) : isSpecial (lowerhexAt i) = false.
Proof.
  unfold lowerhexAt. generalize (Z.to_nat i). intros n.
  do 17 (destruct n as [|n]; [reflexivity|]). reflexivity.
Qed.

Lemma plainBytes_app (p q : string) :
  plainBytes (p ++ q) = plainBytes p && plainBytes q.
Proof.
  induction p as [|a p IH]; cbn [append plainBytes]; [reflexivity|].
  now rewrite IH, andb_assoc.
Qed.

Lemma plainBytes_appendHex (r : Z) (shifts : list Z) :
  plainBytes (appendHex EmptyString r shifts) = true.
Proof.
  induction shifts as [|s l IH]; cbn [appendHex]; [reflexivity|].
  rewrite appendHex_app, plainBytes_app, IH.
  cbn [append str1 plainBytes]. now rewrite lowerhexAt_plain.
Qed.

Lemma isSpecial_byte (c : ascii) :
  isSpecial c = true <-> byteVal c = 34 \/ byteVal c = 92.
Proof.
  unfold isSpecial. rewrite orb_true_iff, !Ascii.eqb_eq. split.
  - intros [->| ->]; [left | right]; reflexivity.
  - intros [H|H]; [left | right]; apply byteVal_inj; exact H.
Qed.

Lemma isSpecial_high (c : ascii) : 0x80 <= byteVal c -> isSpecial c = false.
Proof.
  intros H. destruct (isSpecial c) eqn:E; [|reflexivity].
  apply isSpecial_byte in E. lia.
Qed.

Lemma firstn_prefix (e s : string) :
  forall rest, s = e ++ rest -> e = firstn (String.length e) s.
Proof.
  revert s. induction e as [|a e IH]; intros s rest ->; cbn; [reflexivity|].
  f_equal. now apply IH with (rest := rest).
Qed.

Lemma EncodeRune_firstn (s : string) (r w : Z) :
  Decoded s r w -> (w = 1 -> r <> utf8.RuneError) ->
  utf8.EncodeRune r = firstn (Z.to_nat w) s.
Proof.
  intros D NE. destruct (EncodeRune_Decoded _ _ _ D NE) as [S L].
  apply firstn_prefix in S. unfold len in L.
  rewrite <- L, Nat2Z.id. exact S.
Qed.

(** The bytes of a well-formed sequence are plain unless the sequence is
    a single special byte. *)
Lemma Decoded_plain (s : string) (r w : Z) :
  Decoded s r w -> r <> 34 -> r <> 92 -> (w = 1 -> r <> utf8.RuneError) ->
  plainBytes (firstn (Z.to_nat w) s) = true.
Proof.
  intros D Q B NE. destruct D; norm_first.
  - destruct (isSpecial c) eqn:E; [|reflexivity].
    apply isSpecial_byte in E. lia.
  - exfalso. now apply NE.
  - rewrite !isSpecial_high by lia. reflexivity.
  - rewrite !isSpecial_high by lia. reflexivity.
  - rewrite !isSpecial_high by lia. reflexivity.
Qed.

Section Chunks.

Variable wide : Z -> bool.

(** A special byte is read as itself and appended after one backslash. *)
Lemma scanRune_special (c : ascii) (t : string) :
  isSpecial c = true ->
  scanRune (String c t) c = (byteVal c, 1) /\
  forall buf, appendRune wide buf (byteVal c) 1 c
              = buf ++ String backslash (str1 c).
Proof.
  intros S. apply isSpecial_byte in S.
  split.
  - unfold scanRune.
    replace (utf8.RuneSelf <=? byteVal c) with false; [reflexivity|].
    unfold utf8.RuneSelf. lia.
  - intros buf. unfold appendRune. cbv zeta.
    replace ((1 =? 1) && (byteVal c =? utf8.RuneError)) with false
      by (unfold utf8.RuneError; lia).
    replace ((byteVal c =? byteVal dquote) || (byteVal c =? byteVal backslash))
      with true by (change (byteVal dquote) with 34;
                    change (byteVal backslash) with 92; lia).
    now rewrite toByte_byteVal.
Qed.

Lemma appendRune_Chunk (c : ascii) (t : string) (r w : Z) :
  Decoded (String c t) r w ->
  Chunk (appendRune wide EmptyString r w c) (if isSpecial c then 1 else 0).
Proof.
  intros D.
  destruct (isSpecial c) eqn:S.
  - (* the special byte itself *)
    pose proof S as S'. apply isSpecial_byte in S'.
    assert (r = byteVal c /\ w = 1) as [-> ->]
      by (inversion D; subst; split; try reflexivity; lia).
    destruct (scanRune_special c t S) as [_ ->].
    cbn [append str1].
    pose proof (ChunkEscape c EmptyString eq_refl) as K.
    now rewrite S in K.
  - assert (NS : r <> 34 /\ r <> 92).
    { inversion D; subst; unfold utf8.RuneError;
        try (destruct (isSpecial c) eqn:S'; [discriminate|]);
        try (split; intros K; assert (isSpecial c = true)
                by (apply isSpecial_byte; lia); congruence);
        lia. }
    unfold appendRune, str1. cbv zeta.
    change (byteVal dquote) with 34. change (byteVal backslash) with 92.
    destruct ((w =? 1) && (r =? utf8.RuneError)) eqn:E1.
    { cbn [append]. apply (ChunkEscape "x").
      cbn [plainBytes]. now rewrite !lowerhexAt_plain. }
    replace ((r =? 34) || (r =? 92)) with false by lia.
    destruct (strconv.IsPrint wide r).
    { cbn [append]. apply ChunkPlain.
      assert (NE : w = 1 -> r <> utf8.RuneError)
        by (apply andb_false_iff in E1; lia).
      rewrite (EncodeRune_firstn _ _ _ D NE).
      apply (Decoded_plain _ _ _ D); tauto. }
    repeat match goal with
    | |- context [if ?b then _ else _] => destruct b
    end; cbn [append];
    try (rewrite appendHex_app; cbn [append]);
    match goal with
    | |- Chunk (String backslash (String ?b _)) _ => apply (ChunkEscape b)
    end;
    cbn [plainBytes]; rewrite ?lowerhexAt_plain, ?plainBytes_appendHex;
    reflexivity.
Qed.

Lemma appendQuoted_app (s : string) :
  forall b1 out, appendQuoted wide b1 s = Some out ->
  forall b0, appendQuoted wide (b0 ++ b1) s = Some (b0 ++ out).
Proof.
  induction s as [|c t IH] using scan_ind; intros b1 out H b0.
  - rewrite appendQuoted_nil in *. congruence.
  - rewrite appendQuoted_cons in *.
    rewrite appendRune_app, append_assoc, <- appendRune_app.
    now apply IH.
Qed.

Lemma appendQuoted_quoted (buf s : string) :
  appendQuoted wide buf s = Some (buf ++ quoted wide s).
Proof.
  unfold quoted.
  destruct (appendQuoted_total wide EmptyString s) as [out H]. rewrite H.
  rewrite <- (append_nil_r buf) at 1. now apply appendQuoted_app.
Qed.

Lemma quoted_nil : quoted wide EmptyString = EmptyString.
Proof. reflexivity. Qed.

Lemma quoted_cons (c : ascii) (t : string) :
  quoted wide (String c t) =
  appendRune wide EmptyString (fst (scanRune (String c t) c))
    (snd (scanRune (String c t) c)) c
  ++ quoted wide
       (skipn (Z.to_nat (snd (scanRune (String c t) c))) (String c t)).
Proof.
  unfold quoted at 1. rewrite appendQuoted_cons, appendQuoted_quoted.
  reflexivity.
Qed.

End Chunks.

(** ** Termination of the scan *)

(** C10: the escaping primitive is total.  Each turn of the loop reads a
    width of at least one byte and at most the bytes that remain, the
    slice [s[width:]] is in range and shorter by that width, and a budget
    of one iteration per byte of the string is enough for the loop to end
    with a result: a larger budget gives the same result. *)
Theorem appendQuoted_terminates (wide : Z -> bool) (fuel : nat)
    (buf s : string) :
  (String.length s <= fuel)%nat ->
  match s with
  | EmptyString => True
  | String c _ =>
    let w := snd (scanRune s c) in
    1 <= w <= len s /\
    exists s', sliceFrom w s = Some s' /\ len s' = len s - w
  end /\
  (exists out, appendQuoted wide buf s = Some out) /\
  appendQuotedLoop wide fuel buf s = appendQuoted wide buf s.
Proof.
  intros L. split; [|split].
  - destruct s as [|c t]; [exact I|]. cbv zeta.
    pose proof (scanRune_Decoded c t) as D.
    pose proof (Decoded_width _ _ _ D) as [W B].
    split; [lia|].
    exists (skipn (Z.to_nat (snd (scanRune (String c t) c))) (String c t)).
    split;
      [now apply sliceFrom_Decoded with (r := fst (scanRune (String c t) c))|].
    unfold len in *. rewrite length_skipn. lia.
  - apply appendQuoted_total.
  - destruct (appendQuoted_total wide buf s) as [out H]. rewrite H.
    now apply appendQuotedLoop_more with (fuel := String.length s).
Qed.

Lemma appendQuoted_terminates_witness :
  (String.length "a/b" <= 5)%nat /\
  appendQuotedLoop latin1Only 5 ">" "a/b" = appendQuoted latin1Only ">" "a/b".
Proof.
  split; [simpl; lia|].
  apply (appendQuoted_terminates latin1Only 5 ">" "a/b"). simpl; lia.
Defined.

(** ** Plain printable text passes unchanged *)

Lemma quoted_plain_text (wide : Z -> bool) (fuel : nat) :
  forall s, plainPrintableLoop wide fuel s = true -> quoted wide s = s.
Proof.
  induction fuel as [|fuel IH]; intros [|c t] H; try reflexivity;
    try discriminate H.
  cbn [plainPrintableLoop] in H.
  rewrite quoted_cons. rewrite scanRune_eq.
  pose proof (DecodeRuneInString_Decoded c t) as D.
  destruct (utf8.DecodeRuneInString (String c t)) as [r w].
  cbn [fst snd] in *.
  rewrite !andb_true_iff, !negb_true_iff in H.
  destruct H as [[[[E P] Q] B] R].
  rewrite (IH _ R).
  unfold appendRune. cbv zeta.
  rewrite andb_comm, E.
  replace ((r =? byteVal dquote) || (r =? byteVal backslash)) with false
    by (symmetry; apply orb_false_iff; now split).
  rewrite P. cbn [append].
  apply andb_false_iff in E.
  symmetry. apply (EncodeRune_Decoded _ _ _ D). lia.
Qed.

(** C4: a string that is valid UTF-8 and whose runes are all printable
    and are neither a double quote nor a backslash is appended to the
    buffer unchanged. *)
Theorem appendQuoted_plainPrintable (wide : Z -> bool) (buf s : string) :
  plainPrintable wide s = true ->
  appendQuoted wide buf s = Some (buf ++ s).
Proof.
  intros H. rewrite appendQuoted_quoted.
  now rewrite (quoted_plain_text wide _ s H).
Qed.

Lemma appendQuoted_plainPrintable_witness :
  plainPrintable latin1Only
    ("caf" ++ String "195" (String "169" " curl/7.51.0")) = true /\
  appendQuoted latin1Only ">"
    ("caf" ++ String "195" (String "169" " curl/7.51.0"))
  = Some (">" ++ "caf" ++ String "195" (String "169" " curl/7.51.0")).
Proof.
  split; [vm_compute; reflexivity|].
  apply (appendQuoted_plainPrintable latin1Only ">"
           ("caf" ++ String "195" (String "169" " curl/7.51.0"))).
  vm_compute; reflexivity.
Defined.

(** ** Quotes in the output *)

Lemma plainBytes_get (p : string) :
  plainBytes p = true ->
  forall i a, String.get i p = Some a -> isSpecial a = false.
Proof.
  induction p as [|x p IH]; intros H i a G; [discriminate G|].
  cbn [plainBytes] in H. apply andb_true_iff in H. destruct H as [X P].
  destruct i as [|i]; cbn [String.get] in G.
  - injection G as <-. now apply negb_true_iff.
  - now apply IH with (i := i).
Qed.

Lemma quotesGuarded_Chunk (x : string) (n : nat) :
  Chunk x n -> quotesGuarded x.
Proof.
  intros [p P | b p P] i G.
  - apply (plainBytes_get _ P) in G. discriminate G.
  - destruct i as [|[|i]]; cbn [String.get] in G.
    + discriminate G.
    + exists 0%nat. split; reflexivity.
    + apply (plainBytes_get _ P) in G. discriminate G.
Qed.

Lemma get_Some_lt (s : string) :
  forall i a, String.get i s = Some a -> (i < String.length s)%nat.
Proof.
  induction s as [|x s IH]; intros i a G; [discriminate G|].
  destruct i as [|i]; cbn [String.get String.length] in *; [lia|].
  apply IH in G. lia.
Qed.

Lemma quotesGuarded_app (x y : string) :
  quotesGuarded x -> quotesGuarded y -> quotesGuarded (x ++ y).
Proof.
  intros Gx Gy i G.
  destruct (Nat.lt_ge_cases i (String.length x)) as [L|L].
  - rewrite <- append_correct1 in G by exact L.
    destruct (Gx i G) as [j [-> B]]. exists j. split; [reflexivity|].
    rewrite <- append_correct1 by lia. exact B.
  - replace i with ((i - String.length x) + String.length x)%nat in G by lia.
    rewrite <- append_correct2 in G.
    destruct (Gy _ G) as [j [E B]]. exists (j + String.length x)%nat.
    split; [lia|]. now rewrite <- append_correct2.
Qed.

Lemma quotesGuarded_quoted (wide : Z -> bool) (s : string) :
  quotesGuarded (quoted wide s).
Proof.
  induction s as [|c t IH] using scan_ind.
  - intros i G. discriminate G.
  - rewrite quoted_cons. apply quotesGuarded_app; [|exact IH].
    eapply quotesGuarded_Chunk, appendRune_Chunk, scanRune_Decoded.
Qed.

Lemma isSpecial_backslash (a : ascii) :
  isSpecial a = false -> Ascii.eqb a backslash = false.
Proof.
  unfold isSpecial. intros H. now apply orb_false_iff in H.
Qed.

Lemma isSpecial_dquote (a : ascii) :
  isSpecial a = false -> Ascii.eqb a dquote = false.
Proof.
  unfold isSpecial. intros H. now apply orb_false_iff in H.
Qed.

Lemma bareQuotes_plain (p rest : string) :
  plainBytes p = true -> bareQuotes (p ++ rest) = bareQuotes rest.
Proof.
  induction p as [|a p IH]; intros H; [reflexivity|].
  cbn [plainBytes] in H. apply andb_true_iff in H. destruct H as [A P].
  apply negb_true_iff in A.
  cbn [append bareQuotes].
  rewrite (isSpecial_backslash _ A), (isSpecial_dquote _ A).
  now apply IH.
Qed.

Lemma bareQuotes_Chunk (x rest : string) (n : nat) :
  Chunk x n -> bareQuotes (x ++ rest) = bareQuotes rest.
Proof.
  intros [p P | b p P].
  - now apply bareQuotes_plain.
  - cbn [append bareQuotes].
    change (Ascii.eqb backslash backslash) with true. cbv iota.
    now apply bareQuotes_plain.
Qed.

Lemma bareQuotes_quoted (wide : Z -> bool) (s : string) :
  bareQuotes (quoted wide s) = 0%nat.
Proof.
  induction s as [|c t IH] using scan_ind; [reflexivity|].
  pose proof (scanRune_Decoded c t) as D.
  rewrite quoted_cons.
  now rewrite (bareQuotes_Chunk _ _ _ (appendRune_Chunk wide c t _ _ D)).
Qed.

(** C9: whatever the input and the buffer, each double quote among the
    bytes that are appended stands right after a backslash, and reading
    the appended bytes from the left, a backslash taking the byte after
    it, leaves no double quote outside an escape. *)
Theorem appendQuoted_quotes_guarded (wide : Z -> bool) (buf s : string) :
  exists out,
    appendQuoted wide buf s = Some (buf ++ out) /\
    quotesGuarded out /\ bareQuotes out = 0%nat.
Proof.
  exists (quoted wide s). split; [|split].
  - apply appendQuoted_quoted.
  - apply quotesGuarded_quoted.
  - apply bareQuotes_quoted.
Qed.

(** ** Counting the escaped specials *)


Lemma escapedPairs_plain (p rest : string) :
  plainBytes p = true -> escapedPairs (p ++ rest) = escapedPairs rest.
Proof.
  induction p as [|a p IH]; intros H; [reflexivity|].
  cbn [plainBytes] in H. apply andb_true_iff in H. destruct H as [A P].
  apply negb_true_iff in A.
  cbn [append escapedPairs]. rewrite (isSpecial_backslash _ A). now apply IH.
Qed.

Lemma escapedPairs_Chunk (x rest : string) (n : nat) :
  Chunk x n -> escapedPairs (x ++ rest) = (n + escapedPairs rest)%nat.
Proof.
  intros [p P | b p P].
  - now apply escapedPairs_plain.
  - cbn [append escapedPairs].
    change (Ascii.eqb backslash backslash) with true. cbv iota.
    now rewrite escapedPairs_plain.
Qed.

Lemma specials_Decoded (c : ascii) (t : string) (r w : Z) :
  Decoded (String c t) r w ->
  specials (String c t)
  = ((if isSpecial c then 1 else 0)
     + specials (skipn (Z.to_nat w) (String c t)))%nat.
Proof.
  intros D. inversion D; subst; norm_skip; cbn [specials];
    rewrite ?isSpecial_high by lia; reflexivity.
Qed.

Lemma escapedPairs_quoted (wide : Z -> bool) (s : string) :
  escapedPairs (quoted wide s) = specials s.
Proof.
  induction s as [|c t IH] using scan_ind; [reflexivity|].
  pose proof (scanRune_Decoded c t) as D.
  rewrite quoted_cons.
  rewrite (escapedPairs_Chunk _ _ _ (appendRune_Chunk wide c t _ _ D)).
  rewrite IH. symmetry. exact (specials_Decoded _ _ _ _ D).
Qed.

(** ** Splitting the input at an ASCII byte *)

Lemma len_append (a b : string) : len (a ++ b) = len a + len b.
Proof. unfold len. rewrite length_append. lia. Qed.

Ltac settle_ifs :=
  repeat (split_if; try reflexivity; try (exfalso; lia)).

(** A byte below [RuneSelf] is never read as part of the rune before it. *)
Lemma DecodeRuneInString_app (c : ascii) (t : string) (a : ascii)
    (rest : string) :
  byteVal a < 0x80 ->
  utf8.DecodeRuneInString (String c t ++ String a rest)
  = utf8.DecodeRuneInString (String c t).
Proof.
  intros A. pose proof (byteVal_range c) as Hc.
  pose proof (len_nonneg rest) as Hr.
  cbn [append]. unfold utf8.DecodeRuneInString. cbv zeta.
  destruct (first_cases _ Hc) as
    [[R E]|[[R E]|[[R E]|[[R E]|[[R E]|[[R E]|[[R E]|[[R E]|[R E]]]]]]]]];
    rewrite E; clear E;
    match goal with |- context [utf8.as_ <=? ?x] => eval_entry x end;
    try reflexivity;
    unfold utf8.locb, utf8.hicb;
    destruct t as [|c1 [|c2 [|c3 t3]]]; cbn [append];
    rewrite ?len_cons, ?len_append, ?len_cons;
    try pose proof (len_nonneg t3);
    change (len EmptyString) with 0;
    settle_ifs.
Qed.

Lemma skipn_app (n : nat) :
  forall s x, (n <= String.length s)%nat -> skipn n (s ++ x) = skipn n s ++ x.
Proof.
  induction n as [|n IH]; intros [|c t] x L; cbn in *; try reflexivity;
    try lia.
  apply IH. lia.
Qed.

Lemma quoted_app_ascii (wide : Z -> bool) (a : ascii) (rest : string) :
  byteVal a < 0x80 ->
  forall s1, quoted wide (s1 ++ String a rest)
             = quoted wide s1 ++ quoted wide (String a rest).
Proof.
  intros A s1. induction s1 as [|c t IH] using scan_ind; [reflexivity|].
  pose proof (scanRune_Decoded c t) as D.
  apply Decoded_width in D. destruct D as [W L].
  rewrite (quoted_cons wide c t).
  change (String c t ++ String a rest) with (String c (t ++ String a rest)).
  rewrite quoted_cons.
  change (String c (t ++ String a rest)) with (String c t ++ String a rest).
  assert (E : scanRune (String c t ++ String a rest) c
              = scanRune (String c t) c).
  { change (String c t ++ String a rest) with (String c (t ++ String a rest)).
    rewrite !scanRune_eq. now apply DecodeRuneInString_app. }
  rewrite E, skipn_app by (unfold len in L; lia).
  now rewrite IH, append_assoc.
Qed.

Lemma specials_app (x y : string) :
  specials (x ++ y) = (specials x + specials y)%nat.
Proof.
  induction x as [|a x IH]; cbn [append specials]; [reflexivity|].
  rewrite IH. lia.
Qed.

(** C5: at each occurrence of a double quote or backslash in the input,
    the output is the output for what precedes, one backslash, the byte
    itself, and the output for what follows; that backslash is not itself
    taken by an escape before it, and the escaped double quotes and
    backslashes of the output are as many as the double quotes and
    backslashes of the input. *)
Theorem appendQuoted_escapes_specials (wide : Z -> bool)
    (buf s1 : string) (c : ascii) (s2 : string) :
  c = dquote \/ c = backslash ->
  exists o1 o2,
    appendQuoted wide EmptyString s1 = Some o1 /\
    appendQuoted wide EmptyString s2 = Some o2 /\
    appendQuoted wide buf (s1 ++ String c s2)
    = Some (buf ++ o1 ++ String backslash (String c o2)) /\
    escapedPairs (o1 ++ String backslash (String c o2))
    = (escapedPairs o1 + 1 + escapedPairs o2)%nat /\
    escapedPairs (o1 ++ String backslash (String c o2))
    = specials (s1 ++ String c s2).
Proof.
  intros C.
  assert (S : isSpecial c = true) by (destruct C as [-> | ->]; reflexivity).
  assert (A : byteVal c < 0x80) by (apply isSpecial_byte in S; lia).
  exists (quoted wide s1), (quoted wide s2).
  assert (Q : quoted wide (s1 ++ String c s2)
              = quoted wide s1 ++ String backslash (String c (quoted wide s2))).
  { rewrite (quoted_app_ascii wide c s2 A). f_equal.
    rewrite quoted_cons.
    destruct (scanRune_special wide c s2 S) as [-> R].
    cbn [fst snd]. rewrite R. reflexivity. }
  split; [apply (appendQuoted_quoted wide EmptyString)|].
  split; [apply (appendQuoted_quoted wide EmptyString)|].
  split; [now rewrite appendQuoted_quoted, Q|].
  rewrite <- Q, !escapedPairs_quoted, specials_app. cbn [specials].
  rewrite S. split; [lia | reflexivity].
Qed.

Lemma appendQuoted_escapes_specials_witness :
  (dquote = dquote \/ dquote = backslash) /\
  appendQuoted latin1Only ">" ("a\" ++ String dquote "b")
  = Some (">" ++ "a\\" ++ String backslash (String dquote "b")).
Proof.
  split; [left; reflexivity|].
  destruct (appendQuoted_escapes_specials latin1Only ">" "a\" dquote "b"
              (or_introl eq_refl)) as [o1 [o2 [H1 [H2 [H _]]]]].
  vm_compute in H1, H2.
  injection H1 as <-. injection H2 as <-. exact H.
Defined.

(** ** Runes above the largest code point *)

(** C8: in the body of the loop a rune above [MaxRune] is replaced by
    U+FFFD before it is rendered: as the four-digit escape of U+FFFD when
    it is not printable, as the encoding of U+FFFD when the table calls
    it printable.  No rune that the scan reads is that large. *)
Theorem appendRune_above_MaxRune (wide : Z -> bool) (buf : string)
    (r w : Z) (b0 : ascii) :
  utf8.MaxRune < r < 2 ^ 31 ->
  appendRune wide buf r w b0
  = (if strconv.IsPrint wide r
     then buf ++ utf8.EncodeRune utf8.RuneError
     else appendHex (buf ++ String backslash "u") utf8.RuneError [12; 8; 4; 0])
  /\ appendHex (buf ++ String backslash "u") utf8.RuneError [12; 8; 4; 0]
     = buf ++ String backslash "ufffd"
  /\ forall c t, fst (scanRune (String c t) c) <= utf8.MaxRune.
Proof.
  intros R. unfold utf8.MaxRune in R. split; [|split].
  - unfold appendRune. cbv zeta.
    replace ((w =? 1) && (r =? utf8.RuneError)) with false
      by (unfold utf8.RuneError; lia).
    replace ((r =? byteVal dquote) || (r =? byteVal backslash)) with false
      by (change (byteVal dquote) with 34;
          change (byteVal backslash) with 92; lia).
    destruct (strconv.IsPrint wide r).
    + f_equal. unfold utf8.EncodeRune. cbv zeta.
      rewrite (Z.mod_small r) by lia.
      unfold utf8.rune1Max, utf8.rune2Max, utf8.MaxRune.
      replace (r <=? 2 ^ 7 - 1) with false by lia.
      replace (r <=? 2 ^ 11 - 1) with false by lia.
      replace (1114111 <? r) with true by lia.
      reflexivity.
    + replace (r =? 7) with false by lia.
      replace (r =? 8) with false by lia.
      replace (r =? 12) with false by lia.
      replace (r =? 10) with false by lia.
      replace (r =? 13) with false by lia.
      replace (r =? 9) with false by lia.
      replace (r =? 11) with false by lia.
      replace (r <? 32) with false by lia.
      unfold utf8.MaxRune. replace (1114111 <? r) with true by lia.
      reflexivity.
  - rewrite appendHex_app, append_assoc. reflexivity.
  - intros c t. apply (Decoded_rune_range _ _ _ (scanRune_Decoded c t)).
Qed.

Lemma appendRune_above_MaxRune_witness :
  utf8.MaxRune < 0x110000 < 2 ^ 31 /\
  appendRune latin1Only ">" 0x110000 4 "244" = ">" ++ String backslash "ufffd".
Proof.
  split; [unfold utf8.MaxRune; lia|].
  destruct (appendRune_above_MaxRune latin1Only ">" 0x110000 4 "244")
    as [H [K _]]; [unfold utf8.MaxRune; lia|].
  rewrite H. exact K.
Defined.

(** ** Undecodable bytes *)

Lemma lowerhex_get (i : Z) :
  0 <= i < 16 -> String.get (Z.to_nat i) lowerhex = Some (lowerhexAt i).
Proof.
  intros H. unfold lowerhexAt.
  assert (K : (Z.to_nat i < 16)%nat) by lia.
  revert K. generalize (Z.to_nat i). intros n K.
  do 16 (destruct n as [|n]; [reflexivity|]). lia.
Qed.

(** ** The log lines *)

Lemma buildCommonLogLine_eq (wide : Z -> bool) (req : http.Request)
    (ts : time.Time) (status size : Z) (delay : time.Duration) :
  buildCommonLogLine wide req ts status size delay
  = Some (commonLine (remoteHost req) (userName req) (time.FormatCLF ts)
            (http.Method req) (quoted wide (requestTarget req))
            (http.Proto req) status size (prettyDuration delay)).
Proof.
  unfold buildCommonLogLine, commonLine. cbv zeta.
  rewrite appendQuoted_quoted. cbn [bind append].
  now rewrite !append_assoc.
Qed.

(** C2: the Combined line is the Common line for the same inputs, then a
    space, the escaped referrer between double quotes, a space and the
    escaped user agent between double quotes.  A header that is absent
    reads as the empty string, on which the escaping primitive returns
    its buffer as it is, so that field is a pair of double quotes. *)
Theorem combined_extends_common (wide : Z -> bool) (w : Writer)
    (req : http.Request) (ts : time.Time) (status size : Z)
    (delay : time.Duration) :
  exists common qr qu,
    buildCommonLogLine wide req ts status size delay = Some common /\
    appendQuoted wide EmptyString (http.Referer req) = Some qr /\
    appendQuoted wide EmptyString (http.UserAgent req) = Some qu /\
    writeCommonLog wide w req ts status size delay
    = Some (Write w (common ++ str1 newline)) /\
    writeCombinedLog wide w req ts status size delay
    = Some (Write w (common ++ " " ++ str1 dquote ++ qr ++ str1 dquote
                       ++ " " ++ str1 dquote ++ qu ++ str1 dquote
                       ++ str1 newline)) /\
    (http.values (http.Header_ req) "Referer" = [] ->
       http.Referer req = EmptyString /\ qr = EmptyString) /\
    (http.values (http.Header_ req) "User-Agent" = [] ->
       http.UserAgent req = EmptyString /\ qu = EmptyString) /\
    (forall buf, appendQuoted wide buf EmptyString = Some buf).
Proof.
  exists (commonLine (remoteHost req) (userName req) (time.FormatCLF ts)
            (http.Method req) (quoted wide (requestTarget req))
            (http.Proto req) status size (prettyDuration delay)),
         (quoted wide (http.Referer req)), (quoted wide (http.UserAgent req)).
  split; [apply buildCommonLogLine_eq|].
  split; [apply (appendQuoted_quoted wide EmptyString)|].
  split; [apply (appendQuoted_quoted wide EmptyString)|].
  split; [|split; [|split; [|split]]].
  - unfold writeCommonLog. now rewrite buildCommonLogLine_eq.
  - unfold writeCombinedLog. rewrite buildCommonLogLine_eq. cbn [bind].
    rewrite appendQuoted_quoted. cbn [bind].
    rewrite appendQuoted_quoted. cbn [bind].
    now rewrite !append_assoc.
  - intros H. unfold http.Referer, http.Get. rewrite H. split; reflexivity.
  - intros H. unfold http.UserAgent, http.Get. rewrite H. split; reflexivity.
  - intros buf. reflexivity.
Qed.

Lemma combined_extends_common_witness :
  http.values [("Accept", ["*/*"])] "Referer" = [] /\
  writeCombinedLog latin1Only []
    {| http.Method := "GET";
       http.URL := {| url.Scheme := EmptyString; url.Opaque := EmptyString;
                      url.User := None; url.escapedPath := "/";
                      url.ForceQuery := false;
                      url.RawQuery := EmptyString |};
       http.Proto := "HTTP/1.1"; http.ProtoMajor := 1;
       http.Header_ := [("Accept", ["*/*"])];
       http.Host := "localhost:3000"; http.RemoteAddr := "10.0.0.7:4711";
       http.RequestURI := "/" |}
    {| time.unixSec := 0; time.zoneOffset := 0 |} 404 0 500000
  = Some ["10.0.0.7 - - [01/Jan/1970:00:00:00 +0000] "
            ++ str1 dquote ++ "GET / HTTP/1.1" ++ str1 dquote
            ++ " 404 0 0.500ms "
            ++ str1 dquote ++ str1 dquote ++ " " ++ str1 dquote ++ str1 dquote
            ++ str1 newline].
Proof.
  split; [reflexivity|].
  destruct (combined_extends_common latin1Only []
    {| http.Method := "GET";
       http.URL := {| url.Scheme := EmptyString; url.Opaque := EmptyString;
                      url.User := None; url.escapedPath := "/";
                      url.ForceQuery := false;
                      url.RawQuery := EmptyString |};
       http.Proto := "HTTP/1.1"; http.ProtoMajor := 1;
       http.Header_ := [("Accept", ["*/*"])];
       http.Host := "localhost:3000"; http.RemoteAddr := "10.0.0.7:4711";
       http.RequestURI := "/" |}
    {| time.unixSec := 0; time.zoneOffset := 0 |} 404 0 500000)
    as [common [qr [qu [C [_ [_ [_ [W [R [U _]]]]]]]]]].
  destruct (R eq_refl) as [_ ->]. destruct (U eq_refl) as [_ ->].
  vm_compute in C. injection C as <-. exact W.
Defined.

(** C1: the request [GET / HTTP/1.1] from peer [[::1]:54321], with no
    user-info, no referrer and the user agent [curl/7.51.0], answered
    with status 200 and 13 bytes after 12 ms, at 20:07:27 on 2 January
    2017 in a zone one hour east of UTC, is written to the sink in
    Combined format as one line, byte for byte, ending in one newline. *)
Theorem combined_log_example (wide : Z -> bool) (w : Writer)
    (req : http.Request) :
  http.Method req = "GET" ->
  http.RequestURI req = "/" ->
  http.Proto req = "HTTP/1.1" ->
  http.RemoteAddr req = "[::1]:54321" ->
  url.User (http.URL req) = None ->
  http.Referer req = EmptyString ->
  http.UserAgent req = "curl/7.51.0" ->
  writeCombinedLog wide w req
    {| time.unixSec := 1483384047; time.zoneOffset := 3600 |}
    200 13 12000000
  = Some (Write w
      ("::1 - - [02/Jan/2017:20:07:27 +0100] "
       ++ str1 dquote ++ "GET / HTTP/1.1" ++ str1 dquote
       ++ " 200 13 12.000ms "
       ++ str1 dquote ++ str1 dquote ++ " "
       ++ str1 dquote ++ "curl/7.51.0" ++ str1 dquote ++ str1 newline)).
Proof.
  intros M U P A N R G.
  unfold writeCombinedLog. rewrite buildCommonLogLine_eq. cbn [bind].
  rewrite appendQuoted_quoted. cbn [bind].
  rewrite appendQuoted_quoted. cbn [bind].
  unfold remoteHost, userName, requestTarget. rewrite M, U, P, A, N, R, G.
  rewrite andb_false_r.
  do 2 apply f_equal. vm_compute. reflexivity.
Qed.

Lemma combined_log_example_witness :
  writeCombinedLog latin1Only []
    {| http.Method := "GET";
       http.URL := {| url.Scheme := EmptyString; url.Opaque := EmptyString;
                      url.User := None; url.escapedPath := "/";
                      url.ForceQuery := false;
                      url.RawQuery := EmptyString |};
       http.Proto := "HTTP/1.1"; http.ProtoMajor := 1;
       http.Header_ := [("User-Agent", ["curl/7.51.0"]); ("Accept", ["*/*"])];
       http.Host := "localhost:3000"; http.RemoteAddr := "[::1]:54321";
       http.RequestURI := "/" |}
    {| time.unixSec := 1483384047; time.zoneOffset := 3600 |}
    200 13 12000000
  = Some ["::1 - - [02/Jan/2017:20:07:27 +0100] "
            ++ str1 dquote ++ "GET / HTTP/1.1" ++ str1 dquote
            ++ " 200 13 12.000ms "
            ++ str1 dquote ++ str1 dquote ++ " "
            ++ str1 dquote ++ "curl/7.51.0" ++ str1 dquote ++ str1 newline].
Proof.
  apply (combined_log_example latin1Only []); reflexivity.
Defined.

(** ** CONNECT over HTTP/2 *)

(** C3, as stated, fails: with an empty host field the target of a
    CONNECT request over HTTP/2 is the one rebuilt from the parsed URL. *)
Lemma connect_target_counterexample :
  ~ (forall req : http.Request,
       http.ProtoMajor req = 2 -> http.Method req = "CONNECT" ->
       requestTarget req = http.Host req).
Proof.
  intros H.
  specialize (H
    {| http.Method := "CONNECT";
       http.URL := {| url.Scheme := EmptyString; url.Opaque := EmptyString;
                      url.User := None; url.escapedPath := EmptyString;
                      url.ForceQuery := false;
                      url.RawQuery := EmptyString |};
       http.Proto := "HTTP/2.0"; http.ProtoMajor := 2;
       http.Header_ := [];
       http.Host := EmptyString; http.RemoteAddr := "10.0.0.7:4711";
       http.RequestURI := "example.com:443" |} eq_refl eq_refl).
  vm_compute in H. discriminate H.
Qed.

(** C3, amended: for a CONNECT request over HTTP/2 whose host field is
    not empty, the target of the request line is the host field, escaped
    like any target, whatever the request URI and the parsed URL hold;
    with the host [example.com:443] the field reads [example.com:443].
    With an empty host field the target is rebuilt from the parsed URL. *)
Theorem connect_target_is_host (wide : Z -> bool) (req : http.Request)
    (ts : time.Time) (status size : Z) (delay : time.Duration) :
  http.ProtoMajor req = 2 ->
  http.Method req = "CONNECT" ->
  requestTarget req
  = (if String.eqb (http.Host req) EmptyString
     then url.RequestURI (http.URL req) else http.Host req) /\
  (http.Host req <> EmptyString ->
   requestTarget req = http.Host req /\
   buildCommonLogLine wide req ts status size delay
   = Some (commonLine (remoteHost req) (userName req) (time.FormatCLF ts)
             "CONNECT" (quoted wide (http.Host req)) (http.Proto req)
             status size (prettyDuration delay))) /\
  (http.Host req = "example.com:443" ->
   buildCommonLogLine wide req ts status size delay
   = Some (commonLine (remoteHost req) (userName req) (time.FormatCLF ts)
             "CONNECT" "example.com:443" (http.Proto req)
             status size (prettyDuration delay))).
Proof.
  intros V M.
  assert (T : requestTarget req
              = (if String.eqb (http.Host req) EmptyString
                 then url.RequestURI (http.URL req) else http.Host req)).
  { unfold requestTarget. rewrite V, M. reflexivity. }
  split; [exact T|]. split.
  - intros NE. apply String.eqb_neq in NE. rewrite NE in T.
    split; [exact T|]. rewrite buildCommonLogLine_eq, T, M. reflexivity.
  - intros E. rewrite buildCommonLogLine_eq, T, M, E. reflexivity.
Qed.

Lemma connect_target_is_host_witness :
  buildCommonLogLine latin1Only
    {| http.Method := "CONNECT";
       http.URL := {| url.Scheme := EmptyString; url.Opaque := EmptyString;
                      url.User := None; url.escapedPath := "/elsewhere";
                      url.ForceQuery := false;
                      url.RawQuery := "q=1" |};
       http.Proto := "HTTP/2.0"; http.ProtoMajor := 2;
       http.Header_ := [];
       http.Host := "example.com:443"; http.RemoteAddr := "10.0.0.7:4711";
       http.RequestURI := "/other" |}
    {| time.unixSec := 0; time.zoneOffset := 0 |} 200 0 0
  = Some ("10.0.0.7 - - [01/Jan/1970:00:00:00 +0000] "
          ++ str1 dquote ++ "CONNECT example.com:443 HTTP/2.0" ++ str1 dquote
          ++ " 200 0 0.000ms").
Proof.
  apply (connect_target_is_host latin1Only
    {| http.Method := "CONNECT";
       http.URL := {| url.Scheme := EmptyString; url.Opaque := EmptyString;
                      url.User := None; url.escapedPath := "/elsewhere";
                      url.ForceQuery := false;
                      url.RawQuery := "q=1" |};
       http.Proto := "HTTP/2.0"; http.ProtoMajor := 2;
       http.Header_ := [];
       http.Host := "example.com:443"; http.RemoteAddr := "10.0.0.7:4711";
       http.RequestURI := "/other" |}
    {| time.unixSec := 0; time.zoneOffset := 0 |} 200 0 0);
    reflexivity.
Defined.

(** ** float64: the quotient of [prettyDuration] is finite *)

Lemma digits2_pos_size (p : positive) : digits2_pos p = Pos.size p.
Proof. induction p; simpl; congruence. Qed.

Lemma Zdigits2_nonneg (a : Z) : 0 <= Zdigits2 a.
Proof. destruct a; simpl; lia. Qed.

Lemma Zdigits2_bounds (p : positive) :
  2 ^ (Zdigits2 (Zpos p) - 1) <= Zpos p < 2 ^ Zdigits2 (Zpos p).
Proof.
  cbn [Zdigits2]. rewrite digits2_pos_size.
  pose proof (Pos.size_gt p) as G. pose proof (Pos.size_le p) as L.
  split.
  - assert (K : 2 ^ Zpos (Pos.size p) <= 2 * Zpos p).
    { change (2 * Zpos p) with (Zpos p~0). rewrite <- Pos2Z.inj_pow. lia. }
    replace (Zpos (Pos.size p)) with (Zpos (Pos.size p) - 1 + 1) in K by lia.
    rewrite Z.pow_add_r in K by lia. lia.
  - rewrite <- Pos2Z.inj_pow. lia.
Qed.

Lemma Zdigits2_le (a k : Z) : 0 <= k -> 0 <= a < 2 ^ k -> Zdigits2 a <= k.
Proof.
  intros K [L U]. destruct a as [|p|p]; [exact K| |lia].
  pose proof (Zdigits2_bounds p) as [B _].
  destruct (Z.le_gt_cases (Zdigits2 (Zpos p)) k) as [H|H]; [exact H|].
  assert (2 ^ k <= 2 ^ (Zdigits2 (Zpos p) - 1))
    by (apply Z.pow_le_mono_r; lia).
  lia.
Qed.

Lemma Zdigits2_lt_pow (a : Z) : 0 <= a -> a < 2 ^ Zdigits2 a.
Proof.
  intros A. destruct a as [|p|p]; [reflexivity| |lia].
  apply Zdigits2_bounds.
Qed.

Lemma Zdigits2_mono (a b : Z) : 0 <= a <= b -> Zdigits2 a <= Zdigits2 b.
Proof.
  intros [A B]. apply Zdigits2_le; [apply Zdigits2_nonneg|].
  pose proof (Zdigits2_lt_pow b ltac:(lia)). lia.
Qed.

Lemma Zdigits2_succ (a : Z) : 0 <= a -> Zdigits2 (a + 1) <= Zdigits2 a + 1.
Proof.
  intros A. pose proof (Zdigits2_nonneg a).
  apply Zdigits2_le; [lia|].
  pose proof (Zdigits2_lt_pow a A).
  rewrite Z.pow_add_r by lia. lia.
Qed.

Lemma Zdigits2_shiftl (a s : Z) :
  0 <= a -> 0 <= s -> Zdigits2 (Z.shiftl a s) <= Zdigits2 a + s.
Proof.
  intros A S. pose proof (Zdigits2_nonneg a).
  rewrite Z.shiftl_mul_pow2 by exact S.
  assert (0 < 2 ^ s) by (apply Z.pow_pos_nonneg; lia).
  apply Zdigits2_le; [lia|].
  pose proof (Zdigits2_lt_pow a A).
  rewrite Z.pow_add_r by lia. nia.
Qed.

Lemma shr_1_digits (mrs : shr_record) :
  0 <= shr_m mrs ->
  0 <= shr_m (shr_1 mrs) /\
  Zdigits2 (shr_m (shr_1 mrs)) = Z.max 0 (Zdigits2 (shr_m mrs) - 1).
Proof.
  destruct mrs as [m r s]. cbn [shr_m]. intros M.
  destruct m as [|[p|p|]|p]; cbn [shr_1 shr_m Zdigits2 digits2_pos];
    try lia.
Qed.

Lemma iter_shr_1_digits (n : positive) :
  forall mrs, 0 <= shr_m mrs ->
  0 <= shr_m (iter_pos shr_1 n mrs) /\
  Zdigits2 (shr_m (iter_pos shr_1 n mrs))
  = Z.max 0 (Zdigits2 (shr_m mrs) - Zpos n).
Proof.
  induction n as [n IH|n IH|]; intros mrs M; cbn [iter_pos].
  - destruct (shr_1_digits mrs M) as [A1 D1].
    destruct (IH _ A1) as [A2 D2]. destruct (IH _ A2) as [A3 D3].
    split; [exact A3|]. rewrite D3, D2, D1. lia.
  - destruct (IH _ M) as [A2 D2]. destruct (IH _ A2) as [A3 D3].
    split; [exact A3|]. rewrite D3, D2. lia.
  - apply shr_1_digits; exact M.
Qed.

Lemma shr_m_of_loc (m : Z) (l : location) : shr_m (shr_record_of_loc m l) = m.
Proof. destruct l as [|[| |]]; reflexivity. Qed.

Lemma fexp_eq (e : Z) :
  fexp float64.prec float64.emax e = Z.max (e - 53) (-1074).
Proof. reflexivity. Qed.

(** The exponent and the magnitude after [shr_fexp]. *)
Lemma shr_fexp_bounds (m e : Z) (l : location) :
  0 <= m ->
  let '(mrs, e') := shr_fexp float64.prec float64.emax m e l in
  0 <= shr_m mrs /\
  e' <= Z.max e (Z.max (Zdigits2 m + e - 53) (-1074)) /\
  Zdigits2 (shr_m mrs) + e' <= Z.max (Zdigits2 m + e) (-1074).
Proof.
  intros M. unfold shr_fexp, shr. rewrite fexp_eq.
  pose proof (Zdigits2_nonneg m).
  destruct (Z.max (Zdigits2 m + e - 53) (-1074) - e) as [|n|n] eqn:N.
  - rewrite shr_m_of_loc. lia.
  - destruct (iter_shr_1_digits n (shr_record_of_loc m l)) as [A D];
      [now rewrite shr_m_of_loc|].
    rewrite shr_m_of_loc in D. lia.
  - rewrite shr_m_of_loc. lia.
Qed.

Lemma round_nearest_even_bounds (m : Z) (l : location) :
  m <= round_nearest_even m l <= m + 1.
Proof.
  destruct l as [|[| |]]; cbn [round_nearest_even]; try lia.
  destruct (Z.even m); lia.
Qed.

(** Rounding a value of moderate magnitude gives zero or a finite
    number, never an infinity or a NaN. *)
Lemma binary_round_aux_finite (sx : bool) (mx ex : Z) (lx : location) :
  0 <= mx -> ex <= 971 -> Zdigits2 mx + ex <= 1023 ->
  binary_round_aux float64.prec float64.emax sx mx ex lx = S754_zero sx \/
  exists m e,
    binary_round_aux float64.prec float64.emax sx mx ex lx
    = S754_finite sx m e /\
    Zdigits2 (Zpos m) + e <= Z.max (Zdigits2 mx + ex) (-1074) + 1 /\
    e <= Z.max ex (Z.max (Zdigits2 mx + ex - 52) (-1074)).
Proof.
  intros M E D. unfold binary_round_aux.
  pose proof (shr_fexp_bounds mx ex lx M) as B1.
  destruct (shr_fexp float64.prec float64.emax mx ex lx) as [mrs1 e1].
  destruct B1 as [A1 [E1 D1]].
  pose proof (round_nearest_even_bounds (shr_m mrs1)
                (loc_of_shr_record mrs1)) as R.
  set (m2 := round_nearest_even (shr_m mrs1) (loc_of_shr_record mrs1)) in *.
  assert (D2 : Zdigits2 m2 <= Zdigits2 (shr_m mrs1) + 1).
  { etransitivity; [apply (Zdigits2_mono m2 (shr_m mrs1 + 1)); lia|].
    now apply Zdigits2_succ. }
  pose proof (shr_fexp_bounds m2 e1 loc_Exact ltac:(lia)) as B2.
  destruct (shr_fexp float64.prec float64.emax m2 e1 loc_Exact) as [mrs3 e3].
  destruct B2 as [A3 [E3 D3]].
  destruct (shr_m mrs3) as [|m|m] eqn:S3; [now left| |lia].
  right.
  replace (e3 <=? float64.emax - float64.prec) with true
    by (symmetry; apply Z.leb_le;
        change (float64.emax - float64.prec) with 971; lia).
  exists m, e3. split; [reflexivity|]. lia.
Qed.


Lemma digits2_pos_iter_xO (d m : positive) :
  Zpos (digits2_pos (Pos.iter xO m d)) = Zpos (digits2_pos m) + Zpos d.
Proof.
  induction d as [|d IH] using Pos.peano_ind.
  - cbn. lia.
  - rewrite Pos.iter_succ. cbn [digits2_pos]. lia.
Qed.

(** [float64(n)] for a 64-bit integer: zero or finite, of magnitude at
    most 2^65 and exponent at most 12. *)
Lemma ofInt_bounds (n : Z) :
  - 2 ^ 63 <= n < 2 ^ 63 ->
  (exists s, float64.ofInt n = S754_zero s) \/
  exists s m e,
    float64.ofInt n = S754_finite s m e /\
    Zdigits2 (Zpos m) + e <= 65 /\ e <= 12.
Proof.
  intros R. unfold float64.ofInt, binary_normalize.
  assert (K : forall sx p, Zpos p <= 2 ^ 63 ->
            binary_round float64.prec float64.emax sx p 0 = S754_zero sx \/
            exists m e,
              binary_round float64.prec float64.emax sx p 0
              = S754_finite sx m e /\
              Zdigits2 (Zpos m) + e <= 65 /\ e <= 12).
  { intros sx p P. unfold binary_round, shl_align.
    assert (D : Zdigits2 (Zpos p) <= 64)
      by (apply Zdigits2_le; [lia|]; change (2 ^ 64) with (2 * 2 ^ 63); lia).
    pose proof (Zdigits2_nonneg (Zpos p)) as D0.
    cbn [Zdigits2] in D, D0.
    rewrite fexp_eq.
    destruct (Z.max (Zpos (digits2_pos p) + 0 - 53) (-1074) - 0)
      as [|d|d] eqn:S.
    - destruct (binary_round_aux_finite sx (Zpos p) 0 loc_Exact)
        as [Z|[m [e [Z [Dm Em]]]]]; cbn [Zdigits2]; try lia.
      + now left.
      + right. exists m, e. split; [exact Z|]. cbn [Zdigits2] in Dm, Em. lia.
    - destruct (binary_round_aux_finite sx (Zpos p) 0 loc_Exact)
        as [Z|[m [e [Z [Dm Em]]]]]; cbn [Zdigits2]; try lia.
      + now left.
      + right. exists m, e. split; [exact Z|]. cbn [Zdigits2] in Dm, Em. lia.
    - pose proof (digits2_pos_iter_xO d p) as I.
      destruct (binary_round_aux_finite sx (Zpos (Pos.iter xO p d))
                  (Z.max (Zpos (digits2_pos p) + 0 - 53) (-1074)) loc_Exact)
        as [Z|[m [e [Z [Dm Em]]]]]; cbn [Zdigits2]; try lia.
      + now left.
      + right. exists m, e. split; [exact Z|]. cbn [Zdigits2] in Dm, Em. lia. }
  destruct n as [|p|p].
  - left. now exists false.
  - destruct (K false p ltac:(lia)) as [Z|[m [e H]]].
    + left. now exists false.
    + right. now exists false, m, e.
  - destruct (K true p ltac:(lia)) as [Z|[m [e H]]].
    + left. now exists true.
    + right. now exists true, m, e.
Qed.

(** The quotient by [float64(1e6)] of the conversion of a 64-bit integer
    is a number. *)
Lemma div_million_isNumber (n : Z) :
  - 2 ^ 63 <= n < 2 ^ 63 ->
  isNumber (float64.div (float64.ofInt n) (float64.ofInt 1000000)) = true.
Proof.
  intros R. unfold float64.div.
  change (float64.ofInt 1000000)
    with (S754_finite false 8589934592000000 (-33)).
  destruct (ofInt_bounds n R) as [[s ->]|[s [m [e [-> [D E]]]]]];
    [reflexivity|].
  cbn [SFdiv]. unfold SFdiv_core_binary.
  change (Zdigits2 8589934592000000) with 53.
  rewrite fexp_eq.
  set (e' := Z.min _ _).
  set (m' := match e - -33 - e' with
             | 0 => Zpos m
             | Zpos _ => Z.shiftl (Zpos m) (e - -33 - e')
             | Zneg _ => 0
             end).
  pose proof (Zdigits2_nonneg (Zpos m)) as D0.
  assert (M' : 0 <= m' /\ Zdigits2 m' + e' <= Zdigits2 (Zpos m) + e + 33).
  { subst m'. destruct (e - -33 - e') as [|p|p] eqn:S.
    - lia.
    - split; [apply Z.shiftl_nonneg; lia|].
      pose proof (Zdigits2_shiftl (Zpos m) (Zpos p) ltac:(lia) ltac:(lia)).
      lia.
    - cbn [Zdigits2]. lia. }
  pose proof (Z_div_mod m' 8589934592000000 ltac:(lia)) as Q.
  destruct (Z.div_eucl m' 8589934592000000) as [q r].
  assert (Hq : 0 <= q <= m') by nia.
  pose proof (Zdigits2_mono q m' Hq).
  destruct (binary_round_aux_finite (xorb s false) q e'
              (new_location 8589934592000000 r))
    as [Z|[m3 [e3 [Z _]]]]; try lia.
  - now rewrite Z.
  - now rewrite Z.
Qed.

(** ** Decimal digits *)

Lemma decimalFrom_shift (s : string) :
  forall a, decimalFrom a s = a * 10 ^ len s + decimalFrom 0 s.
Proof.
  induction s as [|c t IH]; intros a.
  - cbn. lia.
  - cbn [decimalFrom]. rewrite IH, (IH (10 * 0 + _)), len_cons.
    pose proof (len_nonneg t).
    rewrite Z.pow_add_r, Z.pow_1_r by lia. lia.
Qed.

Lemma decimalValue_cons (c : ascii) (t : string) :
  decimalValue (String c t)
  = (byteVal c - 48) * 10 ^ len t + decimalValue t.
Proof.
  unfold decimalValue. cbn [decimalFrom]. rewrite decimalFrom_shift.
  change (byteVal "0") with 48. lia.
Qed.

Lemma digit_byte (d : Z) : 0 <= d <= 9 -> byteVal (itoa.digit d) = 48 + d.
Proof.
  intros D. unfold itoa.digit. rewrite byteVal_toByte.
  change (byteVal "0") with 48. rewrite Z.mod_small; lia.
Qed.

Lemma digit_isDigit (d : Z) : 0 <= d <= 9 -> isDigit (itoa.digit d) = true.
Proof.
  intros D. unfold isDigit. rewrite (digit_byte d D).
  change (byteVal "0") with 48. change (byteVal "9") with 57. lia.
Qed.

Lemma formatBits_spec (fuel : nat) :
  forall u acc, 0 <= u < 2 ^ Z.of_nat fuel -> allDigits acc = true ->
  allDigits (itoa.formatBits fuel u acc) = true /\
  decimalValue (itoa.formatBits fuel u acc)
  = u * 10 ^ len acc + decimalValue acc /\
  (String.length acc <= String.length (itoa.formatBits fuel u acc))%nat /\
  (0 < fuel -> 0 < String.length (itoa.formatBits fuel u acc))%nat.
Proof.
  induction fuel as [|fuel IH]; intros u acc U A.
  - cbn [itoa.formatBits]. change (2 ^ Z.of_nat 0) with 1 in U.
    assert (u = 0) as -> by lia. repeat split; try lia. exact A.
  - cbn [itoa.formatBits]. destruct (u <? 10) eqn:L.
    + cbn [allDigits String.length].
      rewrite digit_isDigit, decimalValue_cons, digit_byte by lia.
      cbn [andb]. repeat split; try lia. exact A.
    + rewrite Nat2Z.inj_succ, Z.pow_succ_r in U by lia.
      destruct (IH (u / 10) (String (itoa.digit (u mod 10)) acc))
        as [D [V [N _]]].
      * Z.to_euclidean_division_equations. lia.
      * cbn [allDigits]. rewrite digit_isDigit, A; [reflexivity|].
        Z.to_euclidean_division_equations. lia.
      * split; [exact D|]. split; [|split].
        -- rewrite V, decimalValue_cons, digit_byte, len_cons
             by (Z.to_euclidean_division_equations; lia).
           pose proof (len_nonneg acc).
           rewrite Z.pow_add_r, Z.pow_1_r by lia.
           Z.to_euclidean_division_equations. nia.
        -- cbn [String.length] in N. lia.
        -- cbn [String.length] in N. lia.
Qed.

(** [formatUint] writes a natural number in decimal, with at least one
    digit. *)
Lemma formatUint_spec (u : Z) :
  0 <= u ->
  allDigits (itoa.formatUint u) = true /\
  decimalValue (itoa.formatUint u) = u /\
  (0 < String.length (itoa.formatUint u))%nat.
Proof.
  intros U. unfold itoa.formatUint.
  destruct (formatBits_spec (S (Z.to_nat (Z.log2 u))) u EmptyString)
    as [D [V [_ N]]].
  - split; [exact U|].
    rewrite Nat2Z.inj_succ, Z2Nat.id by apply Z.log2_nonneg.
    destruct (Z.eq_dec u 0) as [->|NZ]; [reflexivity|].
    apply Z.log2_spec. lia.
  - reflexivity.
  - split; [exact D|]. split; [|apply N; lia].
    rewrite V. change (len EmptyString) with 0.
    change (decimalValue EmptyString) with 0. lia.
Qed.

(** Three digits after the point, whatever the thousandths. *)
Lemma appendInt3_spec (x : Z) :
  0 <= x < 1000 ->
  String.length (itoa.appendInt EmptyString x 3) = 3%nat /\
  allDigits (itoa.appendInt EmptyString x 3) = true /\
  decimalValue (itoa.appendInt EmptyString x 3) = x.
Proof.
  intros X.
  set (ok := fun n : nat =>
    let s := itoa.appendInt EmptyString (Z.of_nat n) 3 in
    Nat.eqb (String.length s) 3 && allDigits s
    && (decimalValue s =? Z.of_nat n)).
  assert (A : forallb ok (seq 0 1000) = true) by (vm_compute; reflexivity).
  rewrite forallb_forall in A.
  specialize (A (Z.to_nat x)). unfold ok in A. cbv zeta in A.
  rewrite Z2Nat.id in A by lia.
  rewrite !andb_true_iff, Nat.eqb_eq, Z.eqb_eq in A.
  assert (I : In (Z.to_nat x) (seq 0 1000)) by (apply in_seq; lia).
  destruct (A I) as [[L D] V]. auto.
Qed.

(** ** The elapsed field *)

Lemma roundMilli_nonneg (m : positive) (e : Z) : 0 <= float64.roundMilli m e.
Proof.
  unfold float64.roundMilli. cbv zeta.
  destruct (0 <=? e) eqn:E.
  - assert (0 < 2 ^ e) by (apply Z.pow_pos_nonneg; lia). nia.
  - assert (P : 0 < 2 ^ (- e)) by (apply Z.pow_pos_nonneg; lia).
    assert (Q : 0 <= Zpos m * 1000 / 2 ^ (- e))
      by (apply Z.div_pos; lia).
    destruct (2 * ((Zpos m * 1000) mod 2 ^ (- e)) ?= 2 ^ (- e));
      [destruct (Z.even _)| |]; lia.
Qed.

Lemma fixed3_spec (neg : bool) (k : Z) :
  0 <= k ->
  exists whole frac,
    float64.fixed3 neg k
    = (if neg then "-" else EmptyString) ++ whole ++ "." ++ frac /\
    (0 < String.length whole)%nat /\ allDigits whole = true /\
    String.length frac = 3%nat /\ allDigits frac = true /\
    1000 * decimalValue whole + decimalValue frac = k.
Proof.
  intros K.
  exists (itoa.formatUint (k / 1000)),
         (itoa.appendInt EmptyString (k mod 1000) 3).
  destruct (formatUint_spec (k / 1000)) as [D [V N]];
    [Z.to_euclidean_division_equations; lia|].
  destruct (appendInt3_spec (k mod 1000)) as [L [D' V']];
    [Z.to_euclidean_division_equations; lia|].
  repeat split; try assumption.
  rewrite V, V'. Z.to_euclidean_division_equations. lia.
Qed.

(** C7: for every 64-bit duration the elapsed field is the quotient of
    the nanoseconds by 1e6, computed in float64 and never an infinity or
    a NaN, written as a sign for a negative value, at least one decimal
    digit, a point, exactly three decimal digits and the suffix [ms]; the
    digits are the quotient rounded to thousandths.  12,000,000 ns reads
    [12.000ms] and 500,000 ns reads [0.500ms]. *)
Theorem prettyDuration_format (dur : time.Duration) :
  - 2 ^ 63 <= dur < 2 ^ 63 ->
  let q := float64.div (float64.ofInt (time.Nanoseconds dur))
                       (float64.ofInt 1000000) in
  isNumber q = true /\
  (exists whole frac,
     prettyDuration dur
     = (if signBit q then "-" else EmptyString)
         ++ whole ++ "." ++ frac ++ "ms" /\
     (0 < String.length whole)%nat /\ allDigits whole = true /\
     String.length frac = 3%nat /\ allDigits frac = true /\
     1000 * decimalValue whole + decimalValue frac = milli q) /\
  prettyDuration 12000000 = "12.000ms" /\
  prettyDuration 500000 = "0.500ms".
Proof.
  intros R q.
  pose proof (div_million_isNumber dur R) as N.
  change (isNumber q = true) in N.
  split; [exact N|]. split; [|split; vm_compute; reflexivity].
  unfold prettyDuration. cbv zeta. fold q. clearbody q.
  assert (F : exists whole frac,
            float64.format3 q
            = (if signBit q then "-" else EmptyString)
                ++ whole ++ "." ++ frac /\
            (0 < String.length whole)%nat /\ allDigits whole = true /\
            String.length frac = 3%nat /\ allDigits frac = true /\
            1000 * decimalValue whole + decimalValue frac = milli q).
  { destruct q as [s|s| |s m e]; try discriminate N;
      cbn [float64.format3 signBit milli].
    - apply fixed3_spec. lia.
    - apply fixed3_spec, roundMilli_nonneg. }
  destruct F as [whole [frac [E H]]].
  exists whole, frac. split; [|exact H].
  rewrite E, !append_assoc. reflexivity.
Qed.

Lemma prettyDuration_format_witness :
  - 2 ^ 63 <= 1500 < 2 ^ 63 /\
  isNumber (float64.div (float64.ofInt 1500) (float64.ofInt 1000000)) = true /\
  prettyDuration 12000000 = "12.000ms" /\
  prettyDuration 500000 = "0.500ms".
Proof.
  split; [lia|].
  destruct (prettyDuration_format 1500) as [N [_ E]]; [lia|].
  split; [exact N | exact E].
Defined.

(** ** Reading the output back *)

Lemma hexValue_lowerhexAt (i : Z) : 0 <= i < 16 -> hexValue (lowerhexAt i) = i.
Proof.
  intros I.
  assert (A : forallb
                (fun n => hexValue (lowerhexAt (Z.of_nat n)) =? Z.of_nat n)
                (seq 0 16) = true) by (vm_compute; reflexivity).
  rewrite forallb_forall in A. specialize (A (Z.to_nat i)).
  rewrite Z2Nat.id in A by lia. apply Z.eqb_eq, A, in_seq. lia.
Qed.

Lemma unquote_plain (p rest : string) :
  plainBytes p = true -> unquote (p ++ rest) = p ++ unquote rest.
Proof.
  induction p as [|a p IH]; intros H; [reflexivity|].
  cbn [plainBytes] in H. apply andb_true_iff in H. destruct H as [A P].
  apply negb_true_iff, isSpecial_backslash in A.
  cbn [append unquote]. rewrite A. cbn [negb]. now rewrite IH.
Qed.

Lemma unquote_escape (k : ascii) (u : string) :
  unquote (String backslash (String k u))
  = if Ascii.eqb k "x" then
      match u with
      | String h1 (String h2 rest) =>
        String (toByte (hexNumber 0 (String h1 (str1 h2)))) (unquote rest)
      | _ => EmptyString
      end
    else if Ascii.eqb k "u" then
      match u with
      | String h1 (String h2 (String h3 (String h4 rest))) =>
        utf8.EncodeRune
          (hexNumber 0 (String h1 (String h2 (String h3 (str1 h4)))))
        ++ unquote rest
      | _ => EmptyString
      end
    else if Ascii.eqb k "U" then
      match u with
      | String h1 (String h2 (String h3 (String h4
          (String h5 (String h6 (String h7 (String h8 rest))))))) =>
        utf8.EncodeRune
          (hexNumber 0
             (String h1 (String h2 (String h3 (String h4
               (String h5 (String h6 (String h7 (str1 h8)))))))))
        ++ unquote rest
      | _ => EmptyString
      end
    else String (unescapeLetter k) (unquote u).
Proof. reflexivity. Qed.

Lemma unquote_hexByte (c : ascii) (rest : string) :
  unquote (String backslash (String "x"
            (String (lowerhexAt (Z.shiftr (byteVal c) 4))
              (String (lowerhexAt (Z.land (byteVal c) 0xF)) rest))))
  = String c (unquote rest).
Proof.
  pose proof (byteVal_range c) as B.
  rewrite unquote_escape. change (Ascii.eqb "x" "x") with true. cbv iota.
  f_equal. apply toByte_eq. unfold str1. cbn [hexNumber].
  change 0xF with (2 ^ 4 - 1).
  rewrite land_mask, Z.shiftr_div_pow2 by lia.
  rewrite !hexValue_lowerhexAt; zlia.
Qed.

Lemma hex4_value (r : Z) :
  0 <= r < 2 ^ 16 ->
  exists h1 h2 h3 h4,
    appendHex EmptyString r [12; 8; 4; 0]
    = String h1 (String h2 (String h3 (String h4 EmptyString))) /\
    hexNumber 0 (String h1 (String h2 (String h3 (str1 h4)))) = r.
Proof.
  intros R. do 4 eexists. split; [reflexivity|].
  unfold str1. cbn [hexNumber].
  change 0xF with (2 ^ 4 - 1).
  rewrite !land_mask, !Z.shiftr_div_pow2 by lia.
  rewrite !hexValue_lowerhexAt;
    change (2 ^ 0) with 1 in *; change (2 ^ 8) with 256 in *;
    change (2 ^ 16) with 65536 in *; zlia.
Qed.

Lemma hex8_value (r : Z) :
  0 <= r < 2 ^ 32 ->
  exists h1 h2 h3 h4 h5 h6 h7 h8,
    appendHex EmptyString r [28; 24; 20; 16; 12; 8; 4; 0]
    = String h1 (String h2 (String h3 (String h4
        (String h5 (String h6 (String h7 (String h8 EmptyString))))))) /\
    hexNumber 0
      (String h1 (String h2 (String h3 (String h4
        (String h5 (String h6 (String h7 (str1 h8)))))))) = r.
Proof.
  intros R. do 8 eexists. split; [reflexivity|].
  unfold str1. cbn [hexNumber].
  change 0xF with (2 ^ 4 - 1).
  rewrite !land_mask, !Z.shiftr_div_pow2 by lia.
  rewrite !hexValue_lowerhexAt;
    change (2 ^ 0) with 1 in *; change (2 ^ 8) with 256 in *;
    change (2 ^ 16) with 65536 in *; change (2 ^ 20) with 1048576 in *;
    change (2 ^ 24) with 16777216 in *; change (2 ^ 28) with 268435456 in *;
    change (2 ^ 32) with 4294967296 in *; zlia.
Qed.

Lemma Decoded_self (c : ascii) (t : string) (r w : Z) :
  Decoded (String c t) r w -> r < 0x80 -> w = 1 /\ c = toByte r.
Proof.
  intros D R. inversion D; subst; unfold utf8.RuneError in *;
    try (split; [reflexivity | symmetry; apply toByte_byteVal]);
    repeat match goal with
    | |- context [byteVal ?x] =>
      lazymatch goal with
      | _ : 0 <= byteVal x < 256 |- _ => fail
      | _ => pose proof (byteVal_range x)
      end
    | _ : context [byteVal ?x] |- _ =>
      lazymatch goal with
      | _ : 0 <= byteVal x < 256 |- _ => fail
      | _ => pose proof (byteVal_range x)
      end
    end; lia.
Qed.

Lemma firstn_skipn (n : nat) :
  forall s, firstn n s ++ skipn n s = s.
Proof.
  induction n as [|n IH]; intros [|c t]; cbn [firstn skipn append];
    try reflexivity.
  now rewrite IH.
Qed.

(** Reading back what one turn appends gives the bytes that turn read. *)
Lemma unquote_appendRune (wide : Z -> bool) (c : ascii) (t : string)
    (r w : Z) (rest : string) :
  Decoded (String c t) r w ->
  unquote (appendRune wide EmptyString r w c ++ rest)
  = firstn (Z.to_nat w) (String c t) ++ unquote rest.
Proof.
  intros D. pose proof (Decoded_rune_range _ _ _ D) as RR.
  unfold utf8.MaxRune in RR.
  unfold appendRune, str1. cbv zeta.
  destruct ((w =? 1) && (r =? utf8.RuneError)) eqn:E1.
  { apply andb_true_iff in E1. destruct E1 as [W _].
    apply Z.eqb_eq in W. subst w.
    cbn [append]. rewrite unquote_hexByte. reflexivity. }
  assert (NE : w = 1 -> r <> utf8.RuneError)
    by (apply andb_false_iff in E1; lia).
  change (byteVal dquote) with 34. change (byteVal backslash) with 92.
  destruct ((r =? 34) || (r =? 92)) eqn:E2.
  { apply orb_true_iff in E2.
    destruct (Decoded_self _ _ _ _ D ltac:(lia)) as [-> ->].
    cbn [append]. destruct E2 as [E2|E2]; apply Z.eqb_eq in E2; subst r;
      reflexivity. }
  apply orb_false_iff in E2.
  destruct (strconv.IsPrint wide r).
  { cbn [append]. rewrite (EncodeRune_firstn _ _ _ D NE).
    apply unquote_plain. apply (Decoded_plain _ _ _ D); lia. }
  repeat match goal with
  | |- context [if ?b then _ else _] =>
    let E := fresh "E" in destruct b eqn:E
  end;
  try (destruct (Decoded_self _ _ _ _ D ltac:(lia)) as [-> ->]);
  try (match goal with
       | H : (r =? _) = true |- _ => apply Z.eqb_eq in H; subst r; reflexivity
       end);
  try (exfalso; unfold utf8.MaxRune in *; lia).
  - (* a control byte without a mnemonic *)
    cbn [append]. rewrite unquote_hexByte. reflexivity.
  - (* four hex digits *)
    destruct (hex4_value r ltac:(lia)) as [h1 [h2 [h3 [h4 [A V]]]]].
    rewrite appendHex_app, A. cbn [append].
    rewrite unquote_escape.
    change (Ascii.eqb "u" "x") with false.
    change (Ascii.eqb "u" "u") with true. cbv iota.
    rewrite V. now rewrite (EncodeRune_firstn _ _ _ D NE).
  - (* eight hex digits *)
    destruct (hex8_value r ltac:(lia)) as
      [h1 [h2 [h3 [h4 [h5 [h6 [h7 [h8 [A V]]]]]]]]].
    rewrite appendHex_app, A. cbn [append].
    rewrite unquote_escape.
    change (Ascii.eqb "U" "x") with false.
    change (Ascii.eqb "U" "u") with false.
    change (Ascii.eqb "U" "U") with true. cbv iota.
    rewrite V. now rewrite (EncodeRune_firstn _ _ _ D NE).
Qed.

(** The input can be read back from the output: nothing is dropped. *)
Lemma unquote_quoted (wide : Z -> bool) (s : string) :
  unquote (quoted wide s) = s.
Proof.
  induction s as [|c t IH] using scan_ind; [reflexivity|].
  pose proof (scanRune_Decoded c t) as D.
  rewrite quoted_cons, (unquote_appendRune wide _ _ _ _ _ D), IH.
  apply firstn_skipn.
Qed.

(** C6: a byte at which [DecodeRuneInString] reports an invalid encoding
    is written as a backslash, [x] and the two lowercase hex digits of
    the byte's value, and the scan goes on with the very next byte; no
    data is lost on the way, as every input can be read back from what is
    appended for it. *)
Theorem appendQuoted_invalid_byte (wide : Z -> bool) (buf : string)
    (c : ascii) (t : string) :
  utf8.DecodeRuneInString (String c t) = (utf8.RuneError, 1) ->
  exists h1 h2,
    String.get (Z.to_nat (byteVal c / 16)) lowerhex = Some h1 /\
    String.get (Z.to_nat (byteVal c mod 16)) lowerhex = Some h2 /\
    sliceFrom 1 (String c t) = Some t /\
    appendQuoted wide buf (String c t)
    = appendQuoted wide
        (buf ++ String backslash (String "x" (String h1 (str1 h2)))) t /\
    forall s, exists out,
      appendQuoted wide buf s = Some (buf ++ out) /\ unquote out = s.
Proof.
  intros E. pose proof (byteVal_range c) as B.
  exists (lowerhexAt (byteVal c / 16)), (lowerhexAt (byteVal c mod 16)).
  split; [apply lowerhex_get; zlia|].
  split; [apply lowerhex_get; zlia|].
  split.
  { unfold sliceFrom. rewrite len_cons. pose proof (len_nonneg t).
    replace ((0 <=? 1) && (1 <=? 1 + len t)) with true; [reflexivity|].
    symmetry. apply andb_true_iff. lia. }
  split.
  - rewrite appendQuoted_cons, scanRune_eq, E. cbn [fst snd].
    change (skipn (Z.to_nat 1) (String c t)) with t.
    f_equal. unfold appendRune. cbv zeta.
    change ((1 =? 1) && (utf8.RuneError =? utf8.RuneError)) with true.
    cbv iota. rewrite Z.shiftr_div_pow2 by lia.
    change 0xF with (2 ^ 4 - 1). rewrite land_mask by lia.
    unfold str1. now rewrite !append_assoc.
  - intros s. exists (quoted wide s). split.
    + apply appendQuoted_quoted.
    + apply unquote_quoted.
Qed.

Lemma appendQuoted_invalid_byte_witness :
  utf8.DecodeRuneInString (String "226" (String "130" "a"))
  = (utf8.RuneError, 1) /\
  appendQuoted latin1Only ">" (String "226" (String "130" "a"))
  = Some (">" ++ String backslash "xe2" ++ String backslash "x82" ++ "a").
Proof.
  split; [vm_compute; reflexivity|].
  destruct (appendQuoted_invalid_byte latin1Only ">" "226" (String "130" "a"))
    as [h1 [h2 [G1 [G2 [_ [H _]]]]]]; [vm_compute; reflexivity|].
  vm_compute in G1, G2. injection G1 as <-. injection G2 as <-.
  rewrite H. vm_compute. reflexivity.
Defined.

(** * Further properties of the formatter *)

(** ** Decoding well-formed sequences *)

Ltac pose_byte_ranges :=
  repeat match goal with
  | |- context [byteVal ?x] =>
    lazymatch goal with
    | _ : 0 <= byteVal x < 256 |- _ => fail
    | _ => pose proof (byteVal_range x)
    end
  | _ : context [byteVal ?x] |- _ =>
    lazymatch goal with
    | _ : 0 <= byteVal x < 256 |- _ => fail
    | _ => pose proof (byteVal_range x)
    end
  end.

(** The outcomes of [Decoded] other than the error are exactly what
    [DecodeRuneInString] returns, whatever follows the sequence. *)
Lemma Decoded_decode (s : string) (r w : Z) :
  Decoded s r w -> (w = 1 -> r <> utf8.RuneError) ->
  utf8.DecodeRuneInString s = (r, w).
Proof.
  intros D NE. destruct D as [c t L|c t L|c0 c1 t R0 R1
    |c0 c1 c2 t R0 R1 A B R2|c0 c1 c2 c3 t R0 R1 A B R2 R3].
  - now apply DecodeRuneInString_self.
  - exfalso. now apply NE.
  - pose proof (len_nonneg t). pose_byte_ranges.
    unfold utf8.DecodeRuneInString. cbv zeta.
    destruct (first_cases (byteVal c0) ltac:(lia)) as
      [[R E]|[[R E]|[[R E]|[[R E]|[[R E]|[[R E]|[[R E]|[[R E]|[R E]]]]]]]]];
      try (exfalso; lia);
      rewrite E; clear E;
      match goal with |- context [utf8.as_ <=? ?x] => eval_entry x end;
      rewrite ?len_cons; unfold utf8.locb, utf8.hicb;
      settle_ifs.
    f_equal. bits_to_arith. rewrite lor_disjoint with (k := 6); zlia.
  - pose proof (len_nonneg t). pose_byte_ranges.
    unfold utf8.DecodeRuneInString. cbv zeta.
    destruct (first_cases (byteVal c0) ltac:(lia)) as
      [[R E]|[[R E]|[[R E]|[[R E]|[[R E]|[[R E]|[[R E]|[[R E]|[R E]]]]]]]]];
      try (exfalso; lia);
      rewrite E; clear E;
      match goal with |- context [utf8.as_ <=? ?x] => eval_entry x end;
      rewrite ?len_cons; unfold utf8.locb, utf8.hicb;
      settle_ifs;
      (f_equal; bits_to_arith;
       rewrite (lor_disjoint _ (byteVal c1 mod 2 ^ 6 * 2 ^ 6) 12) by zlia;
       rewrite lor_disjoint with (k := 6); zlia).
  - pose proof (len_nonneg t). pose_byte_ranges.
    unfold utf8.DecodeRuneInString. cbv zeta.
    destruct (first_cases (byteVal c0) ltac:(lia)) as
      [[R E]|[[R E]|[[R E]|[[R E]|[[R E]|[[R E]|[[R E]|[[R E]|[R E]]]]]]]]];
      try (exfalso; lia);
      rewrite E; clear E;
      match goal with |- context [utf8.as_ <=? ?x] => eval_entry x end;
      rewrite ?len_cons; unfold utf8.locb, utf8.hicb;
      settle_ifs;
      (f_equal; bits_to_arith;
       rewrite (lor_disjoint _ (byteVal c1 mod 2 ^ 6 * 2 ^ 12) 18) by zlia;
       rewrite (lor_disjoint _ (byteVal c2 mod 2 ^ 6 * 2 ^ 6) 12) by zlia;
       rewrite lor_disjoint with (k := 6); zlia).
Qed.

Lemma Decoded_tail (s : string) (r w : Z) (x : string) :
  Decoded s r w -> (w = 1 -> r <> utf8.RuneError) ->
  Decoded (firstn (Z.to_nat w) s ++ x) r w.
Proof.
  intros D NE. destruct D;
    change (Z.to_nat 1) with 1%nat; change (Z.to_nat 2) with 2%nat;
    change (Z.to_nat 3) with 3%nat; change (Z.to_nat 4) with 4%nat;
    cbn [firstn append];
    [ now apply DecSelf | exfalso; now apply NE
    | now apply Dec2 | now apply Dec3 | now apply Dec4 ].
Qed.

(** A well-formed sequence decodes the same whatever follows it. *)
Lemma decode_app_valid (c : ascii) (t x : string) (r w : Z) :
  utf8.DecodeRuneInString (String c t) = (r, w) ->
  (w = 1 -> r <> utf8.RuneError) ->
  utf8.DecodeRuneInString (String c t ++ x) = (r, w) /\
  skipn (Z.to_nat w) (String c t ++ x)
  = skipn (Z.to_nat w) (String c t) ++ x.
Proof.
  intros E NE.
  pose proof (DecodeRuneInString_Decoded c t) as D. rewrite E in D.
  cbn [fst snd] in D.
  destruct (Decoded_width _ _ _ D) as [W L].
  assert (S : skipn (Z.to_nat w) (String c t ++ x)
              = skipn (Z.to_nat w) (String c t) ++ x)
    by (apply skipn_app; unfold len in L; lia).
  split; [|exact S].
  rewrite <- (firstn_skipn (Z.to_nat w) (String c t)) at 1.
  rewrite append_assoc.
  apply Decoded_decode; [|exact NE].
  now apply Decoded_tail.
Qed.

(** ** The shape of what one turn appends *)

Ltac len_simpl := rewrite ?len_cons; change (len EmptyString) with 0.

Lemma lowerhexAt_graphic (i : Z) :
  0 <= i < 16 -> 0x30 <= byteVal (lowerhexAt i) <= 0x66.
Proof.
  intros I.
  assert (A : forallb (fun n =>
                (0x30 <=? byteVal (lowerhexAt (Z.of_nat n)))
                && (byteVal (lowerhexAt (Z.of_nat n)) <=? 0x66))
                (seq 0 16) = true) by (vm_compute; reflexivity).
  rewrite forallb_forall in A. specialize (A (Z.to_nat i)).
  rewrite Z2Nat.id in A by lia.
  assert (In (Z.to_nat i) (seq 0 16)) as K by (apply in_seq; lia).
  apply A in K. apply andb_true_iff in K. lia.
Qed.

Lemma land15_range (x : Z) : 0 <= Z.land x 0xF < 16.
Proof.
  change 0xF with (2 ^ 4 - 1). rewrite land_mask by lia. zlia.
Qed.

Lemma asciiGraphic_app (x y : string) :
  asciiGraphic (x ++ y) = asciiGraphic x && asciiGraphic y.
Proof.
  induction x as [|a x IH]; cbn [append asciiGraphic]; [reflexivity|].
  now rewrite IH, andb_assoc.
Qed.

Lemma asciiGraphic_hexDigit (i : Z) :
  0 <= i < 16 -> asciiGraphic (str1 (lowerhexAt i)) = true.
Proof.
  intros I. pose proof (lowerhexAt_graphic i I). cbn [str1 asciiGraphic].
  rewrite andb_true_r. apply andb_true_iff. lia.
Qed.

Lemma appendHex_shape (r : Z) (shifts : list Z) :
  asciiGraphic (appendHex EmptyString r shifts) = true /\
  String.length (appendHex EmptyString r shifts) = List.length shifts.
Proof.
  induction shifts as [|s l [IH1 IH2]]; cbn [appendHex]; [split; reflexivity|].
  rewrite appendHex_app, asciiGraphic_app, length_append, IH1, IH2.
  cbn [append]. rewrite asciiGraphic_hexDigit by apply land15_range.
  split; reflexivity.
Qed.

(** What one turn appends is either an escape, made of graphic ASCII
    bytes and between [w] and [6 * w] bytes long, or the [w] bytes of a
    printable rune as they were read. *)
Lemma appendRune_cases (wide : Z -> bool) (c : ascii) (t : string)
    (r w : Z) :
  Decoded (String c t) r w ->
  (asciiGraphic (appendRune wide EmptyString r w c) = true /\
   w <= len (appendRune wide EmptyString r w c) <= 6 * w) \/
  (appendRune wide EmptyString r w c = firstn (Z.to_nat w) (String c t) /\
   (w = 1 -> r <> utf8.RuneError) /\ strconv.IsPrint wide r = true).
Proof.
  intros D. pose proof (Decoded_rune_range _ _ _ D) as RR.
  destruct (Decoded_width _ _ _ D) as [W _].
  pose proof (byteVal_range c) as B.
  unfold utf8.MaxRune in RR.
  unfold appendRune, str1. cbv zeta.
  change (byteVal dquote) with 34. change (byteVal backslash) with 92.
  assert (HB : forall buf,
            asciiGraphic (String backslash (String "x"
              (String (lowerhexAt (Z.shiftr (byteVal c) 4))
                (String (lowerhexAt (Z.land (byteVal c) 0xF)) buf))))
            = asciiGraphic buf).
  { intros buf. cbn [asciiGraphic].
    pose proof (lowerhexAt_graphic (Z.shiftr (byteVal c) 4)
                  ltac:(rewrite Z.shiftr_div_pow2 by lia; zlia)).
    pose proof (lowerhexAt_graphic _ (land15_range (byteVal c))).
    change (byteVal backslash) with 92. change (byteVal "x") with 120.
    repeat match goal with
    | |- context [?a && ?b] =>
      match a with
      | (_ <=? _) => replace a with true by lia
      | true && _ => cbn [andb]
      end
    end. reflexivity. }
  destruct ((w =? 1) && (r =? utf8.RuneError)) eqn:E1.
  { left. apply andb_true_iff in E1. cbn [append]. rewrite HB.
    split; [reflexivity|]. len_simpl; lia. }
  assert (NE : w = 1 -> r <> utf8.RuneError)
    by (apply andb_false_iff in E1; lia).
  destruct ((r =? 34) || (r =? 92)) eqn:E2.
  { left. apply orb_true_iff in E2.
    destruct (Decoded_self _ _ _ _ D ltac:(lia)) as [-> ->].
    cbn [append]. destruct E2 as [E2|E2]; apply Z.eqb_eq in E2; subst r;
      split; [reflexivity | len_simpl; lia | reflexivity | len_simpl; lia]. }
  destruct (strconv.IsPrint wide r) eqn:P.
  { right. cbn [append]. split; [|split; [exact NE | reflexivity]].
    now apply EncodeRune_firstn. }
  left.
  repeat match goal with
  | |- context [if ?b then _ else _] =>
    let E := fresh "E" in destruct b eqn:E
  end;
  try (destruct (Decoded_self _ _ _ _ D ltac:(lia)) as [-> ->]);
  try (cbn [append]; split; [reflexivity | len_simpl; lia]);
  try (exfalso; unfold utf8.MaxRune in *; lia).
  - cbn [append]. rewrite HB. split; [reflexivity | len_simpl; lia].
  - rewrite appendHex_app. cbn [append].
    destruct (appendHex_shape r [12; 8; 4; 0]) as [G L].
    cbn [asciiGraphic]. rewrite G. split; [reflexivity|].
    rewrite !len_cons. unfold len. rewrite L. cbn [List.length]. lia.
  - rewrite appendHex_app. cbn [append].
    destruct (appendHex_shape r [28; 24; 20; 16; 12; 8; 4; 0]) as [G L].
    cbn [asciiGraphic]. rewrite G. split; [reflexivity|].
    rewrite !len_cons. unfold len. rewrite L. cbn [List.length].
    assert (w = 4); [|lia].
    inversion D; subst; unfold utf8.RuneError in *; pose_byte_ranges; lia.
Qed.

(** ** No control byte, bounded size *)

Lemma noControl_app (x y : string) :
  noControl (x ++ y) = noControl x && noControl y.
Proof.
  induction x as [|a x IH]; cbn [append noControl]; [reflexivity|].
  now rewrite IH, andb_assoc.
Qed.

Lemma asciiGraphic_noControl (x : string) :
  asciiGraphic x = true -> noControl x = true.
Proof.
  induction x as [|a x IH]; cbn [asciiGraphic noControl]; [reflexivity|].
  rewrite !andb_true_iff. intros [[L U] G]. split; [|now apply IH].
  unfold isGraphic. apply andb_true_iff. split; [exact L|].
  apply negb_true_iff. lia.
Qed.

Lemma noControl_newlines (x : string) :
  noControl x = true -> newlines x = 0%nat.
Proof.
  induction x as [|a x IH]; cbn [noControl newlines]; [reflexivity|].
  rewrite andb_true_iff. intros [G N]. rewrite (IH N).
  destruct (Ascii.eqb a newline) eqn:E; [|reflexivity].
  apply Ascii.eqb_eq in E. subst a. discriminate G.
Qed.

Lemma isGraphic_high (c : ascii) : 0x80 <= byteVal c -> isGraphic c = true.
Proof.
  intros H. unfold isGraphic. apply andb_true_iff. split; [lia|].
  apply negb_true_iff. lia.
Qed.

Lemma IsPrint_ascii (wide : Z -> bool) (r : Z) :
  r < 0x80 -> strconv.IsPrint wide r = true -> 0x20 <= r <= 0x7E.
Proof.
  unfold strconv.IsPrint. intros R P.
  replace (r <=? 255) with true in P by lia.
  destruct ((32 <=? r) && (r <=? 126)) eqn:A; [lia|].
  replace (161 <=? r) with false in P by lia.
  discriminate P.
Qed.

Lemma noControl_printable (wide : Z -> bool) (s : string) (r w : Z) :
  Decoded s r w -> (w = 1 -> r <> utf8.RuneError) ->
  strconv.IsPrint wide r = true ->
  noControl (firstn (Z.to_nat w) s) = true.
Proof.
  intros D NE P. destruct D;
    change (Z.to_nat 1) with 1%nat; change (Z.to_nat 2) with 2%nat;
    change (Z.to_nat 3) with 3%nat; change (Z.to_nat 4) with 4%nat;
    cbn [firstn noControl]; rewrite ?isGraphic_high by lia;
    try reflexivity.
  - pose proof (IsPrint_ascii wide (byteVal c) ltac:(lia) P).
    rewrite andb_true_r. unfold isGraphic. apply andb_true_iff.
    split; [lia|]. apply negb_true_iff. lia.
Qed.

Lemma len_firstn (s : string) (r w : Z) :
  Decoded s r w -> len (firstn (Z.to_nat w) s) = w.
Proof.
  destruct 1; reflexivity.
Qed.

Lemma len_skipn (s : string) (r w : Z) :
  Decoded s r w -> len s = w + len (skipn (Z.to_nat w) s).
Proof.
  destruct 1;
    change (Z.to_nat 1) with 1%nat; change (Z.to_nat 2) with 2%nat;
    change (Z.to_nat 3) with 3%nat; change (Z.to_nat 4) with 4%nat;
    cbn [skipn]; rewrite !len_cons; lia.
Qed.

Lemma noControl_quoted (wide : Z -> bool) (s : string) :
  noControl (quoted wide s) = true.
Proof.
  induction s as [|c t IH] using scan_ind; [reflexivity|].
  pose proof (scanRune_Decoded c t) as D.
  rewrite quoted_cons, noControl_app, IH, andb_true_r.
  destruct (appendRune_cases wide c t _ _ D) as [[G _]|[E [NE P]]].
  - now apply asciiGraphic_noControl.
  - rewrite E. now apply (noControl_printable wide _ _ _ D).
Qed.

Lemma len_quoted (wide : Z -> bool) (s : string) :
  len s <= len (quoted wide s) <= 6 * len s.
Proof.
  induction s as [|c t IH] using scan_ind;
    [rewrite quoted_nil; change (len EmptyString) with 0; lia|].
  pose proof (scanRune_Decoded c t) as D.
  destruct (Decoded_width _ _ _ D) as [W _].
  rewrite quoted_cons, len_append, (len_skipn _ _ _ D).
  destruct (appendRune_cases wide c t _ _ D) as [[_ L]|[E _]].
  - lia.
  - rewrite E, (len_firstn _ _ _ D). lia.
Qed.

(** X4: the text appended for any input holds no ASCII control byte and
    in particular no newline: bytes below space and DEL only ever appear
    escaped. *)
Theorem appendQuoted_no_control (wide : Z -> bool) (buf s : string) :
  exists out,
    appendQuoted wide buf s = Some (buf ++ out) /\
    noControl out = true /\ newlines out = 0%nat.
Proof.
  exists (quoted wide s). split; [apply appendQuoted_quoted|].
  pose proof (noControl_quoted wide s) as N.
  split; [exact N | now apply noControl_newlines].
Qed.

(** X5: the appended text is at least as long as the input and at most
    six times as long. *)
Theorem appendQuoted_size (wide : Z -> bool) (buf s : string) :
  exists out,
    appendQuoted wide buf s = Some (buf ++ out) /\
    len s <= len out <= 6 * len s.
Proof.
  exists (quoted wide s). split; [apply appendQuoted_quoted|].
  apply len_quoted.
Qed.

(** X7: what is appended does not depend on the buffer, and the buffer
    is kept as a prefix of the result. *)
Theorem appendQuoted_buffer_independent (wide : Z -> bool)
    (buf1 buf2 s : string) :
  exists out,
    appendQuoted wide buf1 s = Some (buf1 ++ out) /\
    appendQuoted wide buf2 s = Some (buf2 ++ out).
Proof.
  exists (quoted wide s). split; apply appendQuoted_quoted.
Qed.

(** ** Control bytes and unprintable runes *)

(** X1: each of the seven control bytes with a mnemonic (bell, backspace,
    form feed, newline, carriage return, tab, vertical tab) is written as
    a backslash and its letter, and the scan goes on with the next
    byte. *)
Theorem appendQuoted_mnemonic (wide : Z -> bool) (buf : string)
    (c k : ascii) (t : string) :
  mnemonic c = Some k ->
  appendQuoted wide buf (String c t)
  = appendQuoted wide (buf ++ String backslash (str1 k)) t.
Proof.
  unfold mnemonic. cbv zeta. intros M.
  rewrite appendQuoted_cons.
  repeat match type of M with
  | (if ?b then _ else _) = _ =>
    let E := fresh "E" in
    destruct b eqn:E;
    [ apply Z.eqb_eq in E; injection M as <-;
      match type of E with
      | byteVal c = ?n => assert (c = toByte n) as ->
          by (symmetry; apply toByte_eq; symmetry; exact E)
      end; reflexivity
    | ]
  end.
  discriminate M.
Qed.

Lemma appendQuoted_mnemonic_witness :
  mnemonic "010" = Some "n"%char /\
  appendQuoted latin1Only ">" (String "010" "GET")
  = Some (">" ++ String backslash "nGET").
Proof.
  split; [reflexivity|].
  rewrite (appendQuoted_mnemonic latin1Only ">" "010" "n" "GET" eq_refl).
  vm_compute. reflexivity.
Defined.

(** X2: any other byte below space is written as a backslash, [x] and
    the two lowercase hex digits of its value, and the scan goes on with
    the next byte. *)
Theorem appendQuoted_control_hex (wide : Z -> bool) (buf : string)
    (c : ascii) (t : string) :
  byteVal c < 0x20 ->
  mnemonic c = None ->
  exists h1 h2,
    String.get (Z.to_nat (byteVal c / 16)) lowerhex = Some h1 /\
    String.get (Z.to_nat (byteVal c mod 16)) lowerhex = Some h2 /\
    appendQuoted wide buf (String c t)
    = appendQuoted wide
        (buf ++ String backslash (String "x" (String h1 (str1 h2)))) t.
Proof.
  intros L M. pose proof (byteVal_range c) as B.
  exists (lowerhexAt (byteVal c / 16)), (lowerhexAt (byteVal c mod 16)).
  split; [apply lowerhex_get; zlia|].
  split; [apply lowerhex_get; zlia|].
  rewrite appendQuoted_cons, scanRune_eq, DecodeRuneInString_self by lia.
  cbn [fst snd]. change (skipn (Z.to_nat 1) (String c t)) with t.
  f_equal. unfold appendRune. cbv zeta.
  unfold mnemonic in M. cbv zeta in M.
  replace ((1 =? 1) && (byteVal c =? utf8.RuneError)) with false
    by (unfold utf8.RuneError; lia).
  replace ((byteVal c =? byteVal dquote) || (byteVal c =? byteVal backslash))
    with false by (change (byteVal dquote) with 34;
                   change (byteVal backslash) with 92; lia).
  replace (strconv.IsPrint wide (byteVal c)) with false
    by (unfold strconv.IsPrint;
        replace (byteVal c <=? 255) with true by lia;
        replace (32 <=? byteVal c) with false by lia;
        replace (161 <=? byteVal c) with false by lia; reflexivity).
  repeat match type of M with
  | (if ?b then _ else _) = _ =>
    let E := fresh "E" in destruct b eqn:E; [discriminate M|]
  end.
  replace (byteVal c <? 32) with true by lia.
  rewrite Z.shiftr_div_pow2 by lia.
  change 0xF with (2 ^ 4 - 1). rewrite land_mask by lia.
  unfold str1. now rewrite !append_assoc.
Qed.

Lemma appendQuoted_control_hex_witness :
  byteVal "027" < 0x20 /\ mnemonic "027" = None /\
  appendQuoted latin1Only ">" (String "027" "[0m")
  = Some (">" ++ String backslash "x1b[0m").
Proof.
  split; [vm_compute; reflexivity|]. split; [reflexivity|].
  destruct (appendQuoted_control_hex latin1Only ">" "027" "[0m")
    as [h1 [h2 [G1 [G2 H]]]]; [vm_compute; reflexivity | reflexivity |].
  vm_compute in G1, G2. injection G1 as <-. injection G2 as <-.
  rewrite H. vm_compute. reflexivity.
Defined.



(** ** Valid text and concatenation *)

Lemma validLoop_fuel (f1 : nat) :
  forall f2 s, (String.length s <= f1)%nat -> (String.length s <= f2)%nat ->
  validLoop f1 s = validLoop f2 s.
Proof.
  induction f1 as [|f1 IH]; intros f2 [|c t] L1 L2;
    try (destruct f2; reflexivity); cbn [String.length] in *; try lia.
  destruct f2 as [|f2]; [lia|]. cbn [validLoop].
  pose proof (DecodeRuneInString_Decoded c t) as D.
  destruct (utf8.DecodeRuneInString (String c t)) as [r w].
  cbn [fst snd] in D. apply Decoded_width in D.
  f_equal. apply IH; rewrite length_skipn; cbn [String.length]; lia.
Qed.

Lemma ValidString_cons (c : ascii) (t : string) :
  ValidString (String c t)
  = (let (r, w) := utf8.DecodeRuneInString (String c t) in
     negb ((r =? utf8.RuneError) && (w =? 1))
     && ValidString (skipn (Z.to_nat w) (String c t))).
Proof.
  unfold ValidString at 1. cbn [String.length validLoop].
  pose proof (DecodeRuneInString_Decoded c t) as D.
  destruct (utf8.DecodeRuneInString (String c t)) as [r w].
  cbn [fst snd] in D. apply Decoded_width in D.
  f_equal. unfold ValidString.
  apply validLoop_fuel; rewrite ?length_skipn; cbn [String.length]; lia.
Qed.

Lemma ValidString_head (c : ascii) (t : string) :
  ValidString (String c t) = true ->
  exists r w,
    utf8.DecodeRuneInString (String c t) = (r, w) /\
    (w = 1 -> r <> utf8.RuneError) /\
    ValidString (skipn (Z.to_nat w) (String c t)) = true.
Proof.
  rewrite ValidString_cons.
  destruct (utf8.DecodeRuneInString (String c t)) as [r w].
  rewrite andb_true_iff, negb_true_iff, andb_false_iff.
  intros [N V]. exists r, w. split; [reflexivity|]. split; [lia | exact V].
Qed.

Lemma ValidString_app (x y : string) :
  ValidString x = true -> ValidString y = true ->
  ValidString (x ++ y) = true.
Proof.
  intros X Y. induction x as [|c t IH] using scan_ind; [exact Y|].
  rewrite scanRune_eq in IH.
  destruct (ValidString_head c t X) as [r [w [E [NE V]]]].
  rewrite E in IH. cbn [fst snd] in IH.
  destruct (decode_app_valid c t y r w E NE) as [E' S].
  change (String c t ++ y) with (String c (t ++ y)) in *.
  rewrite ValidString_cons, E', S.
  rewrite (IH V), andb_true_r. apply negb_true_iff, andb_false_iff. lia.
Qed.

Lemma ValidString_ascii (x : string) :
  asciiGraphic x = true -> ValidString x = true.
Proof.
  induction x as [|a x IH]; [reflexivity|].
  cbn [asciiGraphic]. rewrite !andb_true_iff. intros [[L U] G].
  rewrite ValidString_cons, DecodeRuneInString_self by lia.
  change (skipn (Z.to_nat 1) (String a x)) with x.
  rewrite (IH G), andb_true_r.
  apply negb_true_iff, andb_false_iff. left. unfold utf8.RuneError. lia.
Qed.

Lemma ValidString_firstn (s : string) (r w : Z) :
  Decoded s r w -> (w = 1 -> r <> utf8.RuneError) ->
  ValidString (firstn (Z.to_nat w) s) = true.
Proof.
  intros D NE.
  pose proof (Decoded_decode _ _ _
                (Decoded_tail s r w EmptyString D NE) NE) as E.
  rewrite append_nil_r in E.
  assert (S : skipn (Z.to_nat w) (firstn (Z.to_nat w) s) = EmptyString)
    by (destruct D; reflexivity).
  assert (F : exists a u, firstn (Z.to_nat w) s = String a u)
    by (destruct D; eexists; eexists; reflexivity).
  destruct F as [a [u F]]. rewrite F in *.
  rewrite ValidString_cons, E, S.
  change (ValidString EmptyString) with true. rewrite andb_true_r.
  apply negb_true_iff, andb_false_iff. lia.
Qed.

Lemma ValidString_quoted (wide : Z -> bool) (s : string) :
  ValidString (quoted wide s) = true.
Proof.
  induction s as [|c t IH] using scan_ind; [reflexivity|].
  pose proof (scanRune_Decoded c t) as D.
  rewrite quoted_cons. apply ValidString_app; [|exact IH].
  destruct (appendRune_cases wide c t _ _ D) as [[G _]|[E [NE _]]].
  - now apply ValidString_ascii.
  - rewrite E. now apply (ValidString_firstn _ _ _ D).
Qed.

(** X15: whatever the input, even one that is not valid UTF-8, the text
    that is appended is valid UTF-8, and so is the whole result when the
    buffer was. *)
Theorem appendQuoted_valid_output (wide : Z -> bool) (buf s : string) :
  exists out,
    appendQuoted wide buf s = Some (buf ++ out) /\
    ValidString out = true /\
    (ValidString buf = true -> ValidString (buf ++ out) = true).
Proof.
  exists (quoted wide s). split; [apply appendQuoted_quoted|].
  pose proof (ValidString_quoted wide s) as V.
  split; [exact V|]. intros B. now apply ValidString_app.
Qed.

Lemma quoted_app_valid (wide : Z -> bool) (s1 s2 : string) :
  ValidString s1 = true ->
  quoted wide (s1 ++ s2) = quoted wide s1 ++ quoted wide s2.
Proof.
  intros V. induction s1 as [|c t IH] using scan_ind; [reflexivity|].
  rewrite scanRune_eq in IH.
  destruct (ValidString_head c t V) as [r [w [E [NE V']]]].
  rewrite E in IH. cbn [fst snd] in IH.
  destruct (decode_app_valid c t s2 r w E NE) as [E' S].
  rewrite (quoted_cons wide c t).
  change (String c t ++ s2) with (String c (t ++ s2)) in *.
  rewrite quoted_cons, !scanRune_eq, E, E'. cbn [fst snd].
  now rewrite S, (IH V'), append_assoc.
Qed.

(** X6: escaping a concatenation is escaping its two parts one after the
    other, provided the cut does not fall inside a rune: the first part
    is valid UTF-8, or the second part starts with a byte below
    [RuneSelf]. *)
Theorem appendQuoted_app_parts (wide : Z -> bool) (buf s1 s2 : string) :
  ValidString s1 = true \/
  (exists a rest, s2 = String a rest /\ byteVal a < utf8.RuneSelf) ->
  exists o1 o2,
    appendQuoted wide buf s1 = Some (buf ++ o1) /\
    appendQuoted wide (buf ++ o1) s2 = Some (buf ++ o1 ++ o2) /\
    appendQuoted wide buf (s1 ++ s2) = Some (buf ++ o1 ++ o2).
Proof.
  intros H. exists (quoted wide s1), (quoted wide s2).
  split; [apply appendQuoted_quoted|].
  split; [now rewrite appendQuoted_quoted, append_assoc|].
  rewrite appendQuoted_quoted. do 2 f_equal.
  destruct H as [V|[a [rest [-> A]]]].
  - now apply quoted_app_valid.
  - now apply quoted_app_ascii.
Qed.

Lemma appendQuoted_app_parts_witness :
  ValidString (String "195" (String "169" "t")) = true /\
  exists o1 o2,
    appendQuoted latin1Only ">" (String "195" (String "169" "t"))
    = Some (">" ++ o1) /\
    appendQuoted latin1Only (">" ++ o1) (String "169" "!")
    = Some (">" ++ o1 ++ o2) /\
    appendQuoted latin1Only ">"
      (String "195" (String "169" "t") ++ String "169" "!")
    = Some (">" ++ o1 ++ o2).
Proof.
  split; [vm_compute; reflexivity|].
  apply (appendQuoted_app_parts latin1Only ">"
           (String "195" (String "169" "t")) (String "169" "!")).
  left. vm_compute. reflexivity.
Defined.

(** ** Encoding and decoding runes *)

Lemma Decoded_ValidRune (s : string) (r w : Z) :
  Decoded s r w -> ValidRune r = true.
Proof.
  intros D. unfold ValidRune, utf8.surrogateMin, utf8.surrogateMax,
    utf8.MaxRune.
  assert (0 <= r < 0xD800 \/ 0xDFFF < r <= 0x10FFFF);
    [|apply orb_true_iff; rewrite !andb_true_iff; lia].
  destruct D; unfold utf8.RuneError; pose_byte_ranges; lia.
Qed.

(** X13: encoding the rune read at the head of a string gives back the
    bytes it was read from, as many as its width, unless the read
    reported an invalid encoding; the rune read is a code point that is
    no surrogate. *)
Theorem EncodeRune_after_decode (c : ascii) (t : string) (r w : Z) :
  utf8.DecodeRuneInString (String c t) = (r, w) ->
  (w = 1 -> r <> utf8.RuneError) ->
  String c t = utf8.EncodeRune r ++ skipn (Z.to_nat w) (String c t) /\
  len (utf8.EncodeRune r) = w /\
  ValidRune r = true.
Proof.
  intros E NE.
  pose proof (DecodeRuneInString_Decoded c t) as D. rewrite E in D.
  cbn [fst snd] in D.
  destruct (EncodeRune_Decoded _ _ _ D NE) as [S L].
  split; [exact S|]. split; [exact L|].
  now apply (Decoded_ValidRune _ _ _ D).
Qed.

Lemma EncodeRune_after_decode_witness :
  utf8.DecodeRuneInString (String "226" (String "130" (String "172" "!")))
  = (0x20AC, 3) /\
  String "226" (String "130" (String "172" "!"))
  = utf8.EncodeRune 0x20AC ++ "!" /\
  len (utf8.EncodeRune 0x20AC) = 3 /\
  ValidRune 0x20AC = true.
Proof.
  split; [reflexivity|].
  apply (EncodeRune_after_decode "226" (String "130" (String "172" "!"))
           0x20AC 3); [reflexivity | lia].
Defined.

Ltac byte_value n :=
  rewrite ?byteVal_toByte;
  unfold utf8.t2, utf8.t3, utf8.t4, utf8.tx;
  bits_to_arith; rewrite (lor_disjoint _ _ n) by zlia; zlia.

(** X14: decoding the encoding of a rune that is a code point and no
    surrogate gives the rune back, with the length of the encoding as
    width, whatever follows; the encoding has one to four bytes. *)
Theorem DecodeRuneInString_after_encode (r : Z) (t : string) :
  ValidRune r = true ->
  utf8.DecodeRuneInString (utf8.EncodeRune r ++ t)
  = (r, len (utf8.EncodeRune r)) /\
  1 <= len (utf8.EncodeRune r) <= 4.
Proof.
  unfold ValidRune, utf8.surrogateMin, utf8.surrogateMax, utf8.MaxRune.
  rewrite orb_true_iff, !andb_true_iff. intros V.
  assert (R : 0 <= r < 0xD800 \/ 0xDFFF < r <= 0x10FFFF) by lia. clear V.
  unfold utf8.EncodeRune. cbv zeta.
  rewrite (Z.mod_small r) by lia.
  unfold utf8.rune1Max, utf8.rune2Max, utf8.rune3Max, utf8.MaxRune,
    utf8.surrogateMin, utf8.surrogateMax.
  destruct (r <=? 2 ^ 7 - 1) eqn:E1.
  { unfold str1. cbn [append]. split; [|len_simpl; lia].
    assert (B : byteVal (toByte r) = r)
      by (rewrite byteVal_toByte; zlia).
    rewrite DecodeRuneInString_self by lia. now rewrite B. }
  destruct (r <=? 2 ^ 11 - 1) eqn:E2.
  { set (c0 := toByte (Z.lor utf8.t2 _)). set (c1 := toByte (Z.lor utf8.tx _)).
    assert (B0 : byteVal c0 = 192 + r / 64) by (subst c0; byte_value 5).
    assert (B1 : byteVal c1 = 128 + r mod 64) by (subst c1; byte_value 6).
    cbn [append]. split; [|len_simpl; lia].
    rewrite (Decoded_decode _ _ _ (Dec2 c0 c1 t ltac:(zlia) ltac:(zlia)))
      by lia.
    len_simpl. f_equal. rewrite B0, B1. zlia. }
  replace ((1114111 <? r) || (55296 <=? r) && (r <=? 57343)) with false
    by (symmetry; apply orb_false_iff; rewrite andb_false_iff; lia).
  destruct (r <=? 2 ^ 16 - 1) eqn:E3.
  { unfold utf8.encode3.
    set (c0 := toByte (Z.lor utf8.t3 _)).
    set (c1 := toByte (Z.lor utf8.tx
                         (Z.land (byteVal (toByte (Z.shiftr r 6))) _))).
    set (c2 := toByte (Z.lor utf8.tx _)).
    assert (B0 : byteVal c0 = 224 + r / 4096) by (subst c0; byte_value 4).
    assert (B1 : byteVal c1 = 128 + (r / 64) mod 64)
      by (subst c1; byte_value 6).
    assert (B2 : byteVal c2 = 128 + r mod 64) by (subst c2; byte_value 6).
    cbn [append]. split; [|len_simpl; lia].
    rewrite (Decoded_decode _ _ _
               (Dec3 c0 c1 c2 t ltac:(zlia) ltac:(zlia) ltac:(zlia)
                  ltac:(zlia) ltac:(zlia))) by lia.
    len_simpl. f_equal. rewrite B0, B1, B2. zlia. }
  set (c0 := toByte (Z.lor utf8.t4 _)).
  set (c1 := toByte (Z.lor utf8.tx
                       (Z.land (byteVal (toByte (Z.shiftr r 12))) _))).
  set (c2 := toByte (Z.lor utf8.tx
                       (Z.land (byteVal (toByte (Z.shiftr r 6))) _))).
  set (c3 := toByte (Z.lor utf8.tx _)).
  assert (B0 : byteVal c0 = 240 + r / 262144) by (subst c0; byte_value 3).
  assert (B1 : byteVal c1 = 128 + (r / 4096) mod 64)
    by (subst c1; byte_value 6).
  assert (B2 : byteVal c2 = 128 + (r / 64) mod 64)
    by (subst c2; byte_value 6).
  assert (B3 : byteVal c3 = 128 + r mod 64) by (subst c3; byte_value 6).
  cbn [append]. split; [|len_simpl; lia].
  rewrite (Decoded_decode _ _ _
             (Dec4 c0 c1 c2 c3 t ltac:(zlia) ltac:(zlia) ltac:(zlia)
                ltac:(zlia) ltac:(zlia) ltac:(zlia))) by lia.
  len_simpl. f_equal. rewrite B0, B1, B2, B3. zlia.
Qed.

Lemma DecodeRuneInString_after_encode_witness :
  ValidRune 0x1F600 = true /\
  utf8.DecodeRuneInString (utf8.EncodeRune 0x1F600 ++ "!") = (0x1F600, 4).
Proof.
  split; [reflexivity|].
  apply (DecodeRuneInString_after_encode 0x1F600 "!"). reflexivity.
Defined.

(** ** The request target *)

Lemma append_empty (x y : string) :
  x ++ y = EmptyString -> x = EmptyString /\ y = EmptyString.
Proof.
  destruct x; cbn [append]; [auto | discriminate].
Qed.

Lemma RequestURI_nonempty (u : url.URL) : url.RequestURI u <> EmptyString.
Proof.
  unfold url.RequestURI. cbv zeta.
  assert (N : (if String.eqb (url.Opaque u) EmptyString
               then if String.eqb (url.escapedPath u) EmptyString
                    then "/" else url.escapedPath u
               else if String.prefix "//" (url.Opaque u)
                    then url.Scheme u ++ ":" ++ url.Opaque u
                    else url.Opaque u) <> EmptyString).
  { destruct (String.eqb_spec (url.Opaque u) EmptyString) as [O|O].
    - destruct (String.eqb_spec (url.escapedPath u) EmptyString) as [P|P];
        [discriminate | exact P].
    - destruct (String.prefix "//" (url.Opaque u)); [|exact O].
      intros H. apply append_empty in H. destruct H as [_ H].
      discriminate H. }
  destruct (url.ForceQuery u || negb (String.eqb (url.RawQuery u) EmptyString));
    [|exact N].
  intros H. apply append_empty in H. now destruct H.
Qed.

(** X8: the target of the request line is never empty, and neither is
    what the escaping makes of it: an empty request URI (or an empty host
    on CONNECT over HTTP/2) is replaced by the request URI of the parsed
    URL, which is at least a slash. *)
Theorem requestTarget_nonempty (wide : Z -> bool) (req : http.Request)
    (buf : string) :
  requestTarget req <> EmptyString /\
  exists out,
    appendQuoted wide buf (requestTarget req) = Some (buf ++ out) /\
    out <> EmptyString.
Proof.
  assert (T : requestTarget req <> EmptyString).
  { unfold requestTarget. cbv zeta.
    match goal with
    | |- (if String.eqb ?u EmptyString then _ else _) <> _ =>
      destruct (String.eqb_spec u EmptyString) as [E|E];
        [apply RequestURI_nonempty | exact E]
    end. }
  split; [exact T|].
  exists (quoted wide (requestTarget req)).
  split; [apply appendQuoted_quoted|].
  pose proof (len_quoted wide (requestTarget req)) as L.
  intros Q. rewrite Q in L. change (len EmptyString) with 0 in L.
  destruct (requestTarget req) as [|a s]; [now apply T|].
  rewrite len_cons in L. pose proof (len_nonneg s). lia.
Qed.

(** ** strconv.Itoa *)

Lemma isDigit_not_minus (c : ascii) :
  isDigit c = true -> Ascii.eqb c "-" = false.
Proof.
  intros D. apply Ascii.eqb_neq. intros ->. discriminate D.
Qed.

(** X16: the decimal text of an integer reads back as that integer; it
    is a minus sign for a negative number, then the digits of the
    absolute value. *)
Theorem Itoa_atoi (i : Z) :
  atoi (itoa.Itoa i) = i /\
  itoa.Itoa i
  = (if i <? 0 then "-" else EmptyString) ++ itoa.Itoa (Z.abs i) /\
  allDigits (itoa.Itoa (Z.abs i)) = true.
Proof.
  unfold itoa.Itoa. replace (Z.abs i <? 0) with false by lia.
  destruct (i <? 0) eqn:S.
  - destruct (formatUint_spec (- i) ltac:(lia)) as [D [V N]].
    replace (Z.abs i) with (- i) by lia.
    split; [|split; [reflexivity | exact D]].
    cbn [atoi]. change (Ascii.eqb "-" "-") with true. cbv iota. lia.
  - destruct (formatUint_spec i ltac:(lia)) as [D [V N]].
    replace (Z.abs i) with i by lia.
    split; [|split; [reflexivity | exact D]].
    destruct (itoa.formatUint i) as [|c t] eqn:F;
      [cbn [String.length] in N; lia|].
    cbn [atoi]. cbn [allDigits] in D. apply andb_true_iff in D.
    destruct D as [D _]. now rewrite (isDigit_not_minus c D).
Qed.

(** ** The host of the peer address *)

Lemma hasByte_app (c : ascii) (x y : string) :
  hasByte c (x ++ y) = hasByte c x || hasByte c y.
Proof.
  induction x as [|a x IH]; cbn [append hasByte]; [reflexivity|].
  now rewrite IH, orb_assoc.
Qed.

Lemma indexFrom_spec (c : ascii) (s : string) :
  forall i,
  (net.indexFrom s c i = -1 /\ hasByte c s = false) \/
  exists pre post,
    s = pre ++ String c post /\ net.indexFrom s c i = i + len pre /\
    hasByte c pre = false.
Proof.
  induction s as [|a r IH]; intros i; cbn [net.indexFrom hasByte].
  - left. split; reflexivity.
  - destruct (Ascii.eqb_spec a c) as [->|N].
    + right. exists EmptyString, r. repeat split.
      change (len EmptyString) with 0. lia.
    + destruct (IH (i + 1)) as [[E H]|[pre [post [-> [E H]]]]].
      * left. split; [exact E | exact H].
      * right. exists (String a pre), post. cbn [append hasByte].
        rewrite len_cons, E, H.
        apply Ascii.eqb_neq in N. rewrite N. repeat split. lia.
Qed.

Lemma lastFrom_spec (c : ascii) (s : string) :
  forall i f,
  (net.lastFrom s c i f = f /\ hasByte c s = false) \/
  exists pre post,
    s = pre ++ String c post /\ net.lastFrom s c i f = i + len pre /\
    hasByte c post = false.
Proof.
  induction s as [|a r IH]; intros i f; cbn [net.lastFrom hasByte].
  - left. split; reflexivity.
  - destruct (Ascii.eqb_spec a c) as [->|N].
    + right. destruct (IH (i + 1) i) as [[E H]|[pre [post [-> [E H]]]]].
      * exists EmptyString, r. repeat split; [|exact H].
        rewrite E. change (len EmptyString) with 0. lia.
      * exists (String c pre), post. cbn [append]. rewrite len_cons, E.
        repeat split; [lia | exact H].
    + destruct (IH (i + 1) f) as [[E H]|[pre [post [-> [E H]]]]].
      * left. split; [exact E | exact H].
      * right. exists (String a pre), post. cbn [append].
        rewrite len_cons, E. repeat split; [lia | exact H].
Qed.

Lemma substring_all (x : string) : substring 0 (String.length x) x = x.
Proof.
  induction x as [|a x IH]; cbn [substring String.length]; [reflexivity|].
  now rewrite IH.
Qed.

Lemma substring_head (m y : string) :
  substring 0 (String.length m) (m ++ y) = m.
Proof.
  induction m as [|a m IH]; cbn [append substring String.length].
  - destruct y; reflexivity.
  - now rewrite IH.
Qed.

Lemma substring_skip (x : string) :
  forall n y, substring (String.length x) n (x ++ y) = substring 0 n y.
Proof.
  induction x as [|a x IH]; intros n y; cbn [append String.length substring];
    [reflexivity | apply IH].
Qed.

(** The slice between two cuts of a string in three parts. *)
Lemma slice_mid (x m y : string) :
  net.slice (x ++ m ++ y) (len x) (len x + len m) = m.
Proof.
  unfold net.slice, len.
  replace (Z.to_nat (Z.of_nat (String.length x) + Z.of_nat (String.length m)
                     - Z.of_nat (String.length x)))
    with (String.length m) by lia.
  rewrite Nat2Z.id, substring_skip. apply substring_head.
Qed.

Lemma isByteAt_0 (s : string) (c : ascii) :
  net.isByteAt s 0 c = true -> exists t, s = String c t.
Proof.
  unfold net.isByteAt. change (Z.to_nat 0) with 0%nat.
  destruct s as [|a t]; cbn [String.get]; [discriminate|].
  intros E. apply Ascii.eqb_eq in E. subst a. now exists t.
Qed.

Lemma append_same_length (x x' y y' : string) :
  x ++ y = x' ++ y' -> len x = len x' -> x = x' /\ y = y'.
Proof.
  revert x'. induction x as [|a x IH]; intros [|a' x'] E L;
    rewrite ?len_cons in L; change (len EmptyString) with 0 in L;
    try (pose proof (len_nonneg x)); try (pose proof (len_nonneg x'));
    try lia.
  - split; [reflexivity | exact E].
  - cbn [append] in E. injection E as -> E.
    destruct (IH x' E ltac:(lia)) as [-> ->]. split; reflexivity.
Qed.

(** A successful split cuts the address at its last colon, and strips
    the brackets of a bracketed host. *)
Lemma SplitHostPort_Ok (a h p : string) :
  net.SplitHostPort a = Ok (h, p) ->
  (a = h ++ ":" ++ p \/ a = "[" ++ h ++ "]:" ++ p) /\
  hasByte ":" p = false.
Proof.
  unfold net.SplitHostPort, net.last, net.IndexByteString. cbv zeta.
  destruct (lastFrom_spec ":" a 0 (-1)) as [[E _]|[pre [post [A [E P]]]]];
    rewrite E; [discriminate|].
  pose proof (len_nonneg pre) as Lpre.
  replace (0 + len pre <? 0) with false by lia.
  assert (Port : net.slice a (0 + len pre + 1) (len a) = post).
  { subst a.
    replace (pre ++ String ":" post)
      with ((pre ++ ":") ++ post ++ EmptyString)
      by (rewrite append_nil_r, append_assoc; reflexivity).
    replace (0 + len pre + 1) with (len (pre ++ ":"))
      by (rewrite len_append; reflexivity).
    replace (len ((pre ++ ":") ++ post ++ EmptyString))
      with (len (pre ++ ":") + len post)
      by (rewrite !len_append; change (len EmptyString) with 0; lia).
    apply slice_mid. }
  rewrite Port.
  destruct (net.isByteAt a 0 "[") eqn:B.
  - destruct (isByteAt_0 _ _ B) as [a' A'].
    destruct (indexFrom_spec "]" a 0) as [[I _]|[pre2 [post2 [A2 [I H2]]]]];
      rewrite I; [discriminate|].
    pose proof (len_nonneg pre2) as Lpre2.
    replace (0 + len pre2 <? 0) with false by lia.
    destruct (0 + len pre2 + 1 =? len a); [discriminate|].
    destruct (0 + len pre2 + 1 =? 0 + len pre) eqn:EI;
      [|destruct (net.isByteAt a (0 + len pre2 + 1) ":"); discriminate].
    destruct pre2 as [|b h'];
      [rewrite A' in A2; cbn [append] in A2; discriminate A2|].
    assert (b = "["%char) as ->
      by (rewrite A' in A2; cbn [append] in A2; now injection A2).
    assert (Host : net.slice a 1 (0 + len (String "[" h')) = h').
    { rewrite A2. change (String "[" h' ++ String "]" post2)
        with ("[" ++ h' ++ String "]" post2).
      rewrite len_cons. replace (0 + (1 + len h')) with (len "[" + len h')
        by (change (len "[") with 1; lia).
      change 1 with (len "[") at 1. apply slice_mid. }
    rewrite Host.
    destruct (0 <=? _); [discriminate|].
    destruct (0 <=? _); [discriminate|].
    intros K. injection K as <- <-. split; [|exact P].
    right.
    assert (S : (String "[" h' ++ "]") ++ post2 = pre ++ String ":" post)
      by (rewrite append_assoc; cbn [append]; cbn [append] in A2;
          rewrite <- A2; exact A).
    apply append_same_length in S;
      [|rewrite len_append; change (len "]") with 1; lia].
    destruct S as [S1 S2]. rewrite A, <- S1. cbn [append].
    now rewrite append_assoc.
  - assert (Host : net.slice a 0 (0 + len pre) = pre).
    { rewrite A. change 0 with (len EmptyString) at 1 2.
      change (pre ++ String ":" post)
        with (EmptyString ++ pre ++ String ":" post).
      apply slice_mid. }
    rewrite Host.
    destruct (0 <=? _); [discriminate|].
    destruct (0 <=? _); [discriminate|].
    destruct (0 <=? _); [discriminate|].
    intros K. injection K as <- <-. split; [|exact P].
    left. exact A.
Qed.

Lemma remoteHost_cases (req : http.Request) :
  remoteHost req = http.RemoteAddr req \/
  exists p,
    hasByte ":" p = false /\
    (http.RemoteAddr req = remoteHost req ++ ":" ++ p \/
     http.RemoteAddr req = "[" ++ remoteHost req ++ "]:" ++ p).
Proof.
  unfold remoteHost.
  destruct (net.SplitHostPort (http.RemoteAddr req)) as [[h p]|why] eqn:S;
    [|now left].
  right. exists p. apply SplitHostPort_Ok in S. tauto.
Qed.

(** X9: a peer address without any colon is logged whole as the host. *)
Theorem remoteHost_no_colon (req : http.Request) :
  hasByte ":" (http.RemoteAddr req) = false ->
  remoteHost req = http.RemoteAddr req.
Proof.
  intros H. unfold remoteHost, net.SplitHostPort, net.last. cbv zeta.
  destruct (lastFrom_spec ":" (http.RemoteAddr req) 0 (-1))
    as [[E _]|[pre [post [A _]]]].
  - rewrite E. reflexivity.
  - rewrite A, hasByte_app in H. cbn [hasByte] in H.
    change (Ascii.eqb ":" ":") with true in H.
    rewrite orb_true_r in H. discriminate H.
Qed.

Lemma remoteHost_no_colon_witness :
  hasByte ":" "@" = false /\
  remoteHost
    {| http.Method := "GET";
       http.URL := {| url.Scheme := EmptyString; url.Opaque := EmptyString;
                      url.User := None; url.escapedPath := "/";
                      url.ForceQuery := false;
                      url.RawQuery := EmptyString |};
       http.Proto := "HTTP/1.1"; http.ProtoMajor := 1;
       http.Header_ := [];
       http.Host := "localhost"; http.RemoteAddr := "@";
       http.RequestURI := "/" |} = "@".
Proof.
  split; [reflexivity|].
  apply (remoteHost_no_colon
    {| http.Method := "GET";
       http.URL := {| url.Scheme := EmptyString; url.Opaque := EmptyString;
                      url.User := None; url.escapedPath := "/";
                      url.ForceQuery := false;
                      url.RawQuery := EmptyString |};
       http.Proto := "HTTP/1.1"; http.ProtoMajor := 1;
       http.Header_ := [];
       http.Host := "localhost"; http.RemoteAddr := "@";
       http.RequestURI := "/" |}).
  reflexivity.
Defined.

(** X10: the host that is logged is the peer address itself, or the peer
    address without its last colon and the port after it, and without
    the square brackets around a bracketed host; that port holds no
    colon. *)
Theorem remoteHost_strips_port (req : http.Request) :
  remoteHost req = http.RemoteAddr req \/
  exists p,
    hasByte ":" p = false /\
    (http.RemoteAddr req = remoteHost req ++ ":" ++ p \/
     http.RemoteAddr req = "[" ++ remoteHost req ++ "]:" ++ p).
Proof. apply remoteHost_cases. Qed.

(** ** One request, one line *)

Lemma allDigits_noControl (s : string) :
  allDigits s = true -> noControl s = true.
Proof.
  induction s as [|a s IH]; cbn [allDigits noControl]; [reflexivity|].
  rewrite andb_true_iff. intros [D A]. rewrite (IH A), andb_true_r.
  unfold isDigit in D. change (byteVal "0") with 48 in D.
  change (byteVal "9") with 57 in D.
  unfold isGraphic. apply andb_true_iff. split; [lia|].
  apply negb_true_iff. lia.
Qed.

Lemma noControl_formatUint (u : Z) :
  0 <= u -> noControl (itoa.formatUint u) = true.
Proof.
  intros U. apply allDigits_noControl. now apply formatUint_spec.
Qed.

Lemma noControl_zeros (n : nat) : noControl (itoa.zeros n) = true.
Proof. induction n as [|n IH]; [reflexivity | exact IH]. Qed.

Lemma noControl_appendInt (b : string) (x : Z) (width : nat) :
  noControl (itoa.appendInt b x width) = noControl b.
Proof.
  unfold itoa.appendInt. cbv zeta.
  rewrite !noControl_app, noControl_zeros, noControl_formatUint by lia.
  destruct (x <? 0); cbn [noControl isGraphic andb];
    now rewrite ?andb_true_r.
Qed.

Lemma noControl_Itoa (i : Z) : noControl (itoa.Itoa i) = true.
Proof.
  unfold itoa.Itoa. destruct (i <? 0) eqn:S.
  - cbn [noControl]. now rewrite noControl_formatUint by lia.
  - apply noControl_formatUint. lia.
Qed.

Lemma noControl_month (n : nat) :
  noControl (nth n time.shortMonthNames EmptyString) = true.
Proof.
  do 12 (destruct n as [|n]; [reflexivity|]). destruct n; reflexivity.
Qed.

Lemma noControl_FormatCLF (ts : time.Time) :
  noControl (time.FormatCLF ts) = true.
Proof.
  unfold time.FormatCLF. cbv zeta.
  destruct (time.civil _) as [[year month] day].
  repeat (rewrite noControl_appendInt || rewrite noControl_app).
  rewrite noControl_month. destruct (_ <? 0); reflexivity.
Qed.

Lemma noControl_prettyDuration (dur : time.Duration) :
  noControl (prettyDuration dur) = true.
Proof.
  unfold prettyDuration. cbv zeta. rewrite noControl_app, andb_true_r.
  assert (F : forall neg k, 0 <= k ->
            noControl (float64.fixed3 neg k) = true).
  { intros neg k K. unfold float64.fixed3.
    rewrite !noControl_app, noControl_formatUint, noControl_appendInt
      by (Z.to_euclidean_division_equations; lia).
    destruct neg; reflexivity. }
  destruct (float64.div _ _) as [s|s| |s m e]; cbn [float64.format3].
  - apply F. lia.
  - destruct s; reflexivity.
  - reflexivity.
  - apply F, roundMilli_nonneg.
Qed.

Lemma noControl_remoteHost (req : http.Request) :
  noControl (http.RemoteAddr req) = true ->
  noControl (remoteHost req) = true.
Proof.
  intros N.
  destruct (remoteHost_cases req) as [->|[p [_ [A|A]]]]; [exact N| |];
    rewrite A, ?noControl_app in N;
    repeat (apply andb_true_iff in N; destruct N as [? N]);
    repeat match goal with
    | H : _ && _ = true |- _ => apply andb_true_iff in H; destruct H
    end; assumption.
Qed.

Lemma newlines_app (x y : string) :
  newlines (x ++ y) = (newlines x + newlines y)%nat.
Proof.
  induction x as [|a x IH]; cbn [append newlines]; [reflexivity|].
  rewrite IH. lia.
Qed.

Lemma noControl_userName (req : http.Request) :
  noControl (url.Username (url.User (http.URL req))) = true ->
  noControl (userName req) = true.
Proof.
  intros N. unfold userName. cbv zeta.
  destruct (url.User (http.URL req)); [|reflexivity].
  destruct (negb _); [exact N | reflexivity].
Qed.

(** X11: when the peer address, the user name of the URL, the method and
    the protocol hold no control byte, neither does the line that is
    built, in either format: the payload written to the sink holds one
    newline, its last byte, whatever the target, the referrer and the
    user agent are. *)
Theorem log_payload_one_line (wide : Z -> bool) (w : Writer)
    (req : http.Request) (ts : time.Time) (status size : Z)
    (delay : time.Duration) :
  noControl (http.RemoteAddr req) = true ->
  noControl (url.Username (url.User (http.URL req))) = true ->
  noControl (http.Method req) = true ->
  noControl (http.Proto req) = true ->
  exists common combined,
    writeCommonLog wide w req ts status size delay
    = Some (Write w (common ++ str1 newline)) /\
    noControl common = true /\
    newlines (common ++ str1 newline) = 1%nat /\
    writeCombinedLog wide w req ts status size delay
    = Some (Write w (combined ++ str1 newline)) /\
    noControl combined = true /\
    newlines (combined ++ str1 newline) = 1%nat.
Proof.
  intros A U M P.
  set (common := commonLine (remoteHost req) (userName req)
                   (time.FormatCLF ts) (http.Method req)
                   (quoted wide (requestTarget req)) (http.Proto req)
                   status size (prettyDuration delay)).
  set (combined := common ++ " " ++ str1 dquote
                     ++ quoted wide (http.Referer req) ++ str1 dquote
                     ++ " " ++ str1 dquote
                     ++ quoted wide (http.UserAgent req) ++ str1 dquote).
  assert (NC : noControl common = true).
  { subst common. unfold commonLine.
    rewrite !noControl_app, (noControl_remoteHost req A),
      (noControl_userName req U), noControl_FormatCLF, M, P,
      noControl_quoted, !noControl_Itoa, noControl_prettyDuration.
    reflexivity. }
  assert (NB : noControl combined = true).
  { subst combined. rewrite !noControl_app, NC, !noControl_quoted.
    reflexivity. }
  exists common, combined.
  split; [|split; [exact NC|split; [|split; [|split; [exact NB|]]]]].
  - unfold writeCommonLog. now rewrite buildCommonLogLine_eq.
  - rewrite newlines_app, (noControl_newlines _ NC). reflexivity.
  - unfold writeCombinedLog. rewrite buildCommonLogLine_eq. cbn [bind].
    rewrite appendQuoted_quoted. cbn [bind].
    rewrite appendQuoted_quoted. cbn [bind].
    subst combined. fold common. now rewrite !append_assoc.
  - rewrite newlines_app, (noControl_newlines _ NB). reflexivity.
Qed.

Lemma log_payload_one_line_witness :
  noControl "10.0.0.7:4711" = true /\
  exists common combined,
    writeCommonLog latin1Only []
      {| http.Method := "GET";
         http.URL := {| url.Scheme := EmptyString; url.Opaque := EmptyString;
                        url.User := None; url.escapedPath := "/";
                        url.ForceQuery := false;
                        url.RawQuery := EmptyString |};
         http.Proto := "HTTP/1.1"; http.ProtoMajor := 1;
         http.Header_ := [("User-Agent", [String "010" "x"])];
         http.Host := "localhost"; http.RemoteAddr := "10.0.0.7:4711";
         http.RequestURI := String "010" "/" |}
      {| time.unixSec := 0; time.zoneOffset := 0 |} 200 2 1000
    = Some (Write [] (common ++ str1 newline)) /\
    noControl common = true /\
    newlines (common ++ str1 newline) = 1%nat /\
    writeCombinedLog latin1Only []
      {| http.Method := "GET";
         http.URL := {| url.Scheme := EmptyString; url.Opaque := EmptyString;
                        url.User := None; url.escapedPath := "/";
                        url.ForceQuery := false;
                        url.RawQuery := EmptyString |};
         http.Proto := "HTTP/1.1"; http.ProtoMajor := 1;
         http.Header_ := [("User-Agent", [String "010" "x"])];
         http.Host := "localhost"; http.RemoteAddr := "10.0.0.7:4711";
         http.RequestURI := String "010" "/" |}
      {| time.unixSec := 0; time.zoneOffset := 0 |} 200 2 1000
    = Some (Write [] (combined ++ str1 newline)) /\
    noControl combined = true /\
    newlines (combined ++ str1 newline) = 1%nat.
Proof.
  split; [reflexivity|].
  apply (log_payload_one_line latin1Only []
      {| http.Method := "GET";
         http.URL := {| url.Scheme := EmptyString; url.Opaque := EmptyString;
                        url.User := None; url.escapedPath := "/";
                        url.ForceQuery := false;
                        url.RawQuery := EmptyString |};
         http.Proto := "HTTP/1.1"; http.ProtoMajor := 1;
         http.Header_ := [("User-Agent", [String "010" "x"])];
         http.Host := "localhost"; http.RemoteAddr := "10.0.0.7:4711";
         http.RequestURI := String "010" "/" |}
      {| time.unixSec := 0; time.zoneOffset := 0 |} 200 2 1000);
    reflexivity.
Defined.

(** ** The sign of the elapsed field *)

Lemma binary_round_aux_sign (s : bool) (m e : Z) (l : location) :
  isNumber (binary_round_aux float64.prec float64.emax s m e l) = true ->
  signBit (binary_round_aux float64.prec float64.emax s m e l) = s.
Proof.
  unfold binary_round_aux.
  destruct (shr_fexp float64.prec float64.emax m e l) as [mrs1 e1].
  destruct (shr_fexp float64.prec float64.emax _ e1 loc_Exact)
    as [mrs2 e2].
  destruct (shr_m mrs2) as [|p|p]; [reflexivity| |discriminate].
  destruct (e2 <=? _); [reflexivity | discriminate].
Qed.

Lemma ofInt_sign (n : Z) :
  - 2 ^ 63 <= n < 2 ^ 63 ->
  isNumber (float64.ofInt n) = true /\
  signBit (float64.ofInt n) = (n <? 0).
Proof.
  intros R.
  assert (N : isNumber (float64.ofInt n) = true)
    by (destruct (ofInt_bounds n R) as [[s ->]|[s [m [e [-> _]]]]];
        reflexivity).
  split; [exact N|].
  unfold float64.ofInt, binary_normalize, binary_round in *.
  destruct n as [|p|p]; [reflexivity| |];
    destruct (shl_align _ _ _) as [mz ez];
    now rewrite (binary_round_aux_sign _ _ _ _ N).
Qed.

Lemma div_sign (x : spec_float) (m : positive) (e : Z) :
  isNumber x = true ->
  isNumber (float64.div x (S754_finite false m e)) = true ->
  signBit (float64.div x (S754_finite false m e)) = signBit x.
Proof.
  unfold float64.div. destruct x as [s|s| |s mx ex]; try discriminate;
    intros _ N; cbn [SFdiv signBit] in *.
  - now rewrite xorb_false_r.
  - destruct (SFdiv_core_binary _ _ _ _ _ _) as [[mz ez] lz].
    rewrite (binary_round_aux_sign _ _ _ _ N). now rewrite xorb_false_r.
Qed.

Lemma prettyDuration_head (dur : time.Duration) :
  - 2 ^ 63 <= dur < 2 ^ 63 ->
  exists d rest,
    prettyDuration dur
    = (if dur <? 0 then "-" else EmptyString) ++ String d rest /\
    isDigit d = true.
Proof.
  intros R. unfold prettyDuration. cbv zeta.
  pose proof (div_million_isNumber dur R) as N.
  destruct (ofInt_sign dur R) as [NI SI].
  change (float64.ofInt 1000000)
    with (S754_finite false 8589934592000000 (-33)) in *.
  pose proof (div_sign _ _ _ NI N) as S. rewrite SI in S.
  change (time.Nanoseconds dur) with dur.
  set (q := float64.div (float64.ofInt dur) _) in *. clearbody q.
  assert (F : exists whole frac,
            float64.format3 q
            = (if dur <? 0 then "-" else EmptyString)
                ++ whole ++ "." ++ frac /\
            (0 < String.length whole)%nat /\ allDigits whole = true).
  { destruct q as [s|s| |s m e]; try discriminate N;
      cbn [float64.format3 signBit] in *; subst s.
    - destruct (fixed3_spec (dur <? 0) 0 ltac:(lia))
        as [whole [frac [E [L [D _]]]]]. now exists whole, frac.
    - destruct (fixed3_spec (dur <? 0) _ (roundMilli_nonneg m e))
        as [whole [frac [E [L [D _]]]]]. now exists whole, frac. }
  destruct F as [whole [frac [E [L D]]]].
  destruct whole as [|d whole]; [cbn [String.length] in L; lia|].
  cbn [allDigits] in D. apply andb_true_iff in D. destruct D as [D _].
  exists d, (whole ++ "." ++ frac ++ "ms").
  split; [|exact D]. rewrite E, !append_assoc. reflexivity.
Qed.

(** X12: for every 64-bit duration the elapsed field starts with a minus
    sign exactly when the duration is negative, and the sign, if any, is
    followed by a digit. *)
Theorem prettyDuration_sign (dur : time.Duration) :
  - 2 ^ 63 <= dur < 2 ^ 63 ->
  exists d rest,
    prettyDuration dur
    = (if dur <? 0 then "-" else EmptyString) ++ String d rest /\
    isDigit d = true.
Proof. apply prettyDuration_head. Qed.

Lemma prettyDuration_sign_witness :
  - 2 ^ 63 <= -1500 < 2 ^ 63 /\
  exists d rest,
    prettyDuration (-1500) = "-" ++ String d rest /\ isDigit d = true.
Proof.
  split; [lia|].
  apply (prettyDuration_sign (-1500)). lia.
Defined.

(** ** The middleware *)

Lemma Sub_range (t u : clock.Instant) :
  - 2 ^ 63 <= clock.Sub t u < 2 ^ 63 /\
  (clock.nanos u <= clock.nanos t -> 0 <= clock.Sub t u).
Proof.
  unfold clock.Sub, clock.maxDuration, clock.minDuration. cbv zeta.
  destruct (2 ^ 63 - 1 <? _) eqn:A; [lia|].
  destruct (_ <? - 2 ^ 63) eqn:B; lia.
Qed.

(** X17: when the downstream handler returns, each middleware adds one
    write to the sink, after whatever the handler wrote there, and never
    fails; the payload is the line for the request as the handler left
    it, the wall time read before the handler ran, the status and byte
    count observed, and the time between the two clock readings; the
    Combined payload is the Common one with the two quoted fields before
    the newline.  Status, byte count and request pass through.  When the
    handler panics nothing is written. *)
Theorem middleware_logs_once (wide : Z -> bool) (Env : Type)
    (now : Env -> clock.Instant * Env) (next : Handler Env)
    (r : http.Request) (w : World Env) :
  let t1 := fst (now (env w)) in
  match next r {| sink := sink w; env := snd (now (env w)) |} with
  | None =>
    CommonLogger wide now next r w = None /\
    CombinedLogger wide now next r w = None
  | Some served =>
    let t2 := fst (now (env (world served))) in
    let e2 := snd (now (env (world served))) in
    exists common qr qu,
      buildCommonLogLine wide (request served) (clock.wall t1)
        (Status served) (BytesWritten served) (clock.Sub t2 t1)
      = Some common /\
      appendQuoted wide EmptyString (http.Referer (request served))
      = Some qr /\
      appendQuoted wide EmptyString (http.UserAgent (request served))
      = Some qu /\
      CommonLogger wide now next r w
      = Some {| Status := Status served;
                BytesWritten := BytesWritten served;
                request := request served;
                world := {| sink := List.app (sink (world served))
                                      [common ++ str1 newline];
                            env := e2 |} |} /\
      CombinedLogger wide now next r w
      = Some {| Status := Status served;
                BytesWritten := BytesWritten served;
                request := request served;
                world := {| sink := List.app (sink (world served))
                                      [common ++ " " ++ str1 dquote ++ qr
                                        ++ str1 dquote ++ " " ++ str1 dquote
                                        ++ qu ++ str1 dquote
                                        ++ str1 newline];
                            env := e2 |} |}
  end.
Proof.
  cbv zeta. unfold CommonLogger, CombinedLogger.
  destruct (now (env w)) as [t1 e1]. cbn [fst snd].
  destruct (next r {| sink := sink w; env := e1 |}) as [served|];
    [|split; reflexivity].
  cbn [bind].
  destruct (now (env (world served))) as [t2 e2]. cbn [fst snd].
  set (common := commonLine (remoteHost (request served))
                   (userName (request served))
                   (time.FormatCLF (clock.wall t1))
                   (http.Method (request served))
                   (quoted wide (requestTarget (request served)))
                   (http.Proto (request served))
                   (Status served) (BytesWritten served)
                   (prettyDuration (clock.Sub t2 t1))).
  exists common, (quoted wide (http.Referer (request served))),
         (quoted wide (http.UserAgent (request served))).
  split; [apply buildCommonLogLine_eq|].
  split; [apply (appendQuoted_quoted wide EmptyString)|].
  split; [apply (appendQuoted_quoted wide EmptyString)|].
  split.
  - unfold writeCommonLog. rewrite buildCommonLogLine_eq. reflexivity.
  - unfold writeCombinedLog. rewrite buildCommonLogLine_eq. cbn [bind].
    rewrite appendQuoted_quoted. cbn [bind].
    rewrite appendQuoted_quoted. cbn [bind].
    fold common. unfold Write. now rewrite !append_assoc.
Qed.

(** X18: when the clock reading taken after the handler is not before the
    one taken before it, the elapsed field of the line that is written
    starts with a digit: no negative latency is logged. *)
Theorem middleware_elapsed_not_negative (wide : Z -> bool) (Env : Type)
    (now : Env -> clock.Instant * Env) (next : Handler Env)
    (r : http.Request) (w : World Env) (served : Served Env) :
  next r {| sink := sink w; env := snd (now (env w)) |} = Some served ->
  clock.nanos (fst (now (env w)))
  <= clock.nanos (fst (now (env (world served)))) ->
  exists before d rest,
    isDigit d = true /\
    prettyDuration (clock.Sub (fst (now (env (world served))))
                              (fst (now (env w))))
    = String d rest /\
    option_map (fun s => sink (world s)) (CommonLogger wide now next r w)
    = Some (List.app (sink (world served))
              [before ++ " " ++ String d rest ++ str1 newline]).
Proof.
  intros N M.
  destruct (Sub_range (fst (now (env (world served)))) (fst (now (env w))))
    as [R P]. specialize (P M).
  destruct (prettyDuration_head _ R) as [d [rest [E D]]].
  replace (clock.Sub _ _ <? 0) with false in E by lia.
  cbn [append] in E.
  unfold CommonLogger.
  destruct (now (env w)) as [t1 e1]. cbn [fst snd] in *.
  rewrite N. cbn [bind].
  destruct (now (env (world served))) as [t2 e2]. cbn [fst snd] in *.
  unfold writeCommonLog. rewrite buildCommonLogLine_eq. cbn [bind option_map].
  unfold commonLine. rewrite E.
  exists (remoteHost (request served) ++ " - " ++ userName (request served)
          ++ " [" ++ time.FormatCLF (clock.wall t1) ++ "] " ++ str1 dquote
          ++ http.Method (request served) ++ " "
          ++ quoted wide (requestTarget (request served)) ++ " "
          ++ http.Proto (request served) ++ str1 dquote ++ " "
          ++ itoa.Itoa (Status served) ++ " "
          ++ itoa.Itoa (BytesWritten served)),
         d, rest.
  split; [exact D|]. split; [reflexivity|].
  cbn [sink world]. unfold Write. do 3 f_equal.
  now rewrite !append_assoc.
Qed.

Lemma middleware_elapsed_not_negative_witness :
  exists before d rest,
    isDigit d = true /\
    prettyDuration
      (clock.Sub (fst (tickClock 500000)) (fst (tickClock 0)))
    = String d rest /\
    option_map (fun s => sink (world s))
      (CommonLogger latin1Only tickClock notFound rootRequest
         {| sink := []; env := 0 |})
    = Some [before ++ " " ++ String d rest ++ str1 newline].
Proof.
  apply (middleware_elapsed_not_negative latin1Only Z tickClock notFound
           rootRequest {| sink := []; env := 0 |}
           {| Status := 404; BytesWritten := 0; request := rootRequest;
              world := {| sink := []; env := 500000 |} |}).
  - reflexivity.
  - cbn. lia.
Defined.

(** ** The timestamp *)

Lemma holdsFrom_spec (f : Z -> bool) (n : nat) :
  forall i, holdsFrom f i n = true ->
  forall x, i <= x < i + Z.of_nat n -> f x = true.
Proof.
  induction n as [|n IH]; intros i H x X; [lia|].
  cbn [holdsFrom] in H. apply andb_true_iff in H. destruct H as [H0 H1].
  destruct (Z.eq_dec x i) as [->|NE]; [exact H0|].
  apply (IH (i + 1) H1). lia.
Qed.

Lemma holdsFrom_below (f : Z -> bool) (n : Z) :
  holdsFrom f 0 (Z.to_nat n) = true ->
  forall x, 0 <= x < n -> f x = true.
Proof.
  intros H x X. apply (holdsFrom_spec _ _ _ H). lia.
Qed.

Lemma appendInt_padded (b : string) (x : Z) (width : nat) :
  itoa.appendInt b x width = b ++ padded width x.
Proof. reflexivity. Qed.

Lemma padded2_spec (x : Z) :
  0 <= x < 100 ->
  digitField 2 (padded 2 x) = true /\ decimalValue (padded 2 x) = x.
Proof.
  intros X.
  assert (A : holdsFrom (fun x => digitField 2 (padded 2 x)
                                 && (decimalValue (padded 2 x) =? x))
                0 (Z.to_nat 100) = true) by (vm_compute; reflexivity).
  pose proof (holdsFrom_below _ _ A x X) as H. cbv beta in H.
  apply andb_true_iff in H. destruct H as [H1 H2]. split; [exact H1|lia].
Qed.

Lemma padded4_spec (x : Z) :
  0 <= x < 10000 ->
  digitField 4 (padded 4 x) = true /\ decimalValue (padded 4 x) = x.
Proof.
  intros X.
  assert (A : holdsFrom (fun x => digitField 4 (padded 4 x)
                                 && (decimalValue (padded 4 x) =? x))
                0 (Z.to_nat 10000) = true) by (vm_compute; reflexivity).
  pose proof (holdsFrom_below _ _ A x X) as H. cbv beta in H.
  apply andb_true_iff in H. destruct H as [H1 H2]. split; [exact H1|lia].
Qed.

Lemma civil_era (days : Z) :
  time.civil days
  = let '(y, m, d) := time.civil ((days + 719468) mod 146097 - 719468) in
    (y + (days + 719468) / 146097 * 400, m, d).
Proof.
  unfold time.civil. cbv zeta.
  set (z := days + 719468).
  replace (z mod 146097 - 719468 + 719468) with (z mod 146097) by lia.
  assert (E : z mod 146097 / 146097 = 0)
    by (apply Z.div_small, Z.mod_pos_bound; lia).
  rewrite E.
  replace (z mod 146097 - 0 * 146097) with (z mod 146097) by lia.
  replace (z - z / 146097 * 146097) with (z mod 146097)
    by (rewrite Z.mod_eq by lia; lia).
  f_equal. f_equal. lia.
Qed.

Lemma civilOk_all (doe : Z) : 0 <= doe < 146097 -> civilOk doe = true.
Proof.
  intros D.
  assert (A : holdsFrom civilOk 0 (Z.to_nat 146097) = true)
    by (vm_compute; reflexivity).
  exact (holdsFrom_below _ _ A doe D).
Qed.

(** X19: for an instant whose local date lies in the years 0 to 9999 and
    whose zone is less than a hundred hours from UTC, the timestamp is
    26 bytes long: two digits of a day from 1 to 31, a slash, one of the
    twelve month abbreviations, a slash, four digits of the year, and,
    each after a colon, two digits of hours, minutes and seconds that
    add up to the second of the local day; then a space, the sign of the
    zone (minus from one minute west on) and four digits of its hours and
    minutes. *)
Theorem FormatCLF_shape (t : time.Time) :
  - 62167219200 <= time.unixSec t + time.zoneOffset t < 253402300800 ->
  - 360000 < time.zoneOffset t < 360000 ->
  exists dd mon yyyy hh mm ss zh zm,
    time.FormatCLF t
    = dd ++ "/" ++ mon ++ "/" ++ yyyy ++ ":" ++ hh ++ ":" ++ mm ++ ":" ++ ss
      ++ " " ++ (if time.zoneOffset t <=? - 60 then "-" else "+")
      ++ zh ++ zm /\
    len (time.FormatCLF t) = 26 /\
    digitField 2 dd = true /\ 1 <= decimalValue dd <= 31 /\
    In mon time.shortMonthNames /\
    digitField 4 yyyy = true /\
    digitField 2 hh = true /\ digitField 2 mm = true /\
    digitField 2 ss = true /\
    decimalValue mm < 60 /\ decimalValue ss < 60 /\
    decimalValue hh * 3600 + decimalValue mm * 60 + decimalValue ss
    = (time.unixSec t + time.zoneOffset t) mod 86400 /\
    digitField 2 zh = true /\ digitField 2 zm = true /\
    decimalValue zm < 60 /\
    decimalValue zh * 60 + decimalValue zm
    = Z.abs (Z.quot (time.zoneOffset t) 60).
Proof.
  intros A O. unfold time.FormatCLF. cbv zeta.
  set (abs := time.unixSec t + time.zoneOffset t) in *.
  rewrite civil_era.
  set (z := abs / 86400 + 719468).
  assert (Z0 : - 60 <= z < 3652365) by (subst z; zlia).
  pose proof (civilOk_all (z mod 146097) ltac:(zlia)) as OK.
  unfold civilOk in OK.
  destruct (time.civil (z mod 146097 - 719468)) as [[y m] d].
  repeat (apply andb_true_iff in OK; destruct OK as [OK ?]).
  set (mon := nth (Z.to_nat (m - 1)) time.shortMonthNames EmptyString) in *.
  set (year := y + z / 146097 * 400).
  set (sec := abs mod 86400).
  set (zone := Z.quot (time.zoneOffset t) 60).
  assert (Y : 0 <= year < 10000).
  { subst year.
    destruct (y =? 400) eqn:Y4; destruct (146037 <=? z mod 146097) eqn:Z4;
      try discriminate; zlia. }
  assert (S0 : 0 <= sec < 86400) by (subst sec; zlia).
  assert (ZN : - 6000 < zone < 6000) by (subst zone; zlia).
  destruct (padded2_spec d ltac:(lia)) as [D1 D2].
  destruct (padded4_spec year Y) as [Y1 Y2].
  destruct (padded2_spec (sec / 3600) ltac:(zlia)) as [Hh1 Hh2].
  destruct (padded2_spec (sec mod 3600 / 60) ltac:(zlia)) as [M1 M2].
  destruct (padded2_spec (sec mod 60) ltac:(zlia)) as [S1 S2].
  destruct (padded2_spec (Z.abs zone / 60) ltac:(zlia)) as [ZH1 ZH2].
  destruct (padded2_spec (Z.abs zone mod 60) ltac:(zlia)) as [ZM1 ZM2].
  rewrite !appendInt_padded.
  replace (zone <? 0) with (time.zoneOffset t <=? - 60)
    by (subst zone; zlia).
  assert (E : ((((((((((((((EmptyString ++ padded 2 d) ++ "/") ++ mon) ++ "/")
             ++ padded 4 year) ++ ":") ++ padded 2 (sec / 3600)) ++ ":")
             ++ padded 2 (sec mod 3600 / 60)) ++ ":")
             ++ padded 2 (sec mod 60)) ++ " ")
             ++ (if time.zoneOffset t <=? - 60 then "-" else "+"))
             ++ padded 2 (Z.abs zone / 60)) ++ padded 2 (Z.abs zone mod 60)
           = padded 2 d ++ "/" ++ mon ++ "/" ++ padded 4 year ++ ":"
             ++ padded 2 (sec / 3600) ++ ":"
             ++ padded 2 (sec mod 3600 / 60) ++ ":"
             ++ padded 2 (sec mod 60) ++ " "
             ++ (if time.zoneOffset t <=? - 60 then "-" else "+")
             ++ padded 2 (Z.abs zone / 60) ++ padded 2 (Z.abs zone mod 60)).
  { rewrite !append_assoc. reflexivity. }
  rewrite E.
  exists (padded 2 d), mon, (padded 4 year), (padded 2 (sec / 3600)),
         (padded 2 (sec mod 3600 / 60)), (padded 2 (sec mod 60)),
         (padded 2 (Z.abs zone / 60)), (padded 2 (Z.abs zone mod 60)).
  split; [reflexivity|].
  split.
  { unfold digitField in *.
    repeat match goal with
    | H : _ && _ = true |- _ => apply andb_true_iff in H; destruct H as [H _]
    | H : Nat.eqb _ _ = true |- _ => apply Nat.eqb_eq in H
    end.
    unfold len. rewrite !length_append.
    destruct (time.zoneOffset t <=? - 60); cbn [String.length]; lia. }
  rewrite D2, Hh2, M2, S2, ZH2, ZM2.
  repeat split; try assumption; try lia; try zlia.
  subst mon. apply nth_In. cbn [time.shortMonthNames List.length]. lia.
Qed.

Lemma FormatCLF_shape_witness :
  - 62167219200 <= 1483384047 + 3600 < 253402300800 /\
  len (time.FormatCLF
         {| time.unixSec := 1483384047; time.zoneOffset := 3600 |}) = 26.
Proof.
  split; [lia|].
  destruct (FormatCLF_shape
              {| time.unixSec := 1483384047; time.zoneOffset := 3600 |})
    as [dd [mon [yyyy [hh [mm [ss [zh [zm [_ [L _]]]]]]]]]].
  - cbn. lia.
  - cbn. lia.
  - exact L.
Defined.
